(** * Pattern-Analysis-Agent: the time-series analysis engine

    A shallow embedding of the analyzer code of the repository

    - [packages/advanced-agent/src/experts/ultimate.ts]
      (the expert's private [PatternAnalyzer] class and the
      [analyzePatterns] handler),
    - [packages/advanced-agent/src/analyzers/statistics.ts] and
      [.../analyzers/detectors.ts],
    - [packages/advanced-agent/src/analyzers/PatternAnalyzer.ts]
      (the exported [PatternAnalyzer] facade) and [.../types.ts],

    together with the properties of it that the specification states.

    JavaScript numbers are modelled by [JS.number]: the rationals, with
    the three special values of IEEE-754 ([Infinity], [-Infinity], [NaN])
    and their arithmetic.  Finite arithmetic is exact: the rounding of
    binary64 is not part of the model, and neither is the sign of zero
    (the single zero of the model divides like [+0]). *)

From Stdlib Require Import ZArith QArith Qround Qabs Lia Lqa.
From Stdlib Require Import List Sorted Permutation.
From stdpp Require Import base option list gmap strings.

Local Open Scope Q_scope.

(* ===================================================================== *)
(** ** JavaScript numbers                                                 *)
(* ===================================================================== *)

Module JS.

Inductive number : Type :=
| Num (q : Q)
| Infinity
| NegInfinity
| NaN.

Definition zero : number := Num 0.
Definition one : number := Num 1.

(** Array lengths and indices are non-negative integers. *)
Definition of_nat (n : nat) : number := Num (inject_Z (Z.of_nat n)).
Definition of_Z (z : Z) : number := Num (inject_Z z).

Definition isNaN (x : number) : bool :=
  match x with NaN => true | _ => false end.

(** Unary minus. *)
Definition neg (x : number) : number :=
  match x with
  | Num q => Num (- q)
  | Infinity => NegInfinity
  | NegInfinity => Infinity
  | NaN => NaN
  end.

(** [x + y]: [Infinity + -Infinity] is [NaN]. *)
Definition add (x y : number) : number :=
  match x, y with
  | NaN, _ | _, NaN => NaN
  | Num a, Num b => Num (a + b)
  | Infinity, NegInfinity | NegInfinity, Infinity => NaN
  | Infinity, _ | _, Infinity => Infinity
  | NegInfinity, _ | _, NegInfinity => NegInfinity
  end.

(** [x - y]. *)
Definition sub (x y : number) : number := add x (neg y).

(** The sign of a rational as a comparison with zero. *)
Definition Qsign (q : Q) : comparison := q ?= 0.

(** An infinity of the given sign; [NaN] for the sign of zero. *)
Definition signed_infinity (c : comparison) : number :=
  match c with
  | Gt => Infinity
  | Lt => NegInfinity
  | Eq => NaN
  end.

Definition flip (c : comparison) : comparison := CompOpp c.

(** [x * y]: [Infinity * 0] is [NaN]. *)
Definition mul (x y : number) : number :=
  match x, y with
  | NaN, _ | _, NaN => NaN
  | Num a, Num b => Num (a * b)
  | Infinity, Num b | Num b, Infinity => signed_infinity (Qsign b)
  | NegInfinity, Num b | Num b, NegInfinity => signed_infinity (flip (Qsign b))
  | Infinity, Infinity | NegInfinity, NegInfinity => Infinity
  | Infinity, NegInfinity | NegInfinity, Infinity => NegInfinity
  end.

(** [x / y]: a finite non-zero number over zero is an infinity, [0 / 0]
    and [Infinity / Infinity] are [NaN]. *)
Definition div (x y : number) : number :=
  match x, y with
  | NaN, _ | _, NaN => NaN
  | Num a, Num b =>
      if Qeq_bool b 0 then signed_infinity (Qsign a) else Num (a / b)
  | Num _, (Infinity | NegInfinity) => Num 0
  | Infinity, Num b =>
      if Qle_bool 0 b then Infinity else NegInfinity
  | NegInfinity, Num b =>
      if Qle_bool 0 b then NegInfinity else Infinity
  | (Infinity | NegInfinity), (Infinity | NegInfinity) => NaN
  end.

(** [x < y]; every comparison with [NaN] is [false]. *)
Definition ltb (x y : number) : bool :=
  match x, y with
  | NaN, _ | _, NaN => false
  | Num a, Num b => negb (Qle_bool b a)
  | NegInfinity, (Num _ | Infinity) => true
  | Num _, Infinity => true
  | _, _ => false
  end.

(** [x > y]. *)
Definition gtb (x y : number) : bool := ltb y x.

(** [x <= y]. *)
Definition leb (x y : number) : bool :=
  match x, y with
  | NaN, _ | _, NaN => false
  | Num a, Num b => Qle_bool a b
  | NegInfinity, _ => true
  | _, Infinity => true
  | _, _ => false
  end.

(** [x >= y]. *)
Definition geb (x y : number) : bool := leb y x.

(** [x === y] on numbers: [NaN] is not equal to itself. *)
Definition strict_eqb (x y : number) : bool :=
  match x, y with
  | Num a, Num b => Qeq_bool a b
  | Infinity, Infinity | NegInfinity, NegInfinity => true
  | _, _ => false
  end.

(** [Math.abs]. *)
Definition Math_abs (x : number) : number :=
  match x with
  | Num q => Num (Qabs q)
  | Infinity | NegInfinity => Infinity
  | NaN => NaN
  end.

(** [Math.floor]. *)
Definition Math_floor (x : number) : number :=
  match x with
  | Num q => Num (inject_Z (Qfloor q))
  | _ => x
  end.

(** [Math.min] and [Math.max] of two numbers: [NaN] if either is. *)
Definition Math_min (x y : number) : number :=
  match x, y with
  | NaN, _ | _, NaN => NaN
  | _, _ => if leb x y then x else y
  end.

Definition Math_max (x y : number) : number :=
  match x, y with
  | NaN, _ | _, NaN => NaN
  | _, _ => if leb x y then y else x
  end.

(** [Math.pow(x, 3)], the only power the analyzers take. *)
Definition Math_pow3 (x : number) : number := mul (mul x x) x.

(** [array.slice(start, end)] with integer arguments: a negative index
    counts from the end of the array. *)
Definition relative_index (len : nat) (i : Z) : nat :=
  if (i <? 0)%Z then Z.to_nat (Z.max (Z.of_nat len + i) 0)
  else Nat.min (Z.to_nat i) len.

Definition Array_slice {A} (l : list A) (start stop : Z) : list A :=
  let k := relative_index (length l) start in
  let final := relative_index (length l) stop in
  firstn (final - k) (skipn k l).

(** [array.map((value, index) => f(value, index))]. *)
Fixpoint mapi_from {A B} (f : A -> nat -> B) (i : nat) (l : list A) : list B :=
  match l with
  | [] => []
  | x :: l' => f x i :: mapi_from f (S i) l'
  end.

Definition Array_mapi {A B} (f : A -> nat -> B) (l : list A) : list B :=
  mapi_from f 0 l.

(** [array.filter((value, index) => p(value, index))]. *)
Fixpoint filteri_from {A} (p : A -> nat -> bool) (i : nat) (l : list A) : list A :=
  match l with
  | [] => []
  | x :: l' =>
      if p x i then x :: filteri_from p (S i) l' else filteri_from p (S i) l'
  end.

Definition Array_filteri {A} (p : A -> nat -> bool) (l : list A) : list A :=
  filteri_from p 0 l.

(** [array.sort(compare)]: the sort is stable, and a comparator result of
    [NaN] counts as [0].  Every stable sort yields the same array when the
    comparator is a consistent ordering; insertion is the one written
    here. *)
Fixpoint sort_insert {A} (compare : A -> A -> number) (x : A) (l : list A) : list A :=
  match l with
  | [] => [x]
  | y :: l' =>
      if gtb (compare x y) zero then y :: sort_insert compare x l'
      else x :: y :: l'
  end.

Fixpoint Array_sort {A} (compare : A -> A -> number) (l : list A) : list A :=
  match l with
  | [] => []
  | x :: l' => sort_insert compare x (Array_sort compare l')
  end.

(** [array[i]] on an array of numbers, for use in arithmetic: reading
    outside the array gives [undefined], which arithmetic and comparisons
    turn into [NaN]. *)
Definition Array_get (l : list number) (i : nat) : number := nth i l NaN.

(** [array[i]] for an integer index, which may be negative: no element is
    there. *)
Definition Array_getZ (l : list number) (i : Z) : number :=
  if (i <? 0)%Z then NaN else Array_get l (Z.to_nat i).

(** [array[i]] for an index that was computed as a number: [undefined]
    ([None]) unless the index is an integer inside the array. *)
Definition Array_at {A} (l : list A) (i : number) : option A :=
  match i with
  | Num q =>
      if Qeq_bool q (inject_Z (Qfloor q)) && (0 <=? Qfloor q)%Z
      then nth_error l (Z.to_nat (Qfloor q))
      else None
  | _ => None
  end.

(** [Math.log]: [NaN] below zero, [-Infinity] at zero.  The logarithm of a
    positive rational is not a rational; [ln] stands for its value. *)
Definition Math_log (ln : Q -> Q) (x : number) : number :=
  match x with
  | Num q =>
      match Qsign q with
      | Lt => NaN
      | Eq => NegInfinity
      | Gt => Num (ln q)
      end
  | Infinity => Infinity
  | NegInfinity | NaN => NaN
  end.

(** Two numbers are the same value: equal rationals, or the same special
    value ([NaN] included, unlike [===]). *)
Definition same (x y : number) : Prop :=
  match x, y with
  | Num a, Num b => a == b
  | Infinity, Infinity | NegInfinity, NegInfinity | NaN, NaN => True
  | _, _ => False
  end.

(** A number proper: anything but [NaN]. *)
Definition is_number (x : number) : Prop := isNaN x = false.

(** A finite number. *)
Definition finite (x : number) : Prop := exists q, x = Num q.

(** A finite number that is not negative. *)
Definition nonneg (x : number) : Prop := exists w, x = Num w /\ 0 <= w.

(** A finite number that is positive. *)
Definition positive (x : number) : Prop := exists q, x = Num q /\ 0 < q.

End JS.

(* ===================================================================== *)
(** ** lodash                                                             *)
(* ===================================================================== *)

Module Lodash.
Import JS.

(** [_.sum]: [0] for the empty array, otherwise the elements added from
    the left, starting with the first one. *)
Definition sum (l : list number) : number :=
  match l with
  | [] => zero
  | x :: l' => fold_left add l' x
  end.

(** [_.sumBy(array, iteratee)]. *)
Definition sumBy {A} (iteratee : A -> number) (l : list A) : number :=
  sum (map iteratee l).

(** [_.mean]: [NaN] for the empty array. *)
Definition mean (l : list number) : number :=
  match l with
  | [] => NaN
  | _ => div (sum l) (of_nat (length l))
  end.

(** [_.range(start, end)] for [start <= end]. *)
Definition range (start stop : nat) : list nat := seq start (stop - start).

(** Modelled from the spec: [_.variance] is called by the analyzers but is
    no function of lodash and is defined nowhere in the repository.  The
    spec's StatisticsEngine names the population standard deviation, so
    the variance is the mean of the squared deviations from the mean. *)
Definition variance (l : list number) : number :=
  let m := mean l in
  mean (map (fun x => mul (sub x m) (sub x m)) l).

(** lodash's [compareAscending] on numbers: a [NaN] sorts after
    everything. *)
Definition compareAscending (value other : number) : number :=
  if gtb value other || isNaN value then Num 1
  else if ltb value other || isNaN other then Num (-1)
  else Num 0.

(** [_.sortBy(array)]: a stable ascending sort. *)
Definition sortBy (l : list number) : list number :=
  Array_sort compareAscending l.

End Lodash.

(* ===================================================================== *)
(** ** experts/ultimate.ts: the expert's PatternAnalyzer                  *)
(* ===================================================================== *)

Module Ultimate.
Import JS.

Record Options : Type := {
  opt_domain : option string;
  opt_contextWindow : option Z
}.

Record PatternAnalyzer : Type := {
  data : list number;
  timestamps : list number;
  domain : option string;
  contextWindow : Z
}.

(** [options.contextWindow || Math.max(10, Math.floor(data.length / 10))]:
    an absent or zero window is falsy. *)
Definition constructor (d ts : list number) (options : Options) : PatternAnalyzer :=
  {| data := d;
     timestamps := ts;
     domain := opt_domain options;
     contextWindow :=
       match opt_contextWindow options with
       | Some w => if (w =? 0)%Z then Z.max 10 (Z.of_nat (length d) / 10) else w
       | None => Z.max 10 (Z.of_nat (length d) / 10)
       end |}.

Record Weighted : Type := { value : number; weight : number }.

Definition tricubeWeight (x : number) : number :=
  let absX := Math_abs x in
  if geb absX one then zero
  else Math_pow3 (sub one (Math_pow3 absX)).

Definition getLocalWindow (this : PatternAnalyzer) (index : nat) : list Weighted :=
  let start := Z.max 0 (Z.of_nat index - contextWindow this) in
  let stop :=
    Z.min (Z.of_nat (length (data this)))
          (Z.of_nat index + contextWindow this + 1) in
  Array_mapi
    (fun v i =>
       {| value := v;
          weight := tricubeWeight (div (of_nat i) (of_Z (contextWindow this))) |})
    (Array_slice (data this) start stop).

Definition computeLocalRegression (window : list Weighted) : number :=
  div (Lodash.sumBy (fun w => mul (value w) (weight w)) window)
      (Lodash.sumBy weight window).

Definition computeRobustTrend (this : PatternAnalyzer) : list number :=
  Array_mapi (fun _ i => computeLocalRegression (getLocalWindow this i)) (data this).

(** One lag of [computeAutocorrelation]: the loop over
    [i = 0 .. data.length - lag - 1], accumulating [sum] and [n]. *)
Definition lagged_products (d : list number) (mean : number) (lag : nat)
  : number * number :=
  fold_left
    (fun '(sum, n) i =>
       (add sum (mul (sub (Array_get d i) mean) (sub (Array_get d (i + lag)) mean)),
        add n one))
    (seq 0 (length d - lag))
    (zero, zero).

Definition computeAutocorrelation (this : PatternAnalyzer) (maxLag : nat)
  : list number :=
  let mean := Lodash.mean (data this) in
  let variance := Lodash.variance (data this) in
  map
    (fun lag =>
       let '(sum, n) := lagged_products (data this) mean lag in
       div sum (mul n variance))
    (Lodash.range 1 (maxLag + 1)).

Record Point : Type := { index : nat; pvalue : number; isPeak : bool }.

Definition findPeaks (d : list number) : list Point :=
  List.filter isPeak
    (Array_mapi
       (fun v i =>
          {| index := i + 1;
             pvalue := v;
             isPeak :=
               (0 <? i)%nat && (i <? length d - 1)%nat
               && gtb v (Array_get d (i - 1))
               && gtb v (Array_get d (i + 1)) |})
       d).

Record Cycle : Type := { period : nat; strength : number; confidence : number }.

Definition assessPeriodConfidence (this : PatternAnalyzer) (p : nat)
    (correlation : number) : number :=
  let n := of_nat (length (data this)) in
  let coverage := div (mul (of_nat p) (Math_floor (div n (of_nat p)))) n in
  mul (mul correlation coverage)
      (sub one (Math_abs (sub (Num (1 # 2)) (div (of_nat p) n)))).

(** [maxLag] is [Math.floor(data.length / 3)], the quotient of the
    division of natural numbers. *)
Definition detectPeriodicity (this : PatternAnalyzer) : list Cycle :=
  let maxLag := (length (data this) / 3)%nat in
  let acf := computeAutocorrelation this maxLag in
  Array_sort
    (fun a b => sub (strength b) (strength a))
    (map
       (fun peak =>
          {| period := index peak;
             strength := pvalue peak;
             confidence := assessPeriodConfidence this (index peak) (pvalue peak) |})
       (findPeaks acf)).

Definition extractSeasonalComponent (this : PatternAnalyzer) : list number :=
  match detectPeriodicity this with
  | [] => repeat zero (length (data this))
  | first :: _ =>
      let dominantPeriod := period first in
      let seasonalPattern :=
        Array_mapi
          (fun _ i =>
             Lodash.mean
               (Array_filteri (fun _ idx => (idx mod dominantPeriod =? i)%nat)
                              (data this)))
          (repeat zero dominantPeriod) in
      Array_mapi (fun _ i => Array_get seasonalPattern (i mod dominantPeriod))
                 (data this)
  end.

(** Modelled from the spec: [computeResiduals] is called by
    [decomposeSeries] but is defined nowhere in the repository.  The spec's
    Decomposer says: residual = data - trend - seasonal, computed last. *)
Definition computeResiduals (this : PatternAnalyzer) (trend seasonal : list number)
  : list number :=
  Array_mapi
    (fun v i => sub (sub v (Array_get trend i)) (Array_get seasonal i))
    (data this).

Record Decomposition : Type := {
  trend : list number;
  seasonal : list number;
  residuals : list number
}.

Definition decomposeSeries (this : PatternAnalyzer) : Decomposition :=
  let t := computeRobustTrend this in
  let s := extractSeasonalComponent this in
  let r := computeResiduals this t s in
  {| trend := t; seasonal := s; residuals := r |}.

(** [generateDomainSpecificInsights]: which analysis is dispatched to.  An
    unknown tag gives [null], like no tag at all. *)
Inductive DomainDispatch : Type :=
| NoInsights | Financial | Medical | Environmental.

Definition generateDomainSpecificInsights (this : PatternAnalyzer) : DomainDispatch :=
  match domain this with
  | None => NoInsights
  | Some d =>
      if String.eqb d "" then NoInsights
      else if String.eqb d "financial" then Financial
      else if String.eqb d "medical" then Medical
      else if String.eqb d "environmental" then Environmental
      else NoInsights
  end.

Section FinancialRisk.
(** The value of the natural logarithm on the positive rationals. *)
Variable ln : Q -> Q.

Definition calculateReturns (this : PatternAnalyzer) : list number :=
  Array_mapi
    (fun v i => Math_log ln (div v (Array_get (data this) i)))
    (Array_slice (data this) 1 (Z.of_nat (length (data this)))).

(** [sortedReturns[index]], [undefined] ([None]) outside the array. *)
Definition calculateValueAtRisk (this : PatternAnalyzer) (conf : number)
  : option number :=
  let returns := calculateReturns this in
  let sortedReturns := Lodash.sortBy returns in
  let idx := Math_floor (mul (sub one conf) (of_nat (length returns))) in
  Array_at sortedReturns idx.

End FinancialRisk.

End Ultimate.

(* ===================================================================== *)
(** ** analyzers/statistics.ts                                            *)
(* ===================================================================== *)

Module Statistics.
Import JS.

(** [generateWeights(length, 'tricube')]. *)
Definition generateWeights (len : nat) : list number :=
  map
    (fun i =>
       let x :=
         Math_abs
           (sub (div (mul (Num 2) (of_nat i)) (sub (of_nat len) one)) one) in
       if leb x one then Math_pow3 (sub one (Math_pow3 x)) else zero)
    (seq 0 len).

(** [computeLocalRegression(data, window, index)]; [Math.floor(window / 2)]
    is the quotient of the division of integers. *)
Definition computeLocalRegression (d : list number) (window : Z) (index : nat)
  : number :=
  let start := Z.max 0 (Z.of_nat index - window / 2) in
  let stop := Z.min (Z.of_nat (length d)) (Z.of_nat index + window / 2 + 1) in
  let slice := Array_slice d start stop in
  let weights := generateWeights (length slice) in
  let weightedSum :=
    Lodash.sum (Array_mapi (fun v i => mul v (Array_get weights i)) slice) in
  let weightSum := Lodash.sum weights in
  div weightedSum weightSum.

Record Autocorrelation : Type := {
  lag : nat;
  coefficient : number;
  significance : number
}.

Section Significance.
(** [Math.sqrt] and [Math.exp]: their values are not rationals, and the
    properties below hold whatever they are. *)
Variables Math_sqrt Math_exp : number -> number.

Definition normalCDF (x : number) : number :=
  let t := div one (add one (mul (Num (2316419 # 10000000)) (Math_abs x))) in
  let d :=
    mul (Num (3989423 # 10000000))
        (Math_exp (div (mul (neg x) x) (Num 2))) in
  let p :=
    mul (mul d t)
        (add (Num (3193815 # 10000000))
           (mul t (add (Num (- (3565638 # 10000000)))
              (mul t (add (Num (1781478 # 1000000))
                 (mul t (add (Num (- (1821256 # 1000000)))
                    (mul t (Num (1330274 # 1000000)))))))))) in
  if gtb x zero then sub one p else p.

Definition calculateSignificance (c n : number) : number :=
  let tStatistic :=
    mul c (Math_sqrt (div (sub n (Num 2)) (sub one (mul c c)))) in
  mul (Num 2) (sub one (normalCDF (Math_abs tStatistic))).

(** One lag of [calculateAutocorrelation]: the loop over
    [i = 0 .. n - lag - 1], accumulating [sum] and [count]. *)
Definition lagged_products (d : list number) (mean : number) (k : nat)
  : number * number :=
  fold_left
    (fun '(sum, count) i =>
       (add sum (mul (sub (Array_get d i) mean) (sub (Array_get d (i + k)) mean)),
        add count one))
    (seq 0 (length d - k))
    (zero, zero).

Definition calculateAutocorrelation (d : list number) (maxLag : nat)
  : list Autocorrelation :=
  let mean := Lodash.mean d in
  let variance := Lodash.variance d in
  map
    (fun k =>
       let '(sum, count) := lagged_products d mean k in
       let c := div sum (mul count variance) in
       {| lag := k; coefficient := c;
          significance := calculateSignificance c count |})
    (Lodash.range 1 (maxLag + 1)).

End Significance.

(** One of the two loops of [calculateProminence]: the values are visited
    away from the peak, the loop breaks at the first value above the peak,
    and the minimum of the values visited is kept. *)
Fixpoint scan_min (peak acc : number) (l : list number) : number :=
  match l with
  | [] => acc
  | x :: l' => if gtb x peak then acc else scan_min peak (Math_min acc x) l'
  end.

Definition calculateProminence (d : list number) (peakIndex : nat) : number :=
  let peak := Array_get d peakIndex in
  let leftMin := scan_min peak peak (rev (firstn peakIndex d)) in
  let rightMin := scan_min peak peak (skipn (peakIndex + 1) d) in
  sub peak (Math_max leftMin rightMin).

Record Peak : Type := {
  p_index : nat;
  p_value : number;
  p_prominence : number
}.

(** [findPeaks(data, minProminence)]: the loop over
    [i = 1 .. data.length - 2]. *)
Definition findPeaks (d : list number) (minProminence : number) : list Peak :=
  flat_map
    (fun i =>
       if gtb (Array_get d i) (Array_get d (i - 1))
          && gtb (Array_get d i) (Array_get d (i + 1))
       then
         let prominence := calculateProminence d i in
         if geb prominence minProminence
         then [ {| p_index := i; p_value := Array_get d i;
                   p_prominence := prominence |} ]
         else []
       else [])
    (seq 1 (length d - 2)).

End Statistics.

(* ===================================================================== *)
(** ** analyzers/detectors.ts                                             *)
(* ===================================================================== *)

Module Detectors.
Import JS.

Record TrendFit : Type := { slope : number; confidence : number }.

Record Trend : Type := {
  t_start : Z;
  t_end : Z;
  t_slope : number;
  t_confidence : number
}.

Section Trends.
(** [findTrendChangePoints] and [analyzeTrendSegment] are called by
    [analyzeTrends] and defined nowhere in the repository: the indices of
    the change points of the smoothed series, and the fit of a segment. *)
Variable findTrendChangePoints : list number -> list Z.
Variable analyzeTrendSegment : list number -> TrendFit.

Definition smooth (d : list number) (windowSize : Z) : list number :=
  Array_mapi (fun _ i => Statistics.computeLocalRegression d windowSize i) d.

(** The loop [for (i = 0; i < changePoints.length - 1; i++)]: one
    candidate segment per pair of consecutive change points, pushed when
    [trend.confidence > 0.5]. *)
Fixpoint segments (smoothed : list number) (changePoints : list Z) : list Trend :=
  match changePoints with
  | start :: ((stop :: _) as rest) =>
      let segment := Array_slice smoothed start stop in
      let trend := analyzeTrendSegment segment in
      if gtb (confidence trend) (Num (1 # 2))
      then {| t_start := start; t_end := stop;
              t_slope := slope trend; t_confidence := confidence trend |}
           :: segments smoothed rest
      else segments smoothed rest
  | _ => []
  end.

Definition analyzeTrends (d : list number) (windowSize : Z) : list Trend :=
  let smoothed := smooth d windowSize in
  let changePoints := findTrendChangePoints smoothed in
  segments smoothed changePoints.

(** The candidate segments: what the loop fits at each iteration, before
    the test of the confidence. *)
Fixpoint candidates (smoothed : list number) (changePoints : list Z) : list Trend :=
  match changePoints with
  | start :: ((stop :: _) as rest) =>
      let trend := analyzeTrendSegment (Array_slice smoothed start stop) in
      {| t_start := start; t_end := stop;
         t_slope := slope trend; t_confidence := confidence trend |}
      :: candidates smoothed rest
  | _ => []
  end.

End Trends.

End Detectors.

(* ===================================================================== *)
(** ** types.ts: errors                                                   *)
(* ===================================================================== *)

Module Types.

(** [enum ErrorCode]. *)
Inductive ErrorCode : Type :=
| INSUFFICIENT_DATA
| INVALID_DOMAIN
| ANALYSIS_FAILED
| CACHE_ERROR.

(** What a [throw] carries: an [AnalysisError] with its message, code and
    context (the [{ error }] it wraps), or some other exception. *)
Inductive Thrown : Type :=
| AnalysisError (message : string) (code : ErrorCode) (context : Context)
| OtherError (description : string)
with Context : Type :=
| NoContext
| ErrorContext (error : Thrown).

(** The outcome of a call: a value is returned or something is thrown. *)
Inductive Completion (A : Type) : Type :=
| Return (a : A)
| Throw (e : Thrown).

Arguments Return {A} a.
Arguments Throw {A} e.

(** Sequencing: what is thrown by a step is thrown by the whole. *)
#[global] Instance completion_bind : MBind Completion :=
  fun A B (k : A -> Completion B) (c : Completion A) =>
    match c with
    | Return a => k a
    | Throw e => Throw e
    end.

(** [try { body } catch (error) { handler(error) }]. *)
Definition try_catch {A} (body : Completion A) (handler : Thrown -> Completion A)
  : Completion A :=
  match body with
  | Return a => Return a
  | Throw e => handler e
  end.

(** The error kinds the specification names, and the kind each code of
    [ErrorCode] stands for.  No code stands for [DimensionMismatch] or
    [DegenerateInput]. *)
Inductive ErrorKind : Type :=
| DimensionMismatch
| InsufficientData
| DegenerateInput
| InvalidDomain
| AnalysisFailed.

Definition kind_of_code (c : ErrorCode) : option ErrorKind :=
  match c with
  | INSUFFICIENT_DATA => Some InsufficientData
  | INVALID_DOMAIN => Some InvalidDomain
  | ANALYSIS_FAILED => Some AnalysisFailed
  | CACHE_ERROR => None
  end.

Definition kind_of (e : Thrown) : option ErrorKind :=
  match e with
  | AnalysisError _ c _ => kind_of_code c
  | OtherError _ => None
  end.

End Types.

(* ===================================================================== *)
(** ** analyzers/PatternAnalyzer.ts: the exported facade                  *)
(* ===================================================================== *)

Module Analyzer.
Import JS Types.

Record AnalysisOptions : Type := {
  opt_domain : option string;
  opt_contextWindow : option Z;
  opt_confidenceThreshold : option number
}.

Record PatternAnalyzer : Type := {
  data : list number;
  timestamps : list number;
  domain : option string;
  contextWindow : Z
}.

Definition constructor (d ts : list number) (options : AnalysisOptions)
  : Completion PatternAnalyzer :=
  if negb (length d =? length ts)%nat then
    Throw (AnalysisError "Data and timestamps must have same length"
                         INSUFFICIENT_DATA NoContext)
  else
    Return
      {| data := d;
         timestamps := ts;
         domain := opt_domain options;
         contextWindow :=
           match opt_contextWindow options with
           | Some w => if (w =? 0)%Z then Z.max 10 (Z.of_nat (length d) / 10) else w
           | None => Z.max 10 (Z.of_nat (length d) / 10)
           end |}.

Record Seasonality : Type := {
  s_period : nat;
  s_strength : number;
  s_components : list number
}.

Record Anomaly : Type := {
  a_index : nat;
  a_value : number;
  a_confidence : number
}.

Record TimeSeries (ChangePoint : Type) : Type := {
  trends : list Detectors.Trend;
  seasonality : Seasonality;
  changePoints : list ChangePoint;
  anomalies : list Anomaly
}.

Arguments trends {ChangePoint} _.
Arguments seasonality {ChangePoint} _.
Arguments changePoints {ChangePoint} _.
Arguments anomalies {ChangePoint} _.

Record Metadata : Type := {
  m_confidence : number;
  m_quality : number;
  m_recommendations : list string
}.

Record Window : Type := {
  w_start : number;
  w_end : number;
  w_data : list number
}.

Record Correlation : Type := {
  c_variables : number * number;
  c_entries : list Statistics.Autocorrelation
}.

Record HolisticAnalysis (ChangePoint Stats Insights : Type) : Type := {
  timeSeries : TimeSeries ChangePoint;
  statistics : Stats;
  domainInsights : option Insights;
  correlations : list Correlation;
  metadata : Metadata
}.

Arguments timeSeries {ChangePoint Stats Insights} _.
Arguments statistics {ChangePoint Stats Insights} _.
Arguments domainInsights {ChangePoint Stats Insights} _.
Arguments correlations {ChangePoint Stats Insights} _.
Arguments metadata {ChangePoint Stats Insights} _.

(** [assessPatternStrength(timeSeries)]. *)
Definition assessPatternStrength {CP} (ts : TimeSeries CP) : number :=
  let trendStrength := Lodash.mean (map Detectors.t_confidence (trends ts)) in
  let seasonalStrength := s_strength (seasonality ts) in
  let anomalyConfidence := Lodash.mean (map a_confidence (anomalies ts)) in
  div (add (add trendStrength seasonalStrength) anomalyConfidence) (Num 3).

(** [generateWindows()]: one window per
    [i = 0 .. data.length - contextWindow - 1]. *)
Definition generateWindows (this : PatternAnalyzer) : list Window :=
  map
    (fun i =>
       {| w_start := Array_get (timestamps this) i;
          w_end := Array_getZ (timestamps this) (Z.of_nat i + contextWindow this);
          w_data :=
            Array_slice (data this) (Z.of_nat i)
                        (Z.of_nat i + contextWindow this) |})
    (seq 0 (Z.to_nat (Z.of_nat (length (data this)) - contextWindow this))).

(** The parts of an analysis that the repository's files do not define
    (the detectors after [analyzeTrends], the statistics, the three domain
    analyses, the normality, stationarity and variance tests) or whose
    values are not rationals ([assessTimeliness], an exponential; the
    square root and the exponential of the significance).  Each of the
    calls may throw. *)
Record Parts (ChangePoint Stats Insights : Type) : Type := {
  Math_sqrt : number -> number;
  Math_exp : number -> number;
  analyzeTrends : list number -> Z -> Completion (list Detectors.Trend);
  analyzeSeasonality : list number -> Completion Seasonality;
  detectChangePoints : list number -> Completion (list ChangePoint);
  findAnomalies : list number -> Completion (list Anomaly);
  computeStatistics : PatternAnalyzer -> Completion Stats;
  analyzeFinancialData : list number -> list number -> Completion Insights;
  analyzeMedicalData : list number -> list number -> Completion Insights;
  analyzeEnvironmentalData : list number -> list number -> Completion Insights;
  assessTimeliness : PatternAnalyzer -> Completion number;
  testNormality : PatternAnalyzer -> Completion number;
  testStationarity : PatternAnalyzer -> Completion number;
  assessVarianceStability : PatternAnalyzer -> Completion number;
  skewness : Stats -> number;
  financialDailyVolatility : Insights -> option number
}.

Arguments Math_sqrt {ChangePoint Stats Insights} _.
Arguments Math_exp {ChangePoint Stats Insights} _.
Arguments analyzeTrends {ChangePoint Stats Insights} _.
Arguments analyzeSeasonality {ChangePoint Stats Insights} _.
Arguments detectChangePoints {ChangePoint Stats Insights} _.
Arguments findAnomalies {ChangePoint Stats Insights} _.
Arguments computeStatistics {ChangePoint Stats Insights} _.
Arguments analyzeFinancialData {ChangePoint Stats Insights} _.
Arguments analyzeMedicalData {ChangePoint Stats Insights} _.
Arguments analyzeEnvironmentalData {ChangePoint Stats Insights} _.
Arguments assessTimeliness {ChangePoint Stats Insights} _.
Arguments testNormality {ChangePoint Stats Insights} _.
Arguments testStationarity {ChangePoint Stats Insights} _.
Arguments assessVarianceStability {ChangePoint Stats Insights} _.
Arguments skewness {ChangePoint Stats Insights} _.
Arguments financialDailyVolatility {ChangePoint Stats Insights} _.

Section Facade.
Context {ChangePoint Stats Insights : Type}.
Variable parts : Parts ChangePoint Stats Insights.

Definition analyzeTimeSeries (this : PatternAnalyzer)
  : Completion (TimeSeries ChangePoint) :=
  tr ← analyzeTrends parts (data this) (contextWindow this);
  se ← analyzeSeasonality parts (data this);
  cp ← detectChangePoints parts (data this);
  an ← findAnomalies parts (data this);
  Return {| trends := tr; seasonality := se; changePoints := cp; anomalies := an |}.

(** [analyzeDomainSpecific()]: [null] ([None]) without a domain, an
    [INVALID_DOMAIN] error for a tag that is none of the three. *)
Definition analyzeDomainSpecific (this : PatternAnalyzer)
  : Completion (option Insights) :=
  match domain this with
  | None => Return None
  | Some d =>
      if String.eqb d "" then Return None
      else if String.eqb d "financial" then
        r ← analyzeFinancialData parts (data this) (timestamps this); Return (Some r)
      else if String.eqb d "medical" then
        r ← analyzeMedicalData parts (data this) (timestamps this); Return (Some r)
      else if String.eqb d "environmental" then
        r ← analyzeEnvironmentalData parts (data this) (timestamps this);
        Return (Some r)
      else Throw (AnalysisError "Invalid domain specified" INVALID_DOMAIN NoContext)
  end.

(** [analyzeCorrelations()].  [calculateAutocorrelation] returns an array,
    so [correlation.coefficient] is [undefined] and the comparison with
    [0.7] is that of [NaN]. *)
Definition analyzeCorrelations (this : PatternAnalyzer) : list Correlation :=
  flat_map
    (fun w =>
       let correlation :=
         Statistics.calculateAutocorrelation
           (Math_sqrt parts) (Math_exp parts) (w_data w) 20 in
       let coefficient_of_array := NaN in
       if gtb coefficient_of_array (Num (7 # 10))
       then [ {| c_variables := (w_start w, w_end w); c_entries := correlation |} ]
       else [])
    (generateWindows this).

(** [assessDataQuality()]: a number is never [null]. *)
Definition assessDataQuality (this : PatternAnalyzer) : Completion number :=
  let completeness :=
    sub one (div (of_nat (length (List.filter (fun _ => false) (data this))))
                 (of_nat (length (data this)))) in
  let validity :=
    if forallb (fun x => negb (isNaN x)) (data this) then one else zero in
  timeliness ← assessTimeliness parts this;
  Return (div (add (add completeness validity) timeliness) (Num 3)).

Definition assessStatisticalSignificance (this : PatternAnalyzer) (st : Stats)
  : Completion number :=
  normalityScore ← testNormality parts this;
  stationarityScore ← testStationarity parts this;
  varianceScore ← assessVarianceStability parts this;
  Return (div (add (add normalityScore stationarityScore) varianceScore) (Num 3)).

Definition calculateOverallConfidence (this : PatternAnalyzer)
    (ts : TimeSeries ChangePoint) (st : Stats) : Completion number :=
  dataQuality ← assessDataQuality this;
  let patternStrength := assessPatternStrength ts in
  statisticalSignificance ← assessStatisticalSignificance this st;
  Return (div (add (add dataQuality patternStrength) statisticalSignificance)
              (Num 3)).

Definition generateRecommendations (ts : TimeSeries ChangePoint) (st : Stats)
    (insights : option Insights) : list string :=
  (if existsb (fun t => gtb (Detectors.t_confidence t) (Num (8 # 10))) (trends ts)
   then ["Strong trends detected - consider trend-following strategies"%string]
   else [])
  ++ (if gtb (skewness parts st) one
      then ["Significant positive skew - data may need transformation"%string]
      else [])
  ++ (match insights with
      | Some ins =>
          match financialDailyVolatility parts ins with
          | Some v =>
              if gtb v (Num (2 # 10))
              then ["High volatility detected - implement risk management"%string]
              else []
          | None => []
          end
      | None => []
      end).

(** [analyzeHolistically()]: whatever is thrown inside the [try] is caught
    and rethrown as one [ANALYSIS_FAILED] error carrying it. *)
Definition analyzeHolistically (this : PatternAnalyzer)
  : Completion (HolisticAnalysis ChangePoint Stats Insights) :=
  try_catch
    (ts ← analyzeTimeSeries this;
     st ← computeStatistics parts this;
     di ← analyzeDomainSpecific this;
     let co := analyzeCorrelations this in
     conf ← calculateOverallConfidence this ts st;
     qual ← assessDataQuality this;
     let recs := generateRecommendations ts st di in
     Return
       {| timeSeries := ts;
          statistics := st;
          domainInsights := di;
          correlations := co;
          metadata :=
            {| m_confidence := conf; m_quality := qual;
               m_recommendations := recs |} |})
    (fun error => Throw (AnalysisError "Analysis failed" ANALYSIS_FAILED (ErrorContext error))).

End Facade.

End Analyzer.

(* ===================================================================== *)
(** ** experts/ultimate.ts: the analyzePatterns handler and its cache     *)
(* ===================================================================== *)

Module Handler.
Import Types.

(** Where a call of the handler stands.  The handler runs without
    interruption up to [await analyzer.analyzeHolistically()], where it is
    suspended, and from its resumption to its end. *)
Inductive Phase (Result : Type) : Type :=
| NotStarted
| Awaiting
| Finished (outcome : Completion Result).

Arguments NotStarted {Result}.
Arguments Awaiting {Result}.
Arguments Finished {Result} outcome.

Inductive Event : Type :=
| pattern_analysis_cache_hit
| pattern_analysis_error.

Section EventLoop.
(** A call, the string [JSON.stringify(call.data)] that is its cache key,
    and the result object the handler builds from the analysis of the call
    (or what the analysis throws). *)
Variables Call Result : Type.
Variable cacheKey : Call -> string.
Variable analyze : Call -> Completion Result.

(** The agent: the cache service, the calls in flight, the analyses
    started so far (by key, latest first) and the events tracked.  The
    cache is read as a map: the expiry of an entry after ten minutes and
    the eviction beyond a thousand entries are left out. *)
Record Agent : Type := {
  cache : gmap string Result;
  calls : list (Call * Phase Result);
  started : list string;
  events : list Event
}.

Definition initial (cs : list Call) : Agent :=
  {| cache := ∅; calls := map (fun c => (c, NotStarted)) cs;
     started := []; events := [] |}.

(** The event loop runs call [i] to its next suspension. *)
Definition step (i : nat) (s : Agent) : Agent :=
  match calls s !! i with
  | Some (c, NotStarted) =>
      match cache s !! cacheKey c with
      | Some cached =>
          {| cache := cache s;
             calls := <[i := (c, Finished (Return cached))]> (calls s);
             started := started s;
             events := pattern_analysis_cache_hit :: events s |}
      | None =>
          {| cache := cache s;
             calls := <[i := (c, Awaiting)]> (calls s);
             started := cacheKey c :: started s;
             events := events s |}
      end
  | Some (c, Awaiting) =>
      match analyze c with
      | Return result =>
          {| cache := <[cacheKey c := result]> (cache s);
             calls := <[i := (c, Finished (Return result))]> (calls s);
             started := started s;
             events := events s |}
      | Throw error =>
          {| cache := cache s;
             calls := <[i := (c, Finished (Throw error))]> (calls s);
             started := started s;
             events := pattern_analysis_error :: events s |}
      end
  | _ => s
  end.

(** A schedule: the calls the event loop resumes, in order. *)
Definition run (schedule : list nat) (s : Agent) : Agent :=
  fold_left (fun s i => step i s) schedule s.

(** The number of analyses started for a key. *)
Definition computations (k : string) (s : Agent) : nat :=
  length (List.filter (String.eqb k) (started s)).

End EventLoop.

Arguments cache {Call Result} _.
Arguments calls {Call Result} _.
Arguments started {Call Result} _.
Arguments events {Call Result} _.
Arguments initial {Call Result} cs.
Arguments step {Call Result} cacheKey analyze i s.
Arguments run {Call Result} cacheKey analyze schedule s.
Arguments computations {Call Result} k s.

(** A call of [analyzePatterns]: its data points and its options.  The
    cache key is [JSON.stringify(call.data)], whatever the options are;
    [stringify] stands for the serialization. *)
Record Request (Point Options : Type) : Type := {
  call_data : list Point;
  call_options : option Options
}.

Arguments call_data {Point Options} _.
Arguments call_options {Point Options} _.

Definition requestKey {Point Options : Type} (stringify : list Point -> string)
    (call : Request Point Options) : string :=
  stringify (call_data call).

End Handler.

(* ===================================================================== *)
(** ** The specification's formulas                                       *)
(* ===================================================================== *)

Module Spec.

(** The confidence of a cycle in the words of the specification:
    coefficient × coverage × (1 − |0.5 − period/n|), where the coverage
    period·⌊n/period⌋/n is the fraction of the series that whole periods
    fill. *)
Definition coverage (n p : nat) : Q :=
  inject_Z (Z.of_nat (p * (n / p))) / inject_Z (Z.of_nat n).

Definition cycle_confidence (n p : nat) (coefficient : JS.number) : JS.number :=
  JS.mul (JS.mul coefficient (JS.Num (coverage n p)))
         (JS.Num (1 - Qabs ((1 # 2) - inject_Z (Z.of_nat p) / inject_Z (Z.of_nat n)))).


(** The error of a decomposition at an index,
    |trend[i] + seasonal[i] + residuals[i] − data[i]|, and the tolerance
    1e-9 it is held to. *)
Definition reconstruction_error (dec : Ultimate.Decomposition)
    (d : list JS.number) (i : nat) : JS.number :=
  JS.Math_abs
    (JS.sub
       (JS.add (JS.add (JS.Array_get (Ultimate.trend dec) i)
                       (JS.Array_get (Ultimate.seasonal dec) i))
               (JS.Array_get (Ultimate.residuals dec) i))
       (JS.Array_get d i)).

Definition tolerance : JS.number := JS.Num (1 # 1000000000).

(** An unrecognized domain tag: a tag that is not empty and none of the
    three domains. *)
Definition unrecognized (tag : string) : Prop :=
  tag <> ""%string /\ tag <> "financial"%string /\ tag <> "medical"%string
  /\ tag <> "environmental"%string.

End Spec.

(* ===================================================================== *)
(** ** Stand-ins for the examples                                         *)
(* ===================================================================== *)

Module StandIns.
Import JS Types.

(** Stand-ins for the two functions of the trend analysis that the
    repository does not define: change points at 0, 3, 4 and 7, and a fit
    that is confident (0.9) on a segment of two points or more and not
    (0.2) on a shorter one. *)
Definition changePointsAt (_ : list number) : list Z := [0; 3; 4; 7]%Z.

Definition fitByLength (segment : list number) : Detectors.TrendFit :=
  {| Detectors.slope := Num 0;
     Detectors.confidence :=
       if (2 <=? length segment)%nat then Num (9 # 10) else Num (2 # 10) |}.

Definition eightPoints : list number :=
  [Num 1; Num 2; Num 3; Num 4; Num 5; Num 6; Num 7; Num 8].

(** Stand-ins for the parts of the facade that the repository does not
    define: every step returns, with nothing detected and scores of 1. *)
Definition quietParts : Analyzer.Parts unit unit unit :=
  {| Analyzer.Math_sqrt := fun x => x;
     Analyzer.Math_exp := fun x => x;
     Analyzer.analyzeTrends := fun _ _ => Return [];
     Analyzer.analyzeSeasonality :=
       fun _ => Return {| Analyzer.s_period := 1;
                          Analyzer.s_strength := Num 0;
                          Analyzer.s_components := [] |};
     Analyzer.detectChangePoints := fun _ => Return [];
     Analyzer.findAnomalies := fun _ => Return [];
     Analyzer.computeStatistics := fun _ => Return tt;
     Analyzer.analyzeFinancialData := fun _ _ => Return tt;
     Analyzer.analyzeMedicalData := fun _ _ => Return tt;
     Analyzer.analyzeEnvironmentalData := fun _ _ => Return tt;
     Analyzer.assessTimeliness := fun _ => Return (Num 1);
     Analyzer.testNormality := fun _ => Return (Num 1);
     Analyzer.testStationarity := fun _ => Return (Num 1);
     Analyzer.assessVarianceStability := fun _ => Return (Num 1);
     Analyzer.skewness := fun _ => Num 0;
     Analyzer.financialDailyVolatility := fun _ => None |}.

(** An analyzer of the constant series 5, 5, 5, 5 with the given domain. *)
Definition constantSeries (tag : option string) : Analyzer.PatternAnalyzer :=
  {| Analyzer.data := [Num 5; Num 5; Num 5; Num 5];
     Analyzer.timestamps := [Num 1; Num 2; Num 3; Num 4];
     Analyzer.domain := tag;
     Analyzer.contextWindow := 10 |}.

End StandIns.

(* ===================================================================== *)
(** ** Vocabulary of the properties                                       *)
(* ===================================================================== *)

Module Vocabulary.
Import JS Types.

(** A finite number between two bounds. *)
Definition within (lo hi : Q) (x : number) : Prop :=
  exists q, x = Num q /\ lo <= q <= hi.

(** A number that is [NaN] or zero. *)
Definition null (x : number) : Prop := x = NaN \/ exists q, x = Num q /\ q == 0.

(** The slice of the data that [computeLocalRegression] of
    analyzers/statistics.ts averages. *)
Definition slice_of (d : list number) (window : Z) (index : nat) : list number :=
  Array_slice d (Z.max 0 (Z.of_nat index - window / 2))
              (Z.min (Z.of_nat (length d)) (Z.of_nat index + window / 2 + 1)).

(** One round of the loop of [findPeaks] of analyzers/statistics.ts. *)
Definition peak_at (d : list number) (minProminence : number) (i : nat)
  : list Statistics.Peak :=
  if gtb (Array_get d i) (Array_get d (i - 1))
     && gtb (Array_get d i) (Array_get d (i + 1))
  then
    let prominence := Statistics.calculateProminence d i in
    if geb prominence minProminence
    then [ {| Statistics.p_index := i; Statistics.p_value := Array_get d i;
              Statistics.p_prominence := prominence |} ]
    else []
  else [].

(** The calls of the handler with the key [k] that have not looked the
    cache up yet. *)
Definition waiting {Call Result : Type} (cacheKey : Call -> string) (k : string)
    (cs : list (Call * Handler.Phase Result)) : nat :=
  length
    (List.filter
       (fun cp => String.eqb k (cacheKey (fst cp))
                  && match snd cp with Handler.NotStarted => true | _ => false end)
       cs).

(** What holds of the agent at every moment: the calls are those it was
    started with, what is cached under a key is what the analysis of one
    of them with that key returned, a call that returned a result
    returned that of a call with its key, and a call that threw threw
    the error of its own analysis. *)
Definition sound {Call Result : Type} (cacheKey : Call -> string)
    (analyze : Call -> Completion Result)
    (cs : list Call) (s : Handler.Agent Call Result) : Prop :=
  map fst (Handler.calls s) = cs
  /\ (forall k r, Handler.cache s !! k = Some r ->
        exists c, In c cs /\ cacheKey c = k /\ analyze c = Return r)
  /\ (forall i c r,
        Handler.calls s !! i = Some (c, Handler.Finished (Return r)) ->
        exists c', In c' cs /\ cacheKey c' = cacheKey c /\ analyze c' = Return r)
  /\ (forall i c e,
        Handler.calls s !! i = Some (c, Handler.Finished (Throw e)) ->
        analyze c = Throw e).

End Vocabulary.

(* ===================================================================== *)
(** * Properties                                                          *)
(* ===================================================================== *)

(** ** Numbers *)

Module NumberFacts.
Import JS.

Lemma same_refl x : same x x.
Proof. destruct x; simpl; auto with qarith. Qed.

Lemma same_sym x y : same x y -> same y x.
Proof. destruct x, y; simpl; auto with qarith. Qed.

Lemma same_trans x y z : same x y -> same y z -> same x z.
Proof.
  destruct x, y, z; simpl; try tauto.
  intros H1 H2. now rewrite H1.
Qed.

Lemma Qsign_eq a b : a == b -> Qsign a = Qsign b.
Proof. intros H. unfold Qsign. now rewrite H. Qed.

Lemma mul_same_r x y z : same y z -> same (mul x y) (mul x z).
Proof.
  destruct x, y, z; simpl; try tauto; intros H;
    try rewrite (Qsign_eq _ _ H); try apply same_refl.
  now rewrite H.
Qed.

Lemma mul_same_l x y z : same x y -> same (mul x z) (mul y z).
Proof.
  destruct x, y, z; simpl; try tauto; intros H;
    try rewrite (Qsign_eq _ _ H); try apply same_refl.
  now rewrite H.
Qed.

Lemma mul_NaN_r x : mul x NaN = NaN.
Proof. now destruct x. Qed.

Lemma add_NaN_r x : add x NaN = NaN.
Proof. now destruct x. Qed.

Lemma sub_NaN_r x : sub x NaN = NaN.
Proof. now destruct x. Qed.

Lemma div_NaN_r x : div x NaN = NaN.
Proof. now destruct x. Qed.

(** The sign of a difference is the order of its terms: the comparator
    [(a, b) => b - a] is positive exactly when [b > a]. *)
Lemma gtb_sub_zero x y : gtb (sub y x) zero = gtb y x.
Proof.
  destruct x as [a| | |], y as [b| | |]; simpl; try reflexivity.
  unfold gtb, ltb, zero. f_equal.
  destruct (Qle_bool (b + - a) 0) eqn:E1, (Qle_bool b a) eqn:E2; try reflexivity.
  - apply Qle_bool_iff in E1.
    assert (~ b <= a) by (intros H; apply Qle_bool_iff in H; congruence).
    lra.
  - apply Qle_bool_iff in E2.
    assert (~ b + - a <= 0) by (intros H; apply Qle_bool_iff in H; congruence).
    lra.
Qed.

Lemma ltb_leb x y : ltb x y = true -> leb x y = true.
Proof.
  destruct x as [a| | |], y as [b| | |]; simpl; try congruence.
  intros H. apply Qle_bool_iff.
  destruct (Qle_bool b a) eqn:E; [discriminate|].
  assert (~ b <= a) by (intros H'; apply Qle_bool_iff in H'; congruence).
  lra.
Qed.

(** On numbers the order is total. *)
Lemma not_ltb_leb x y :
  is_number x -> is_number y -> ltb x y = false -> leb y x = true.
Proof.
  unfold is_number.
  destruct x as [a| | |], y as [b| | |]; simpl; try congruence.
  intros _ _ H. now destruct (Qle_bool b a).
Qed.

Lemma leb_trans x y z : leb x y = true -> leb y z = true -> leb x z = true.
Proof.
  destruct x as [a| | |], y as [b| | |], z as [c| | |]; simpl; try congruence.
  rewrite !Qle_bool_iff. lra.
Qed.

Lemma ltb_is_number x y : ltb x y = true -> is_number x /\ is_number y.
Proof. destruct x, y; simpl; try congruence; now split. Qed.

End NumberFacts.

(** ** Arrays *)

Module ArrayFacts.
Import JS NumberFacts.

Lemma length_mapi_from {A B} (f : A -> nat -> B) k l :
  length (mapi_from f k l) = length l.
Proof. revert k. induction l as [|x l IH]; intros k; simpl; [|rewrite IH]; reflexivity. Qed.

Lemma length_Array_mapi {A B} (f : A -> nat -> B) l :
  length (Array_mapi f l) = length l.
Proof. apply length_mapi_from. Qed.

Lemma nth_error_mapi_from {A B} (f : A -> nat -> B) k l i :
  nth_error (mapi_from f k l) i = option_map (fun x => f x (k + i)%nat) (nth_error l i).
Proof.
  revert k i. induction l as [|x l IH]; intros k [|i]; simpl; try reflexivity.
  - now rewrite Nat.add_0_r.
  - rewrite IH. now replace (S k + i)%nat with (k + S i)%nat by lia.
Qed.

Lemma nth_error_Array_mapi {A B} (f : A -> nat -> B) l i :
  nth_error (Array_mapi f l) i = option_map (fun x => f x i) (nth_error l i).
Proof. unfold Array_mapi. now rewrite nth_error_mapi_from. Qed.

Lemma In_Array_mapi {A B} (f : A -> nat -> B) l y :
  In y (Array_mapi f l) ->
  exists i x, nth_error l i = Some x /\ y = f x i.
Proof.
  intros H. apply In_nth_error in H as [i Hi].
  rewrite nth_error_Array_mapi in Hi.
  destruct (nth_error l i) as [x|] eqn:E; [|discriminate].
  exists i, x. split; [assumption|]. simpl in Hi. congruence.
Qed.

Lemma Array_get_nth_error l i x :
  nth_error l i = Some x -> Array_get l i = x.
Proof. intros H. unfold Array_get. now apply nth_error_nth. Qed.

Lemma Array_get_mapi {A} (f : A -> nat -> number) l i x :
  nth_error l i = Some x -> Array_get (Array_mapi f l) i = f x i.
Proof.
  intros H. apply Array_get_nth_error.
  now rewrite nth_error_Array_mapi, H.
Qed.

(** *** Sorting *)

Lemma sort_insert_perm {A} (cmp : A -> A -> number) x l :
  Permutation (x :: l) (sort_insert cmp x l).
Proof.
  induction l as [|y l IH]; cbn [sort_insert]; [reflexivity|].
  destruct (gtb (cmp x y) zero); [|reflexivity].
  rewrite perm_swap. now constructor.
Qed.

Lemma Array_sort_perm {A} (cmp : A -> A -> number) l :
  Permutation l (Array_sort cmp l).
Proof.
  induction l as [|x l IH]; cbn [Array_sort]; [constructor|].
  rewrite <- sort_insert_perm. now constructor.
Qed.

Section Sorting.
Context {A : Type} (cmp : A -> A -> number) (R : A -> A -> Prop) (P : A -> Prop).
(** Where the comparator is not positive the first argument may stay in
    front; where it is positive the second one may go in front. *)
Hypothesis keep : forall x y, P x -> P y -> gtb (cmp x y) zero = false -> R x y.
Hypothesis swap : forall x y, P x -> P y -> gtb (cmp x y) zero = true -> R y x.

Lemma sort_insert_sorted x l :
  P x -> Forall P l -> Sorted R l -> Sorted R (sort_insert cmp x l).
Proof.
  intros Px Pl Hs. induction l as [|y l IH]; cbn [sort_insert].
  - repeat constructor.
  - inversion Pl as [|? ? Py Pl']; subst.
    destruct (gtb (cmp x y) zero) eqn:E.
    + apply Sorted_inv in Hs as [Hs Hd].
      constructor; [now apply IH|].
      destruct l as [|z l]; cbn [sort_insert].
      * constructor. now apply swap.
      * destruct (gtb (cmp x z) zero); constructor.
        -- now apply HdRel_inv in Hd.
        -- now apply swap.
    + constructor; [assumption|]. constructor. now apply keep.
Qed.

Lemma Array_sort_sorted l : Forall P l -> Sorted R (Array_sort cmp l).
Proof.
  induction l as [|x l IH]; intros Pl; cbn [Array_sort]; [constructor|].
  inversion Pl; subst.
  apply sort_insert_sorted; auto.
  eapply Permutation_Forall; [apply Array_sort_perm|assumption].
Qed.

End Sorting.

End ArrayFacts.

(** ** The periodicity detector of the expert *)

Module PeriodicityFacts.
Import JS NumberFacts ArrayFacts Ultimate.

Lemma length_computeAutocorrelation this maxLag :
  length (computeAutocorrelation this maxLag) = maxLag.
Proof.
  unfold computeAutocorrelation, Lodash.range.
  rewrite length_map, length_seq. lia.
Qed.

(** A peak sits at an inner position of the curve and is above both of
    its neighbours. *)
Lemma findPeaks_In d pt :
  In pt (findPeaks d) ->
  exists i,
    nth_error d i = Some (pvalue pt) /\ index pt = (i + 1)%nat /\
    (0 < i)%nat /\ (i < length d - 1)%nat /\
    gtb (pvalue pt) (Array_get d (i - 1)) = true /\
    gtb (pvalue pt) (Array_get d (i + 1)) = true.
Proof.
  unfold findPeaks. intros H.
  apply filter_In in H as [H Hpeak].
  apply In_Array_mapi in H as (i & v & Hv & ->).
  cbn [isPeak index pvalue] in *.
  apply andb_prop in Hpeak as [Hpeak H4].
  apply andb_prop in Hpeak as [Hpeak H3].
  apply andb_prop in Hpeak as [H1 H2].
  apply Nat.ltb_lt in H1, H2.
  exists i. repeat split; assumption.
Qed.

Lemma detectPeriodicity_In this c :
  In c (detectPeriodicity this) ->
  exists pt,
    In pt (findPeaks (computeAutocorrelation this (length (data this) / 3))) /\
    c = {| period := index pt; strength := pvalue pt;
           confidence := assessPeriodConfidence this (index pt) (pvalue pt) |}.
Proof.
  unfold detectPeriodicity. intros H.
  eapply Permutation_in in H; [|symmetry; apply Array_sort_perm].
  apply in_map_iff in H as (pt & <- & Hpt). now exists pt.
Qed.

(** The period of a reported cycle and the lag it was found at. *)
Lemma detectPeriodicity_period this c :
  In c (detectPeriodicity this) ->
  (2 <= period c <= length (data this) / 3 - 1)%nat /\
  nth_error (computeAutocorrelation this (length (data this) / 3)) (period c - 1)
    = Some (strength c) /\
  is_number (strength c) /\
  confidence c = assessPeriodConfidence this (period c) (strength c).
Proof.
  intros H. apply detectPeriodicity_In in H as (pt & Hpt & ->).
  apply findPeaks_In in Hpt as (i & Hv & Hi & H1 & H2 & H3 & _).
  rewrite length_computeAutocorrelation in H2.
  cbn [period strength confidence]. rewrite Hi.
  replace (i + 1 - 1)%nat with i by lia.
  repeat split; try lia; try assumption.
  unfold gtb in H3. now apply ltb_is_number in H3.
Qed.

Lemma Qfloor_div_nat (a b : nat) :
  (0 < b)%nat ->
  Qfloor (inject_Z (Z.of_nat a) / inject_Z (Z.of_nat b)) = Z.of_nat (a / b).
Proof.
  intros Hb. rewrite Nat2Z.inj_div.
  destruct b as [|b]; [lia|].
  unfold Qdiv, Qinv, inject_Z, Qmult, Qfloor. cbn [Qnum Qden Z.of_nat].
  rewrite Z.mul_1_r. reflexivity.
Qed.

Lemma of_nat_nonzero n : (0 < n)%nat -> Qeq_bool (inject_Z (Z.of_nat n)) 0 = false.
Proof.
  intros H. destruct (Qeq_bool _ 0) eqn:E; [|reflexivity].
  apply Qeq_bool_eq in E. unfold Qeq in E. simpl in E. lia.
Qed.

(** The confidence the code computes is the confidence of the
    specification. *)
Lemma assessPeriodConfidence_spec this p s :
  (0 < p)%nat -> (0 < length (data this))%nat ->
  same (assessPeriodConfidence this p s)
       (Spec.cycle_confidence (length (data this)) p s).
Proof.
  intros Hp Hn. unfold assessPeriodConfidence, Spec.cycle_confidence, of_nat.
  set (n := length (data this)) in *.
  cbn [div Math_floor mul sub add neg Math_abs one].
  rewrite !of_nat_nonzero by assumption. cbn [div Math_floor mul sub add neg Math_abs one].
  rewrite Qfloor_div_nat by assumption.
  eapply same_trans; [apply mul_same_l, mul_same_r|apply mul_same_r].
  - rewrite of_nat_nonzero by assumption. cbn [same]. unfold Spec.coverage.
    rewrite Nat2Z.inj_mul, inject_Z_mult. reflexivity.
  - cbn [same]. unfold Qminus. reflexivity.
Qed.

End PeriodicityFacts.

(** ** Properties of the periodicity detector *)

Module Periodicity.
Import JS NumberFacts ArrayFacts Ultimate PeriodicityFacts.

(** C10. Every cycle that [detectPeriodicity] reports on a series of
    length [n] has a period between 2 and ⌊n/3⌋ − 1: a peak of a curve is
    never at its first or at its last position, so neither lag 1 nor lag
    ⌊n/3⌋ is ever reported. *)
Theorem detectPeriodicity_period_bounds (this : PatternAnalyzer) :
  Forall (fun c => (2 <= period c <= length (data this) / 3 - 1)%nat)
         (detectPeriodicity this)
  /\ forall curve : list number,
       Forall (fun pt => (1 < index pt < length curve)%nat) (findPeaks curve).
Proof.
  split.
  - apply List.Forall_forall. intros c Hc.
    now apply detectPeriodicity_period in Hc as [Hc _].
  - intros curve. apply List.Forall_forall. intros pt Hpt.
    apply findPeaks_In in Hpt as (i & _ & -> & H1 & H2 & _). lia.
Qed.

(** C6. The cycles that [detectPeriodicity] returns are in descending
    order of strength; the strength of a cycle is the autocorrelation
    coefficient at the lag that is its period, and its confidence is
    coefficient × coverage × (1 − |0.5 − period/n|) with coverage
    period·⌊n/period⌋/n. *)
Theorem detectPeriodicity_sorted_by_strength (this : PatternAnalyzer) :
  Sorted (fun a b => geb (strength a) (strength b) = true) (detectPeriodicity this)
  /\ Forall
       (fun c =>
          nth_error (computeAutocorrelation this (length (data this) / 3))
                    (period c - 1) = Some (strength c)
          /\ same (confidence c)
                  (Spec.cycle_confidence (length (data this)) (period c) (strength c)))
       (detectPeriodicity this).
Proof.
  split.
  - unfold detectPeriodicity.
    apply Array_sort_sorted with (P := fun c => is_number (strength c)).
    + intros x y Hx Hy H. rewrite gtb_sub_zero in H.
      unfold geb. now apply not_ltb_leb.
    + intros x y Hx Hy H. rewrite gtb_sub_zero in H.
      unfold geb. now apply ltb_leb.
    + apply List.Forall_forall. intros c Hc.
      apply in_map_iff in Hc as (pt & <- & Hpt). cbn [strength].
      apply findPeaks_In in Hpt as (i & _ & _ & _ & _ & H & _).
      unfold gtb in H. now apply ltb_is_number in H.
  - apply List.Forall_forall. intros c Hc.
    apply detectPeriodicity_period in Hc as (Hp & Hs & _ & ->).
    split; [assumption|].
    apply assessPeriodConfidence_spec; [lia|].
    destruct (length (data this)) as [|n]; [simpl in Hp|]; lia.
Qed.

End Periodicity.

(** ** The decomposition of the expert *)

Module DecompositionFacts.
Import JS NumberFacts ArrayFacts Ultimate PeriodicityFacts.

Lemma Qeq_bool_false_pos q : 0 < q -> Qeq_bool q 0 = false.
Proof.
  intros H. destruct (Qeq_bool q 0) eqn:E; [|reflexivity].
  apply Qeq_bool_eq in E. lra.
Qed.

Lemma Qle_bool_false a b : Qle_bool a b = false -> b < a.
Proof.
  intros H. apply Qnot_le_lt. intros H'.
  apply Qle_bool_iff in H'. congruence.
Qed.

Lemma Qcube_nonneg b : 0 <= b -> 0 <= b * b * b.
Proof. intros H. repeat apply Qmult_le_0_compat; assumption. Qed.

(** The tricube weight of a position at or after the start of the window
    is a finite number that is not negative, and it is 1 at the start. *)
Lemma tricubeWeight_nonneg q : nonneg (tricubeWeight (Num q)).
Proof.
  unfold tricubeWeight, nonneg. cbn [Math_abs geb leb one].
  destruct (Qle_bool 1 (Qabs q)) eqn:E.
  - exists 0. split; [reflexivity|lra].
  - apply Qle_bool_false in E.
    cbn [Math_pow3 mul sub add neg one].
    eexists. split; [reflexivity|].
    pose proof (Qabs_nonneg q) as Ha.
    apply Qcube_nonneg.
    assert (Qabs q * Qabs q * Qabs q <= 1); [|lra].
    assert (Qabs q * Qabs q <= 1) by nra. nra.
Qed.

Lemma tricubeWeight_start q : q == 0 -> exists w, tricubeWeight (Num q) = Num w /\ w == 1.
Proof.
  intros Hq. unfold tricubeWeight. cbn [Math_abs geb leb one].
  assert (Ha : Qabs q == 0) by (rewrite Hq; reflexivity).
  destruct (Qle_bool 1 (Qabs q)) eqn:E.
  - apply Qle_bool_iff in E. lra.
  - cbn [Math_pow3 mul sub add neg one]. eexists. split; [reflexivity|].
    rewrite Ha. reflexivity.
Qed.

(** Sums of finite numbers. *)
Lemma fold_add_finite l a :
  Forall finite l -> exists s, fold_left add l (Num a) = Num s.
Proof.
  revert a. induction l as [|x l IH]; intros a Hl; simpl; [eauto|].
  inversion Hl as [|? ? [q ->] Hl']; subst. simpl. now apply IH.
Qed.

Lemma fold_add_nonneg l a :
  Forall nonneg l -> exists s, fold_left add l (Num a) = Num s /\ a <= s.
Proof.
  revert a. induction l as [|x l IH]; intros a Hl; simpl.
  - exists a. split; [reflexivity|lra].
  - inversion Hl as [|? ? (w & -> & Hw) Hl']; subst. simpl.
    destruct (IH (a + w) Hl') as (s & -> & Hs).
    exists s. split; [reflexivity|lra].
Qed.

Lemma sum_finite l : Forall finite l -> finite (Lodash.sum l).
Proof.
  destruct l as [|x l]; intros Hl; [now exists 0|].
  inversion Hl as [|? ? [q ->] Hl']; subst.
  apply fold_add_finite; assumption.
Qed.

Lemma mean_finite l : l <> [] -> Forall finite l -> finite (Lodash.mean l).
Proof.
  intros Hne Hl. destruct l as [|x l]; [congruence|].
  unfold Lodash.mean. destruct (sum_finite _ Hl) as [s ->].
  unfold of_nat. cbn [div].
  rewrite Qeq_bool_false_pos; [eexists; reflexivity|].
  cbn [length]. unfold Qlt. simpl. lia.
Qed.

Lemma Forall_mapi_from {A B} (f : A -> nat -> B) (P : B -> Prop) k l :
  (forall x i, In x l -> P (f x i)) -> Forall P (mapi_from f k l).
Proof.
  revert k. induction l as [|x l IH]; intros k H; simpl; constructor.
  - apply H. now left.
  - apply IH. intros y i Hy. apply H. now right.
Qed.

Lemma Forall_filteri_from {A} (p : A -> nat -> bool) (P : A -> Prop) k l :
  Forall P l -> Forall P (filteri_from p k l).
Proof.
  revert k. induction l as [|x l IH]; intros k H; simpl; [constructor|].
  inversion H; subst. destruct (p x k); [constructor|]; auto.
Qed.

Lemma filteri_from_nonempty {A} (p : A -> nat -> bool) k l i x :
  nth_error l i = Some x -> p x (k + i)%nat = true -> filteri_from p k l <> [].
Proof.
  revert k i. induction l as [|y l IH]; intros k [|i]; simpl; try discriminate.
  - intros [= ->]. rewrite Nat.add_0_r. now intros ->.
  - intros Hi Hp. destruct (p y k); [discriminate|].
    apply (IH (S k) i); [assumption|].
    now replace (S k + i)%nat with (k + S i)%nat by lia.
Qed.

Lemma Forall_Array_slice {A} (P : A -> Prop) l start stop :
  Forall P l -> Forall P (Array_slice l start stop).
Proof. intros H. unfold Array_slice. now apply Forall_take, Forall_drop. Qed.

(** The local window of a position inside the series is not empty when
    the context window is positive. *)
Lemma getLocalWindow_slice_nonempty (d : list number) (cw : Z) (i : nat) :
  (0 < cw)%Z -> (i < length d)%nat ->
  Array_slice d (Z.max 0 (Z.of_nat i - cw))
              (Z.min (Z.of_nat (length d)) (Z.of_nat i + cw + 1)) <> [].
Proof.
  intros Hcw Hi. unfold Array_slice, relative_index.
  destruct (Z.ltb_spec (Z.max 0 (Z.of_nat i - cw)) 0); [lia|].
  destruct (Z.ltb_spec (Z.min (Z.of_nat (length d)) (Z.of_nat i + cw + 1)) 0); [lia|].
  intros E. apply (f_equal (@length _)) in E.
  rewrite length_firstn, length_skipn in E. simpl in E. lia.
Qed.

Lemma weights_of_window (cw : Z) :
  (0 < cw)%Z ->
  forall wf : nat -> number,
    wf = (fun j : nat => tricubeWeight (div (of_nat j) (of_Z cw))) ->
    (forall j, nonneg (wf j)) /\ exists w0, wf 0%nat = Num w0 /\ w0 == 1.
Proof.
  intros Hcw wf ->. unfold of_nat, of_Z. cbn [div].
  rewrite Qeq_bool_false_pos by (unfold Qlt; simpl; lia).
  split.
  - intros j. apply tricubeWeight_nonneg.
  - apply tricubeWeight_start. simpl. unfold Qdiv. rewrite Qmult_0_l. reflexivity.
Qed.

Lemma computeLocalRegression_finite this i :
  (0 < contextWindow this)%Z -> (i < length (data this))%nat ->
  Forall finite (data this) ->
  finite (computeLocalRegression (getLocalWindow this i)).
Proof.
  intros Hcw Hi Hd. unfold getLocalWindow.
  pose proof (getLocalWindow_slice_nonempty _ _ _ Hcw Hi) as Hne.
  pose proof (Forall_Array_slice finite (data this)
                (Z.max 0 (Z.of_nat i - contextWindow this))
                (Z.min (Z.of_nat (length (data this)))
                       (Z.of_nat i + contextWindow this + 1)) Hd) as Hs.
  set (wf := fun j : nat =>
               tricubeWeight (div (of_nat j) (of_Z (contextWindow this)))).
  destruct (weights_of_window _ Hcw wf eq_refl) as (Hw & w0 & Hw0 & Hw01).
  change (finite (computeLocalRegression
                    (Array_mapi (fun v j => {| value := v; weight := wf j |})
                       (Array_slice (data this)
                          (Z.max 0 (Z.of_nat i - contextWindow this))
                          (Z.min (Z.of_nat (length (data this)))
                                 (Z.of_nat i + contextWindow this + 1)))))).
  clearbody wf.
  destruct (Array_slice _ _ _) as [|v0 rest]; [congruence|].
  inversion Hs as [|? ? [q0 ->] Hrest]; subst.
  unfold computeLocalRegression, Lodash.sumBy, Array_mapi.
  cbn [mapi_from map value weight Lodash.sum].
  rewrite Hw0. cbn [mul].
  destruct (fold_add_finite
              (map (fun w => mul (value w) (weight w))
                   (mapi_from (fun v j => {| value := v; weight := wf j |}) 1 rest))
              (q0 * w0)) as [a ->].
  { apply Forall_map. apply Forall_mapi_from. intros x j Hx. cbn [value weight].
    destruct (proj1 (List.Forall_forall finite rest) Hrest x Hx) as [q ->].
    destruct (Hw j) as (w & -> & _). cbn [mul]. eexists; reflexivity. }
  destruct (fold_add_nonneg
              (map weight
                   (mapi_from (fun v j => {| value := v; weight := wf j |}) 1 rest))
              w0) as (s & -> & Hs0).
  { apply Forall_map. apply Forall_mapi_from. intros x j Hx. cbn [weight]. apply Hw. }
  cbn [div]. rewrite Qeq_bool_false_pos by lra. eexists; reflexivity.
Qed.

Lemma computeRobustTrend_finite this i :
  (0 < contextWindow this)%Z -> (i < length (data this))%nat ->
  Forall finite (data this) ->
  finite (Array_get (computeRobustTrend this) i).
Proof.
  intros Hcw Hi Hd. unfold computeRobustTrend.
  destruct (nth_error (data this) i) as [x|] eqn:E.
  - rewrite (Array_get_mapi _ _ _ _ E). now apply computeLocalRegression_finite.
  - apply nth_error_None in E. lia.
Qed.

Lemma extractSeasonalComponent_finite this i :
  (i < length (data this))%nat -> Forall finite (data this) ->
  finite (Array_get (extractSeasonalComponent this) i).
Proof.
  intros Hi Hd. unfold extractSeasonalComponent.
  destruct (detectPeriodicity this) as [|first rest] eqn:E.
  - rewrite (Array_get_nth_error _ _ zero); [now exists 0|].
    now apply nth_error_repeat.
  - assert (Hp : (2 <= period first <= length (data this) / 3 - 1)%nat).
    { apply detectPeriodicity_period. rewrite E. now left. }
    set (p := period first) in *.
    destruct (nth_error (data this) i) as [x|] eqn:Ex;
      [|apply nth_error_None in Ex; lia].
    rewrite (Array_get_mapi _ _ _ _ Ex).
    assert (Hlt : (i mod p < p)%nat) by (apply Nat.mod_upper_bound; lia).
    rewrite (Array_get_mapi _ _ _ zero) by now apply nth_error_repeat.
    apply mean_finite.
    + unfold Array_filteri. apply (filteri_from_nonempty _ 0 _ i x Ex).
      apply Nat.eqb_refl.
    + now apply Forall_filteri_from.
Qed.

Lemma length_extractSeasonalComponent this :
  length (extractSeasonalComponent this) = length (data this).
Proof.
  unfold extractSeasonalComponent.
  destruct (detectPeriodicity this); [apply repeat_length|apply length_Array_mapi].
Qed.

(** At an index of a finite series the trend, the seasonal component and
    the residual are finite, and the error of the reconstruction is the
    absolute value of a rational that is zero. *)
Lemma reconstruction_error_exact this i :
  (0 < contextWindow this)%Z -> (i < length (data this))%nat ->
  Forall finite (data this) ->
  exists e, Spec.reconstruction_error (decomposeSeries this) (data this) i = Num e
            /\ e == 0.
Proof.
  intros Hcw Hi Hd.
  unfold Spec.reconstruction_error, decomposeSeries.
  cbn [trend seasonal residuals].
  destruct (computeRobustTrend_finite this i Hcw Hi Hd) as [t Ht].
  destruct (extractSeasonalComponent_finite this i Hi Hd) as [s Hs].
  destruct (proj1 (List.Forall_forall finite (data this)) Hd
              (Array_get (data this) i)) as [x Hx];
    [now apply nth_In|].
  assert (Ex : nth_error (data this) i = Some (Num x)).
  { rewrite <- Hx. unfold Array_get. now apply nth_error_nth'. }
  unfold computeResiduals. rewrite (Array_get_mapi _ _ _ _ Ex), Ht, Hs, Hx.
  cbn [add sub neg Math_abs]. eexists. split; [reflexivity|].
  assert (E0 : t + s + (x + - t + - s) + - x == 0) by ring.
  rewrite E0. reflexivity.
Qed.

End DecompositionFacts.

(** ** Properties of the decomposition *)

Module Decomposition.
Import JS NumberFacts ArrayFacts Ultimate DecompositionFacts.


End Decomposition.

Module DecompositionExamples.
Import JS NumberFacts Ultimate.



End DecompositionExamples.

(** ** Value at risk *)

Module ValueAtRiskFacts.
Import JS NumberFacts ArrayFacts DecompositionFacts Ultimate.

Lemma compareAscending_keep x y :
  is_number x -> is_number y ->
  gtb (Lodash.compareAscending x y) zero = false -> leb x y = true.
Proof.
  unfold Lodash.compareAscending, is_number. intros Hx Hy.
  rewrite Hx, Hy, !orb_false_r.
  destruct (gtb x y) eqn:E; [discriminate|]. intros _.
  unfold gtb in E. now apply not_ltb_leb.
Qed.

Lemma compareAscending_swap x y :
  is_number x -> is_number y ->
  gtb (Lodash.compareAscending x y) zero = true -> leb y x = true.
Proof.
  unfold Lodash.compareAscending, is_number. intros Hx Hy.
  rewrite Hx, Hy, !orb_false_r.
  destruct (gtb x y) eqn:E.
  - intros _. unfold gtb in E. now apply ltb_leb.
  - destruct (ltb x y); discriminate.
Qed.

(** [_.sortBy] puts numbers in ascending order. *)
Lemma sortBy_sorted l :
  Forall is_number l -> Sorted (fun x y => leb x y = true) (Lodash.sortBy l).
Proof.
  apply Array_sort_sorted.
  - apply compareAscending_keep.
  - apply compareAscending_swap.
Qed.

Lemma leb_refl x : is_number x -> leb x x = true.
Proof.
  unfold is_number. destruct x; simpl; try congruence.
  intros _. apply Qle_bool_iff. lra.
Qed.

(** In a sorted array an earlier element is below a later one. *)
Lemma sorted_nth_error l i j x y :
  Sorted (fun x y => leb x y = true) l -> Forall is_number l ->
  (i <= j)%nat -> nth_error l i = Some x -> nth_error l j = Some y ->
  leb x y = true.
Proof.
  intros Hs Hn. apply Sorted_StronglySorted in Hs;
    [|intros a b c; apply leb_trans].
  revert i j. induction Hs as [|a l Hs IH Ha]; intros i j Hij Hi Hj.
  - destruct i; discriminate.
  - inversion Hn; subst. destruct i as [|i], j as [|j]; simpl in *; try lia.
    + injection Hi as <-. injection Hj as <-. now apply leb_refl.
    + injection Hi as <-. apply nth_error_In in Hj.
      now apply (proj1 (List.Forall_forall _ _) Ha).
    + apply (IH H2 i j); [lia|assumption..].
Qed.

(** The index [Math.floor((1 - confidence) * length)] read from an array. *)
Lemma Array_at_floor {A} (l : list A) (q : Q) :
  0 <= q ->
  Array_at l (Math_floor (Num q)) = nth_error l (Z.to_nat (Qfloor q)).
Proof.
  intros Hq. cbn [Math_floor Array_at].
  rewrite Qfloor_Z.
  assert (0 <= Qfloor q)%Z.
  { change 0%Z with (Qfloor 0). now apply Qfloor_resp_le. }
  replace (0 <=? Qfloor q)%Z with true by (symmetry; now apply Z.leb_le).
  replace (Qeq_bool (inject_Z (Qfloor q)) (inject_Z (Qfloor q))) with true
    by (symmetry; apply Qeq_bool_iff; reflexivity).
  reflexivity.
Qed.

Lemma floor_fraction_lt (c : Q) (n : nat) :
  0 <= c -> c < 1 -> (0 < n)%nat ->
  (Z.to_nat (Qfloor (c * inject_Z (Z.of_nat n))) < n)%nat.
Proof.
  intros H0 H1 Hn.
  assert (Hpos : 0 < inject_Z (Z.of_nat n)) by (unfold Qlt; simpl; lia).
  assert (Hlt : c * inject_Z (Z.of_nat n) < inject_Z (Z.of_nat n)) by nra.
  pose proof (Qfloor_le (c * inject_Z (Z.of_nat n))) as Hfl.
  assert (Hz : inject_Z (Qfloor (c * inject_Z (Z.of_nat n))) < inject_Z (Z.of_nat n))
    by lra.
  rewrite <- Zlt_Qlt in Hz.
  assert (0 <= Qfloor (c * inject_Z (Z.of_nat n)))%Z.
  { change 0%Z with (Qfloor 0). apply Qfloor_resp_le. nra. }
  lia.
Qed.

(** In a list of numbers that is not empty, the element of the sorted list
    at the index ⌊0.01·n⌋ is at most the one at the index ⌊0.05·n⌋, and
    both exist. *)
Lemma quantiles_ordered (returns : list number) :
  returns <> [] -> Forall is_number returns ->
  exists v99 v95,
    Array_at (Lodash.sortBy returns)
             (Math_floor (mul (sub one (Num (99 # 100))) (of_nat (length returns))))
    = Some v99
    /\ Array_at (Lodash.sortBy returns)
                (Math_floor (mul (sub one (Num (95 # 100))) (of_nat (length returns))))
       = Some v95
    /\ leb v99 v95 = true.
Proof.
  intros Hne Hnum.
  set (n := length returns).
  assert (Hn : (0 < n)%nat).
  { subst n. destruct returns; [congruence|simpl; lia]. }
  assert (Hperm : Permutation returns (Lodash.sortBy returns))
    by apply Array_sort_perm.
  assert (Hlen : length (Lodash.sortBy returns) = n)
    by (symmetry; now apply Permutation_length).
  assert (Hsnum : Forall is_number (Lodash.sortBy returns))
    by (eapply Permutation_Forall; eassumption).
  unfold of_nat. cbn [sub add neg mul one].
  assert (Hpos : 0 <= inject_Z (Z.of_nat n)) by (unfold Qle; simpl; lia).
  rewrite !Array_at_floor by nra.
  set (i99 := Z.to_nat (Qfloor ((1 + - (99 # 100)) * inject_Z (Z.of_nat n)))).
  set (i95 := Z.to_nat (Qfloor ((1 + - (95 # 100)) * inject_Z (Z.of_nat n)))).
  assert (H95 : (i95 < n)%nat) by (apply floor_fraction_lt; [lra|lra|assumption]).
  assert (Hle : (i99 <= i95)%nat).
  { subst i99 i95. apply Z2Nat.inj_le.
    - change 0%Z with (Qfloor 0). apply Qfloor_resp_le. nra.
    - change 0%Z with (Qfloor 0). apply Qfloor_resp_le. nra.
    - apply Qfloor_resp_le. nra. }
  destruct (nth_error (Lodash.sortBy returns) i99) as [v99|] eqn:E99;
    [|apply nth_error_None in E99; lia].
  destruct (nth_error (Lodash.sortBy returns) i95) as [v95|] eqn:E95;
    [|apply nth_error_None in E95; lia].
  exists v99, v95. repeat split.
  apply (sorted_nth_error (Lodash.sortBy returns) i99 i95);
    auto using sortBy_sorted.
Qed.

Lemma length_Array_slice_tail {A} (l : list A) :
  length (Array_slice l 1 (Z.of_nat (length l))) = (length l - 1)%nat.
Proof.
  unfold Array_slice, relative_index.
  destruct (Z.ltb_spec 1 0); [lia|].
  destruct (Z.ltb_spec (Z.of_nat (length l)) 0); [lia|].
  rewrite length_firstn, length_skipn. lia.
Qed.

Lemma length_calculateReturns ln this :
  length (calculateReturns ln this) = (length (data this) - 1)%nat.
Proof.
  unfold calculateReturns. now rewrite length_Array_mapi, length_Array_slice_tail.
Qed.

(** The returns of positive prices are numbers. *)
Lemma calculateReturns_positive ln this :
  Forall positive (data this) -> Forall is_number (calculateReturns ln this).
Proof.
  intros Hd. unfold calculateReturns.
  apply List.Forall_forall. intros y Hy.
  apply In_Array_mapi in Hy as (i & v & Hv & ->).
  assert (Hi : (i < length (data this) - 1)%nat).
  { rewrite <- length_Array_slice_tail. apply nth_error_Some. congruence. }
  assert (Hvp : positive v).
  { apply nth_error_In in Hv.
    assert (Hs : Forall positive
                   (Array_slice (data this) 1 (Z.of_nat (length (data this)))))
      by now apply Forall_Array_slice.
    exact (proj1 (List.Forall_forall _ _) Hs v Hv). }
  assert (Hpp : positive (Array_get (data this) i)).
  { apply (proj1 (List.Forall_forall _ _) Hd). apply nth_In. lia. }
  destruct Hvp as (q & -> & Hq), Hpp as (p & -> & Hp).
  cbn [div]. rewrite Qeq_bool_false_pos by assumption.
  cbn [Math_log]. unfold Qsign.
  assert (Hqp : 0 < q / p) by (apply Qlt_shift_div_l; lra).
  apply Qgt_alt in Hqp. rewrite Hqp. reflexivity.
Qed.

End ValueAtRiskFacts.

Module ValueAtRisk.
Import JS NumberFacts ArrayFacts Ultimate ValueAtRiskFacts.

(** C5, as it holds.  For a series with at least one return and no return
    that is NaN, both values at risk are defined and
    calculateValueAtRisk(0.99) <= calculateValueAtRisk(0.95). *)
Theorem calculateValueAtRisk_monotone (ln : Q -> Q) (this : PatternAnalyzer) :
  calculateReturns ln this <> [] ->
  Forall is_number (calculateReturns ln this) ->
  exists v99 v95,
    calculateValueAtRisk ln this (Num (99 # 100)) = Some v99
    /\ calculateValueAtRisk ln this (Num (95 # 100)) = Some v95
    /\ leb v99 v95 = true.
Proof.
  intros Hne Hnum. unfold calculateValueAtRisk.
  now apply quantiles_ordered.
Qed.

(** The theorem at the prices 100, 110, 99, 121 (with the identity in the
    place of the logarithm). *)
Lemma calculateValueAtRisk_monotone_witness :
  exists v99 v95,
    calculateValueAtRisk (fun q => q)
      (constructor [Num 100; Num 110; Num 99; Num 121] [Num 1; Num 2; Num 3; Num 4]
                   {| opt_domain := Some "financial"%string; opt_contextWindow := None |})
      (Num (99 # 100)) = Some v99
    /\ calculateValueAtRisk (fun q => q)
      (constructor [Num 100; Num 110; Num 99; Num 121] [Num 1; Num 2; Num 3; Num 4]
                   {| opt_domain := Some "financial"%string; opt_contextWindow := None |})
      (Num (95 # 100)) = Some v95
    /\ leb v99 v95 = true.
Proof.
  apply calculateValueAtRisk_monotone.
  - vm_compute. discriminate.
  - vm_compute. repeat constructor.
Defined.

(** C5 fails on the series 1, −1, 1: both returns are the logarithm of −1,
    which is NaN whatever the logarithm is elsewhere, both values at risk
    are NaN, and NaN <= NaN is false. *)
Lemma calculateValueAtRisk_NaN_returns :
  (forall ln : Q -> Q,
     let this :=
       constructor [Num 1; Num (-1); Num 1] [Num 1; Num 2; Num 3]
                   {| opt_domain := Some "financial"%string; opt_contextWindow := None |} in
     calculateReturns ln this = [NaN; NaN]
     /\ calculateValueAtRisk ln this (Num (99 # 100)) = Some NaN
     /\ calculateValueAtRisk ln this (Num (95 # 100)) = Some NaN)
  /\ leb NaN NaN = false.
Proof. split; [intros ln; repeat split|reflexivity]. Qed.

End ValueAtRisk.

(** ** Autocorrelation of a series without variance *)

Module AutocorrelationFacts.
Import JS NumberFacts ArrayFacts DecompositionFacts.

Lemma add_finite_inv x y : finite (add x y) -> finite x /\ finite y.
Proof.
  destruct x, y; simpl; intros [? ?]; try discriminate; split; eexists; reflexivity.
Qed.

Lemma sub_finite_inv x y : finite (sub x y) -> finite x /\ finite y.
Proof.
  destruct x, y; simpl; intros [? ?]; try discriminate; split; eexists; reflexivity.
Qed.

Lemma mul_self_finite_inv x : finite (mul x x) -> finite x.
Proof. destruct x; simpl; intros [? ?]; try discriminate; eexists; reflexivity. Qed.

Lemma fold_add_finite_inv l a :
  finite (fold_left add l a) -> finite a /\ Forall finite l.
Proof.
  revert a. induction l as [|y l IH]; intros a H; simpl in *; [now split|].
  apply IH in H as [H Hl]. apply add_finite_inv in H as [Ha Hy].
  split; [assumption|now constructor].
Qed.

Lemma sum_finite_inv l : l <> [] -> finite (Lodash.sum l) -> Forall finite l.
Proof.
  destruct l as [|x l]; [congruence|]. intros _ H.
  apply fold_add_finite_inv in H as [Hx Hl]. now constructor.
Qed.

(** A sum of numbers that are not negative is zero only if each is. *)
Lemma fold_add_nonneg_zero l a s :
  Forall nonneg l -> 0 <= a -> fold_left add l (Num a) = Num s -> s == 0 ->
  a == 0 /\ Forall (fun x => same x zero) l.
Proof.
  revert a. induction l as [|y l IH]; intros a Hl Ha H Hs; simpl in *.
  - injection H as ->. now split.
  - inversion Hl as [|? ? (w & -> & Hw) Hl']; subst. simpl in H.
    destruct (IH (a + w) Hl') as [Haw Hrest]; [lra|assumption..|].
    split; [lra|]. constructor; [|assumption]. simpl. lra.
Qed.

(** The mean of a list is a finite number only if the list is not empty
    and its sum is finite. *)
Lemma mean_finite_inv l v :
  Lodash.mean l = Num v ->
  l <> [] /\ exists s, Lodash.sum l = Num s /\ v = s / inject_Z (Z.of_nat (length l)).
Proof.
  destruct l as [|x l]; [discriminate|]. unfold Lodash.mean.
  intros H. split; [discriminate|].
  destruct (Lodash.sum (x :: l)) as [s| | |]; unfold of_nat in H; cbn [div] in H.
  - rewrite Qeq_bool_false_pos in H by (unfold Qlt; simpl; lia).
    injection H as <-. now exists s.
  - destruct (Qle_bool _ _); discriminate.
  - destruct (Qle_bool _ _); discriminate.
  - discriminate.
Qed.

Lemma Qsquare_nonneg a : 0 <= a * a.
Proof.
  destruct (Qlt_le_dec a 0) as [H|H].
  - assert (E : a * a == (- a) * (- a)) by ring.
    rewrite E. apply Qmult_le_0_compat; lra.
  - now apply Qmult_le_0_compat.
Qed.

Lemma Qsquare_zero a : a * a == 0 -> a == 0.
Proof. intros H. apply Qmult_integral in H. tauto. Qed.

(** Squared deviations from [m] that are finite and sum to zero. *)
Lemma squared_deviations_zero (d : list number) (M : number) s :
  d <> [] ->
  Lodash.sum (map (fun x => mul (sub x M) (sub x M)) d) = Num s -> s == 0 ->
  exists m, M = Num m /\ Forall (fun x => exists q, x = Num q /\ q == m) d.
Proof.
  intros Hd Hsum Hs.
  assert (Hfin : Forall finite (map (fun x => mul (sub x M) (sub x M)) d)).
  { apply sum_finite_inv; [now destruct d|]. rewrite Hsum. now eexists. }
  assert (HM : finite M).
  { destruct d as [|x0 d]; [congruence|].
    inversion Hfin as [|? ? H0 _]; subst.
    apply mul_self_finite_inv, sub_finite_inv in H0. tauto. }
  destruct HM as [m ->]. exists m. split; [reflexivity|].
  assert (Hq : Forall finite d).
  { apply List.Forall_forall. intros x Hx.
    apply (in_map (fun x => mul (sub x (Num m)) (sub x (Num m)))) in Hx.
    apply (proj1 (List.Forall_forall _ _) Hfin) in Hx.
    apply mul_self_finite_inv, sub_finite_inv in Hx. tauto. }
  assert (Hnn : Forall nonneg (map (fun x => mul (sub x (Num m)) (sub x (Num m))) d)).
  { apply Forall_map. apply List.Forall_forall. intros x Hx.
    destruct (proj1 (List.Forall_forall _ _) Hq x Hx) as [q ->].
    cbn [sub add neg mul]. eexists. split; [reflexivity|]. apply Qsquare_nonneg. }
  assert (Hz : Forall (fun y => same y zero)
                      (map (fun x => mul (sub x (Num m)) (sub x (Num m))) d)).
  { destruct d as [|x0 d]; [congruence|]. cbn [map Lodash.sum] in *.
    inversion Hnn as [|? ? (w0 & Hw0 & Hw0') Hrest]; subst.
    rewrite Hw0 in *.
    destruct (fold_add_nonneg_zero _ _ _ Hrest Hw0' Hsum Hs) as [H0 Hr].
    constructor; [exact H0|exact Hr]. }
  apply List.Forall_forall. intros x Hx.
  destruct (proj1 (List.Forall_forall _ _) Hq x Hx) as [q ->].
  exists q. split; [reflexivity|].
  apply (in_map (fun x => mul (sub x (Num m)) (sub x (Num m)))) in Hx.
  apply (proj1 (List.Forall_forall _ _) Hz) in Hx.
  cbn [sub add neg mul same zero] in Hx.
  apply Qsquare_zero in Hx. lra.
Qed.

(** A series whose variance is zero consists of finite numbers equal to
    its mean. *)
Lemma variance_zero d :
  strict_eqb (Lodash.variance d) zero = true ->
  exists m v,
    Lodash.mean d = Num m /\ Lodash.variance d = Num v /\ v == 0
    /\ Forall (fun x => exists q, x = Num q /\ q == m) d.
Proof.
  unfold Lodash.variance.
  destruct (Lodash.mean (map _ d)) as [v| | |] eqn:Ev; try discriminate.
  cbn [strict_eqb zero]. intros Hv. apply Qeq_bool_eq in Hv.
  apply mean_finite_inv in Ev as (Hne & s & Hsum & ->).
  rewrite length_map in Hv.
  assert (Hd : d <> []) by (intros ->; now apply Hne).
  assert (Hs : s == 0).
  { assert (Hpos : 0 < inject_Z (Z.of_nat (length d))).
    { destruct d; [congruence|]. unfold Qlt; simpl; lia. }
    assert (E : s == s / inject_Z (Z.of_nat (length d)) * inject_Z (Z.of_nat (length d)))
      by (field; lra).
    rewrite E, Hv. ring. }
  destruct (squared_deviations_zero d (Lodash.mean d) s Hd Hsum Hs) as (m & Hm & Hall).
  exists m. eexists. rewrite length_map.
  split; [assumption|]. split; [reflexivity|]. split; assumption.
Qed.

(** On such a series every lagged sum of products is zero. *)
Lemma lagged_products_zero (d : list number) (m : Q) (k : nat) idxs s c :
  Forall (fun x => exists q, x = Num q /\ q == m) d ->
  (forall i, In i idxs -> (i < length d)%nat /\ (i + k < length d)%nat) ->
  s == 0 ->
  exists s' c',
    fold_left
      (fun '(sum, n) i =>
         (add sum (mul (sub (Array_get d i) (Num m))
                       (sub (Array_get d (i + k)) (Num m))),
          add n one))
      idxs (Num s, Num c) = (Num s', Num c')
    /\ s' == 0.
Proof.
  intros Hd. revert s c. induction idxs as [|i idxs IH]; intros s c Hi Hs.
  - exists s, c. now split.
  - destruct (Hi i (or_introl eq_refl)) as [H1 H2].
    destruct (proj1 (List.Forall_forall _ _) Hd (Array_get d i)) as (q1 & E1 & Hq1);
      [now apply nth_In|].
    destruct (proj1 (List.Forall_forall _ _) Hd (Array_get d (i + k))) as (q2 & E2 & Hq2);
      [now apply nth_In|].
    cbn [fold_left]. rewrite E1, E2. cbn [sub add neg mul one].
    apply IH.
    + intros j Hj. apply Hi. now right.
    + rewrite Hs, Hq1. ring.
Qed.

Lemma div_zero_by_zero s t : s == 0 -> t == 0 -> div (Num s) (Num t) = NaN.
Proof.
  intros Hs Ht. cbn [div].
  replace (Qeq_bool t 0) with true by (symmetry; now apply Qeq_bool_iff).
  unfold Qsign. now rewrite (proj1 (Qeq_alt s 0) Hs).
Qed.

Lemma map_constant {A B} (f : A -> B) (c : B) l :
  (forall x, f x = c) -> map f l = repeat c (length l).
Proof.
  intros H. induction l as [|x l IH]; simpl; [reflexivity|]. now rewrite H, IH.
Qed.

Lemma range_from_1 n : Lodash.range 1 (n + 1) = seq 1 n.
Proof. unfold Lodash.range. now rewrite Nat.add_sub. Qed.

Lemma seq_bounds (k n i : nat) :
  In i (seq 0 (n - k)) -> (i < n)%nat /\ (i + k < n)%nat.
Proof. rewrite in_seq. lia. Qed.

(** The significance of a coefficient that is NaN is NaN, whatever the
    square root and the exponential are. *)
Lemma calculateSignificance_NaN Math_sqrt Math_exp n :
  Statistics.calculateSignificance Math_sqrt Math_exp NaN n = NaN.
Proof.
  unfold Statistics.calculateSignificance, Statistics.normalCDF.
  cbn [mul Math_abs gtb ltb zero add div].
  now rewrite !mul_NaN_r.
Qed.

End AutocorrelationFacts.

Module Autocorrelation.
Import JS NumberFacts ArrayFacts AutocorrelationFacts.


End Autocorrelation.

Module AutocorrelationExamples.
Import JS Types.



End AutocorrelationExamples.

(** ** Trend segments *)

Module TrendFacts.
Import JS NumberFacts Detectors.

Section Segments.
Variable analyzeTrendSegment : list number -> TrendFit.

(** The candidate segment between two change points. *)
Let fit_of (smoothed : list number) (a b : Z) : Trend :=
  {| t_start := a; t_end := b;
     t_slope := slope (analyzeTrendSegment (Array_slice smoothed a b));
     t_confidence := confidence (analyzeTrendSegment (Array_slice smoothed a b)) |}.

Lemma segments_step smoothed a b rest :
  segments analyzeTrendSegment smoothed (a :: b :: rest)
  = if gtb (t_confidence (fit_of smoothed a b)) (Num (1 # 2))
    then fit_of smoothed a b :: segments analyzeTrendSegment smoothed (b :: rest)
    else segments analyzeTrendSegment smoothed (b :: rest).
Proof. reflexivity. Qed.

Lemma candidates_step smoothed a b rest :
  candidates analyzeTrendSegment smoothed (a :: b :: rest)
  = fit_of smoothed a b :: candidates analyzeTrendSegment smoothed (b :: rest).
Proof. reflexivity. Qed.

(** The segments returned are the candidates whose confidence is above
    one half, in the order of the candidates. *)
Lemma segments_filter smoothed cps :
  segments analyzeTrendSegment smoothed cps
  = List.filter (fun t => gtb (t_confidence t) (Num (1 # 2)))
                (candidates analyzeTrendSegment smoothed cps).
Proof.
  induction cps as [|a cps IH]; [reflexivity|].
  destruct cps as [|b rest]; [reflexivity|].
  rewrite segments_step, candidates_step, IH. reflexivity.
Qed.

(** Consecutive candidates share a bound. *)
Lemma candidates_contiguous smoothed cps k a b :
  nth_error (candidates analyzeTrendSegment smoothed cps) k = Some a ->
  nth_error (candidates analyzeTrendSegment smoothed cps) (S k) = Some b ->
  t_end a = t_start b.
Proof.
  revert k. induction cps as [|x cps IH]; intros k Ha Hb;
    [destruct k; discriminate|].
  destruct cps as [|y rest]; [destruct k; discriminate|].
  rewrite candidates_step in Ha, Hb.
  destruct k as [|k].
  - cbn [nth_error] in Ha, Hb. injection Ha as <-.
    destruct rest as [|z rest]; [discriminate|].
    rewrite candidates_step in Hb. cbn [nth_error] in Hb.
    injection Hb as <-. reflexivity.
  - apply (IH k); assumption.
Qed.

(** With change points in ascending order, every segment starts at or
    after the first change point and ends at or after its start, and a
    segment ends at or before the start of every later one. *)
Lemma segments_ordered smoothed cps :
  Sorted Z.le cps ->
  Forall (fun t => (hd 0%Z cps <= t_start t)%Z /\ (t_start t <= t_end t)%Z)
         (segments analyzeTrendSegment smoothed cps)
  /\ StronglySorted (fun s t => (t_end s <= t_start t)%Z)
                    (segments analyzeTrendSegment smoothed cps).
Proof.
  induction cps as [|a cps IH]; intros Hs; [split; constructor|].
  destruct cps as [|b rest]; [split; constructor|].
  apply Sorted_inv in Hs as [Hs Hab]. apply HdRel_inv in Hab.
  destruct (IH Hs) as [Hall Hss]. cbn [hd] in Hall.
  assert (Hall' : Forall (fun t => (a <= t_start t)%Z /\ (t_start t <= t_end t)%Z)
                         (segments analyzeTrendSegment smoothed (b :: rest))).
  { eapply List.Forall_impl; [|exact Hall]. cbn beta. intros t [H1 H2]. lia. }
  rewrite segments_step. cbn [hd].
  destruct (gtb _ _); [|now split].
  split.
  - constructor; [cbn [fit_of t_start t_end]; lia|exact Hall'].
  - constructor; [exact Hss|].
    eapply List.Forall_impl; [|exact Hall]. cbn [fit_of t_end]. intros t [H1 _]. exact H1.
Qed.

End Segments.

End TrendFacts.

Module Trends.
Import JS NumberFacts Detectors TrendFacts.


End Trends.

Module TrendExamples.
Import JS Detectors StandIns.



End TrendExamples.

(** ** The facade: construction, failure, confidence *)

Module FacadeFacts.
Import JS NumberFacts Types Analyzer.

Lemma add_NaN_l x : add NaN x = NaN.
Proof. reflexivity. Qed.

Lemma div_NaN_l x : div NaN x = NaN.
Proof. reflexivity. Qed.

(** A mean of nothing makes the strength of the patterns NaN. *)
Lemma assessPatternStrength_NaN {CP} (ts : TimeSeries CP) :
  trends ts = [] \/ anomalies ts = [] -> assessPatternStrength ts = NaN.
Proof.
  unfold assessPatternStrength. intros [-> | ->]; cbn [map Lodash.mean].
  - reflexivity.
  - now rewrite add_NaN_r.
Qed.

End FacadeFacts.

Module Facade.
Import JS NumberFacts Types Analyzer FacadeFacts.

(** C2, as it holds.  Constructing the facade with arrays of different
    lengths always throws, and what is thrown is the [AnalysisError] with
    the code [INSUFFICIENT_DATA]; with equal lengths an analyzer is
    returned. *)
Theorem constructor_length_mismatch (d ts : list number) (options : AnalysisOptions) :
  length d <> length ts ->
  constructor d ts options
  = Throw (AnalysisError "Data and timestamps must have same length"
                         INSUFFICIENT_DATA NoContext).
Proof.
  intros H. unfold constructor.
  destruct (Nat.eqb_spec (length d) (length ts)); [contradiction|reflexivity].
Qed.

(** The theorem at one value and no timestamp. *)
Lemma constructor_length_mismatch_witness :
  constructor [Num 1] []
    {| opt_domain := None; opt_contextWindow := None; opt_confidenceThreshold := None |}
  = Throw (AnalysisError "Data and timestamps must have same length"
                         INSUFFICIENT_DATA NoContext).
Proof. apply constructor_length_mismatch. simpl. lia. Defined.

(** C2 fails at one value and no timestamp: the kind of the error of the
    facade is InsufficientData, no error code stands for
    DimensionMismatch, and the constructor of the expert's own analyzer
    returns an analyzer. *)
Lemma constructor_mismatch_not_DimensionMismatch :
  (exists e,
     constructor [Num 1] []
       {| opt_domain := None; opt_contextWindow := None;
          opt_confidenceThreshold := None |} = Throw e
     /\ kind_of e = Some InsufficientData)
  /\ (forall c : ErrorCode, kind_of_code c <> Some DimensionMismatch)
  /\ Ultimate.data
       (Ultimate.constructor [Num 1] []
          {| Ultimate.opt_domain := None; Ultimate.opt_contextWindow := None |})
     = [Num 1]
  /\ Ultimate.timestamps
       (Ultimate.constructor [Num 1] []
          {| Ultimate.opt_domain := None; Ultimate.opt_contextWindow := None |})
     = [].
Proof.
  split; [eexists; split; reflexivity|].
  split; [intros []; discriminate|].
  split; reflexivity.
Qed.

Section Steps.
Context {ChangePoint Stats Insights : Type}.
Variable parts : Parts ChangePoint Stats Insights.

Lemma analyzeDomainSpecific_unrecognized this tag :
  domain this = Some tag -> Spec.unrecognized tag ->
  analyzeDomainSpecific parts this
  = Throw (AnalysisError "Invalid domain specified" INVALID_DOMAIN NoContext).
Proof.
  intros Hd (H0 & H1 & H2 & H3). unfold analyzeDomainSpecific. rewrite Hd.
  apply String.eqb_neq in H0, H1, H2, H3. now rewrite H0, H1, H2, H3.
Qed.

(** C3, as it holds.  With an unrecognized domain tag the step of the
    domain insights throws [INVALID_DOMAIN], and [analyzeHolistically] as
    a whole throws [ANALYSIS_FAILED] around a cause and returns no section;
    the cause is the [INVALID_DOMAIN] error when the time-series analysis
    and the statistics were computed. *)
Theorem analyzeHolistically_unrecognized_domain this tag :
  domain this = Some tag -> Spec.unrecognized tag ->
  analyzeDomainSpecific parts this
  = Throw (AnalysisError "Invalid domain specified" INVALID_DOMAIN NoContext)
  /\ (exists cause,
        analyzeHolistically parts this
        = Throw (AnalysisError "Analysis failed" ANALYSIS_FAILED (ErrorContext cause))
        /\ forall ts st,
             analyzeTimeSeries parts this = Return ts ->
             computeStatistics parts this = Return st ->
             cause = AnalysisError "Invalid domain specified" INVALID_DOMAIN NoContext).
Proof.
  intros Hd Hu.
  pose proof (analyzeDomainSpecific_unrecognized this tag Hd Hu) as Hdom.
  split; [exact Hdom|].
  unfold analyzeHolistically. rewrite Hdom.
  destruct (analyzeTimeSeries parts this) as [ts|e1] eqn:E1.
  - destruct (computeStatistics parts this) as [st|e2] eqn:E2.
    + eexists. split; [reflexivity|]. intros; reflexivity.
    + exists e2. split; [reflexivity|]. intros ? ? _ [=].
  - exists e1. split; [reflexivity|]. intros ? ? [=].
Qed.

(** C4, where it fails.  When no trend segment or no anomaly was detected,
    the overall confidence, if one is returned, is NaN: it is neither at
    least 0 nor at most 1. *)
Theorem calculateOverallConfidence_NaN this (ts : TimeSeries ChangePoint) (st : Stats) c :
  trends ts = [] \/ anomalies ts = [] ->
  calculateOverallConfidence parts this ts st = Return c ->
  c = NaN /\ leb zero c = false /\ leb c one = false.
Proof.
  intros Hts. unfold calculateOverallConfidence.
  rewrite (assessPatternStrength_NaN ts Hts).
  destruct (assessDataQuality parts this) as [dq|]; [|discriminate].
  destruct (assessStatisticalSignificance parts this st) as [ss|]; [|discriminate].
  cbn. rewrite add_NaN_r. cbn. intros [= <-]. now repeat split.
Qed.

End Steps.

End Facade.

Module FacadeExamples.
Import JS Types Analyzer StandIns.

(** The theorem at the tag "crypto". *)
Lemma analyzeHolistically_unrecognized_domain_witness :
  analyzeDomainSpecific quietParts (constantSeries (Some "crypto"%string))
  = Throw (AnalysisError "Invalid domain specified" INVALID_DOMAIN NoContext).
Proof.
  apply (Facade.analyzeHolistically_unrecognized_domain
           quietParts (constantSeries (Some "crypto"%string)) "crypto"%string).
  - reflexivity.
  - unfold Spec.unrecognized. repeat split; discriminate.
Defined.

(** C3 fails at the tag "crypto": the time series and the statistics are
    computed, and the analysis as a whole throws; no section is returned. *)
Lemma analyzeHolistically_returns_no_section :
  (exists ts, analyzeTimeSeries quietParts (constantSeries (Some "crypto"%string))
              = Return ts)
  /\ (exists st, computeStatistics quietParts (constantSeries (Some "crypto"%string))
                 = Return st)
  /\ analyzeHolistically quietParts (constantSeries (Some "crypto"%string))
     = Throw (AnalysisError "Analysis failed" ANALYSIS_FAILED
                (ErrorContext
                   (AnalysisError "Invalid domain specified" INVALID_DOMAIN NoContext))).
Proof. repeat split; try (eexists; reflexivity). Qed.

(** The theorem at a series on which nothing is detected. *)
Lemma calculateOverallConfidence_NaN_witness :
  calculateOverallConfidence quietParts (constantSeries None)
    {| trends := []; seasonality := {| s_period := 1; s_strength := Num 0;
                                       s_components := [] |};
       changePoints := []; anomalies := [] |}
    tt
  = Return NaN
  /\ leb zero NaN = false /\ leb NaN one = false.
Proof.
  split; [reflexivity|].
  apply (Facade.calculateOverallConfidence_NaN quietParts (constantSeries None)
           {| trends := []; seasonality := {| s_period := 1; s_strength := Num 0;
                                              s_components := [] |};
              changePoints := []; anomalies := [] |}
           tt NaN).
  - now left.
  - reflexivity.
Defined.

End FacadeExamples.

(** ** The cache of the handler *)

Module HandlerFacts.
Import Types Handler.

Section EventLoop.
Context {Call Result : Type}.
Variable cacheKey : Call -> string.
Variable analyze : Call -> Completion Result.

(** A call that finds its key in the cache returns what is cached and
    starts no analysis. *)
Lemma step_hit (s : Agent Call Result) i c cached :
  calls s !! i = Some (c, NotStarted) ->
  cache s !! cacheKey c = Some cached ->
  step cacheKey analyze i s
  = {| cache := cache s;
       calls := <[i := (c, Finished (Return cached))]> (calls s);
       started := started s;
       events := pattern_analysis_cache_hit :: events s |}.
Proof. intros Hc Hk. unfold Handler.step. now rewrite Hc, Hk. Qed.

(** A call that does not find its key starts an analysis and waits. *)
Lemma step_miss (s : Agent Call Result) i c :
  calls s !! i = Some (c, NotStarted) ->
  cache s !! cacheKey c = None ->
  step cacheKey analyze i s
  = {| cache := cache s;
       calls := <[i := (c, Awaiting)]> (calls s);
       started := cacheKey c :: started s;
       events := events s |}.
Proof. intros Hc Hk. unfold Handler.step. now rewrite Hc, Hk. Qed.

(** A call whose analysis has returned stores the result under its key. *)
Lemma step_resume (s : Agent Call Result) i c result :
  calls s !! i = Some (c, Awaiting) ->
  analyze c = Return result ->
  step cacheKey analyze i s
  = {| cache := <[cacheKey c := result]> (cache s);
       calls := <[i := (c, Finished (Return result))]> (calls s);
       started := started s;
       events := events s |}.
Proof. intros Hc Ha. unfold Handler.step. now rewrite Hc, Ha. Qed.

End EventLoop.

End HandlerFacts.

Module Cache.
Import Types Handler HandlerFacts.

(** C9, as it holds.  A call that looks its key up after a call with the
    same key has stored its result is answered from the cache and starts
    no analysis; a call that looks its key up before that starts an
    analysis of its own.  So of two calls with the same key, run one
    after the other they start one analysis, and interleaved they start
    two. *)
Theorem at_most_one_analysis_when_sequential
    {Call Result : Type} (cacheKey : Call -> string)
    (analyze : Call -> Completion Result) (c1 c2 : Call) (result : Result) :
  cacheKey c1 = cacheKey c2 ->
  analyze c1 = Return result ->
  analyze c2 = Return result ->
  (forall (s : Agent Call Result) i c cached,
      calls s !! i = Some (c, NotStarted) ->
      cache s !! cacheKey c = Some cached ->
      started (step cacheKey analyze i s) = started s
      /\ calls (step cacheKey analyze i s) !! i
         = Some (c, Finished (Return cached)))
  /\ computations (cacheKey c1)
       (run cacheKey analyze [0; 0; 1]%nat (initial [c1; c2])) = 1%nat
  /\ calls (run cacheKey analyze [0; 0; 1]%nat (initial [c1; c2]))
     = [(c1, Finished (Return result)); (c2, Finished (Return result))]
  /\ computations (cacheKey c1)
       (run cacheKey analyze [0; 1; 0; 1]%nat (initial [c1; c2])) = 2%nat
  /\ calls (run cacheKey analyze [0; 1; 0; 1]%nat (initial [c1; c2]))
     = [(c1, Finished (Return result)); (c2, Finished (Return result))].
Proof.
  intros Hk H1 H2.
  assert (Hhit : forall (s : Agent Call Result) i c cached,
             calls s !! i = Some (c, NotStarted) ->
             cache s !! cacheKey c = Some cached ->
             started (step cacheKey analyze i s) = started s
             /\ calls (step cacheKey analyze i s) !! i
                = Some (c, Finished (Return cached))).
  { intros s i c cached Hc Hcached.
    rewrite (step_hit cacheKey analyze s i c cached Hc Hcached).
    cbn [started calls]. split; [reflexivity|].
    apply list_lookup_insert_eq. now apply lookup_lt_Some in Hc. }
  split; [exact Hhit|].
  (* the first call looks up, misses and waits *)
  assert (E1 : step cacheKey analyze 0 (initial [c1; c2])
               = {| cache := ∅;
                    calls := [(c1, Awaiting); (c2, NotStarted)];
                    started := [cacheKey c1];
                    events := [] |}).
  { rewrite (step_miss cacheKey analyze _ 0 c1); [reflexivity..|apply lookup_empty]. }
  (* one after the other: the first call resumes, then the second starts *)
  assert (E2 : step cacheKey analyze 0 (step cacheKey analyze 0 (initial [c1; c2]))
               = {| cache := {[cacheKey c1 := result]};
                    calls := [(c1, Finished (Return result)); (c2, NotStarted)];
                    started := [cacheKey c1];
                    events := [] |}).
  { rewrite E1. rewrite (step_resume cacheKey analyze _ 0 c1 result);
      [reflexivity..|assumption]. }
  assert (E3 : run cacheKey analyze [0; 0; 1]%nat (initial [c1; c2])
               = {| cache := {[cacheKey c1 := result]};
                    calls := [(c1, Finished (Return result));
                              (c2, Finished (Return result))];
                    started := [cacheKey c1];
                    events := [pattern_analysis_cache_hit] |}).
  { cbn [run fold_left]. rewrite E2.
    rewrite (step_hit cacheKey analyze _ 1 c2 result);
      [reflexivity|reflexivity|].
    cbn [cache]. rewrite <- Hk. apply lookup_singleton_eq. }
  (* interleaved: the second call starts while the first one waits *)
  assert (E4 : step cacheKey analyze 1 (step cacheKey analyze 0 (initial [c1; c2]))
               = {| cache := ∅;
                    calls := [(c1, Awaiting); (c2, Awaiting)];
                    started := [cacheKey c2; cacheKey c1];
                    events := [] |}).
  { rewrite E1. rewrite (step_miss cacheKey analyze _ 1 c2);
      [reflexivity..|apply lookup_empty]. }
  assert (E5 : run cacheKey analyze [0; 1; 0; 1]%nat (initial [c1; c2])
               = {| cache := <[cacheKey c2 := result]> {[cacheKey c1 := result]};
                    calls := [(c1, Finished (Return result));
                              (c2, Finished (Return result))];
                    started := [cacheKey c2; cacheKey c1];
                    events := [] |}).
  { cbn [run fold_left]. rewrite E4.
    rewrite (step_resume cacheKey analyze _ 0 c1 result); [|reflexivity|assumption].
    rewrite (step_resume cacheKey analyze _ 1 c2 result); [|reflexivity|assumption].
    reflexivity. }
  rewrite E3, E5. unfold computations. cbn [started calls List.filter].
  rewrite <- Hk, String.eqb_refl. repeat split; reflexivity.
Qed.

End Cache.

Module CacheExamples.
Import Types Handler.

(** The theorem at two calls with the key "series" whose analysis returns 7
    (a call standing for its own key). *)
Lemma at_most_one_analysis_when_sequential_witness :
  computations "series"
    (run (fun c : string => c) (fun _ => Return 7%nat) [0; 0; 1]%nat
         (initial ["series"%string; "series"%string]))
  = 1%nat.
Proof.
  apply (Cache.at_most_one_analysis_when_sequential
           (fun c : string => c) (fun _ => Return 7%nat)
           "series"%string "series"%string 7%nat);
    reflexivity.
Defined.

(** C9 fails at two calls with the key "series": the second call looks the
    key up while the first one waits for its analysis, finds nothing, and
    starts a second analysis. *)
Lemma second_call_repeats_the_analysis :
  computations "series"
    (run (fun c : string => c) (fun _ => Return 7%nat) [0; 1]%nat
         (initial ["series"%string; "series"%string]))
  = 2%nat
  /\ calls
       (run (fun c : string => c) (fun _ => Return 7%nat) [0; 1]%nat
            (initial ["series"%string; "series"%string]))
     = [("series"%string, Awaiting); ("series"%string, Awaiting)].
Proof. split; vm_compute; reflexivity. Qed.

End CacheExamples.

(** ** Further properties of the code *)

Module Further.
Import JS NumberFacts ArrayFacts Types.

(** The facade's [analyzeCorrelations] never reports a correlation: it
    reads [coefficient] from the array that [calculateAutocorrelation]
    returns, and no comparison with [undefined] holds. *)
Theorem analyzeCorrelations_empty
    {ChangePoint Stats Insights : Type}
    (parts : Analyzer.Parts ChangePoint Stats Insights)
    (this : Analyzer.PatternAnalyzer) :
  Analyzer.analyzeCorrelations parts this = [].
Proof.
  unfold Analyzer.analyzeCorrelations.
  induction (Analyzer.generateWindows this) as [|w ws IH]; [reflexivity|].
  cbn [flat_map]. rewrite IH. reflexivity.
Qed.

(** The expert's analyzer gives no insights ([null]) for an unrecognized
    domain tag: it raises no error. *)
Theorem generateDomainSpecificInsights_unrecognized
    (this : Ultimate.PatternAnalyzer) (tag : string) :
  Ultimate.domain this = Some tag -> Spec.unrecognized tag ->
  Ultimate.generateDomainSpecificInsights this = Ultimate.NoInsights.
Proof.
  intros Hd (H0 & H1 & H2 & H3). unfold Ultimate.generateDomainSpecificInsights.
  rewrite Hd. apply String.eqb_neq in H0, H1, H2, H3. now rewrite H0, H1, H2, H3.
Qed.

(** The theorem at the tag "crypto". *)
Lemma generateDomainSpecificInsights_unrecognized_witness :
  Ultimate.generateDomainSpecificInsights
    (Ultimate.constructor [Num 1] [Num 1]
       {| Ultimate.opt_domain := Some "crypto"%string;
          Ultimate.opt_contextWindow := None |})
  = Ultimate.NoInsights.
Proof.
  apply (generateDomainSpecificInsights_unrecognized _ "crypto"%string).
  - reflexivity.
  - unfold Spec.unrecognized. repeat split; discriminate.
Defined.

(** Without a context window in the options (or with 0), the window of
    the expert's analyzer is max(10, ⌊n/10⌋). *)
Theorem constructor_default_contextWindow (d ts : list number) (tag : option string) :
  Ultimate.contextWindow
    (Ultimate.constructor d ts
       {| Ultimate.opt_domain := tag; Ultimate.opt_contextWindow := None |})
  = Z.max 10 (Z.of_nat (length d / 10))
  /\ Ultimate.contextWindow
       (Ultimate.constructor d ts
          {| Ultimate.opt_domain := tag; Ultimate.opt_contextWindow := Some 0%Z |})
     = Z.max 10 (Z.of_nat (length d / 10)).
Proof.
  unfold Ultimate.constructor. cbn [Ultimate.contextWindow Ultimate.opt_contextWindow].
  rewrite Nat2Z.inj_div. split; reflexivity.
Qed.

(** A series of fewer than nine values has no cycle: the curve of
    autocorrelations has at most two points and so no inner one. *)
Theorem detectPeriodicity_short_series (this : Ultimate.PatternAnalyzer) :
  (length (Ultimate.data this) < 9)%nat -> Ultimate.detectPeriodicity this = [].
Proof.
  intros Hn. destruct (Ultimate.detectPeriodicity this) as [|c rest] eqn:E;
    [reflexivity|exfalso].
  assert (Hc : In c (Ultimate.detectPeriodicity this)) by (rewrite E; now left).
  apply PeriodicityFacts.detectPeriodicity_period in Hc as [Hp _].
  assert (length (Ultimate.data this) / 3 <= 2)%nat.
  { apply Nat.lt_succ_r. apply Nat.Div0.div_lt_upper_bound. lia. }
  lia.
Qed.

(** The theorem at the series 1, 2, 1, 2, 1. *)
Lemma detectPeriodicity_short_series_witness :
  Ultimate.detectPeriodicity
    (Ultimate.constructor [Num 1; Num 2; Num 1; Num 2; Num 1]
       [Num 1; Num 2; Num 3; Num 4; Num 5]
       {| Ultimate.opt_domain := None; Ultimate.opt_contextWindow := None |})
  = [].
Proof. apply detectPeriodicity_short_series. simpl. lia. Defined.

(** For a series of at least two positive prices both values at risk are
    defined and calculateValueAtRisk(0.99) <= calculateValueAtRisk(0.95). *)
Theorem calculateValueAtRisk_positive_prices (ln : Q -> Q)
    (this : Ultimate.PatternAnalyzer) :
  (2 <= length (Ultimate.data this))%nat ->
  Forall positive (Ultimate.data this) ->
  exists v99 v95,
    Ultimate.calculateValueAtRisk ln this (Num (99 # 100)) = Some v99
    /\ Ultimate.calculateValueAtRisk ln this (Num (95 # 100)) = Some v95
    /\ leb v99 v95 = true.
Proof.
  intros Hn Hpos. unfold Ultimate.calculateValueAtRisk.
  apply ValueAtRiskFacts.quantiles_ordered.
  - intros E. apply (f_equal (@length _)) in E.
    rewrite ValueAtRiskFacts.length_calculateReturns in E. simpl in E. lia.
  - now apply ValueAtRiskFacts.calculateReturns_positive.
Qed.

(** The theorem at the prices 100, 110, 99 (with the identity in the
    place of the logarithm). *)
Lemma calculateValueAtRisk_positive_prices_witness :
  exists v99 v95,
    Ultimate.calculateValueAtRisk (fun q => q)
      (Ultimate.constructor [Num 100; Num 110; Num 99] [Num 1; Num 2; Num 3]
         {| Ultimate.opt_domain := Some "financial"%string;
            Ultimate.opt_contextWindow := None |})
      (Num (99 # 100)) = Some v99
    /\ Ultimate.calculateValueAtRisk (fun q => q)
         (Ultimate.constructor [Num 100; Num 110; Num 99] [Num 1; Num 2; Num 3]
            {| Ultimate.opt_domain := Some "financial"%string;
               Ultimate.opt_contextWindow := None |})
         (Num (95 # 100)) = Some v95
    /\ leb v99 v95 = true.
Proof.
  apply calculateValueAtRisk_positive_prices.
  - simpl. lia.
  - repeat constructor; eexists; split; reflexivity.
Defined.

(** A call whose analysis throws stores nothing in the cache, tracks the
    error and ends by throwing it. *)
Theorem failed_analysis_is_not_cached
    {Call Result : Type} (cacheKey : Call -> string)
    (analyze : Call -> Completion Result)
    (s : Handler.Agent Call Result) (i : nat) (c : Call) (error : Thrown) :
  Handler.calls s !! i = Some (c, Handler.Awaiting) ->
  analyze c = Throw error ->
  Handler.cache (Handler.step cacheKey analyze i s) = Handler.cache s
  /\ Handler.events (Handler.step cacheKey analyze i s)
     = Handler.pattern_analysis_error :: Handler.events s
  /\ Handler.calls (Handler.step cacheKey analyze i s) !! i
     = Some (c, Handler.Finished (Throw error)).
Proof.
  intros Hc Ha. unfold Handler.step. rewrite Hc, Ha.
  cbn [Handler.cache Handler.events Handler.calls]. repeat split.
  apply list_lookup_insert_eq. now apply lookup_lt_Some in Hc.
Qed.

(** The theorem at one waiting call whose analysis throws. *)
Lemma failed_analysis_is_not_cached_witness :
  Handler.cache
    (Handler.step (fun c : string => c)
       (fun _ => @Throw nat (OtherError "TypeError"))
       0
       {| Handler.cache := ∅;
          Handler.calls := [("series"%string, Handler.Awaiting)];
          Handler.started := ["series"%string];
          Handler.events := [] |})
  = ∅.
Proof.
  apply (failed_analysis_is_not_cached (fun c : string => c)
           (fun _ => @Throw nat (OtherError "TypeError"))
           {| Handler.cache := ∅;
              Handler.calls := [("series"%string, Handler.Awaiting)];
              Handler.started := ["series"%string];
              Handler.events := [] |}
           0 "series"%string (OtherError "TypeError"));
    reflexivity.
Defined.

End Further.

(** ** Smoothing: the weights and the weighted means *)

Module SmoothingFacts.
Import JS NumberFacts ArrayFacts DecompositionFacts.
Import Vocabulary.

Lemma Array_slice_nat {A} (l : list A) (a b : nat) :
  Array_slice l (Z.of_nat a) (Z.of_nat b)
  = firstn (Nat.min b (length l) - Nat.min a (length l))
           (skipn (Nat.min a (length l)) l).
Proof.
  unfold Array_slice, relative_index.
  destruct (Z.ltb_spec (Z.of_nat a) 0); [lia|].
  destruct (Z.ltb_spec (Z.of_nat b) 0); [lia|].
  now rewrite !Nat2Z.id.
Qed.

(** The slice of one element at a position of the array. *)
Lemma Array_slice_one {A} (l : list A) (i : nat) (x : A) :
  nth_error l i = Some x ->
  Array_slice l (Z.of_nat i) (Z.of_nat (i + 1)) = [x].
Proof.
  intros H. rewrite Array_slice_nat.
  assert (Hi : (i < length l)%nat) by (apply nth_error_Some; congruence).
  replace (Nat.min (i + 1) (length l) - Nat.min i (length l))%nat with 1%nat by lia.
  replace (Nat.min i (length l)) with i by lia.
  apply nth_error_split in H as (l1 & l2 & -> & <-).
  rewrite skipn_app, skipn_all, Nat.sub_diag. reflexivity.
Qed.

(** Weighted sums: with values between [lo] and [hi] and weights that are
    not negative, the sum of the products stays between [lo] and [hi]
    times the sum of the weights. *)
Lemma weighted_fold (lo hi : Q) (ps : list (Q * Q)) (a s : Q) :
  (forall p, In p ps -> lo <= fst p <= hi /\ 0 <= snd p) ->
  lo * s <= a <= hi * s ->
  exists a' s',
    fold_left add (map (fun p => Num (fst p * snd p)) ps) (Num a) = Num a'
    /\ fold_left add (map (fun p => Num (snd p)) ps) (Num s) = Num s'
    /\ lo * s' <= a' <= hi * s' /\ s <= s'.
Proof.
  revert a s. induction ps as [|[v w] ps IH]; intros a s Hps Has.
  - exists a, s. repeat split; try tauto. lra.
  - destruct (Hps (v, w) (or_introl eq_refl)) as [Hv Hw]. cbn [fst snd] in Hv, Hw.
    cbn [map fold_left add fst snd].
    destruct (IH (a + v * w) (s + w)) as (a' & s' & E1 & E2 & Hb & Hs).
    + intros p Hp. apply Hps. now right.
    + split; nra.
    + exists a', s'. repeat split; try tauto. lra.
Qed.

(** The quotient of such sums, when it is a finite number, is between
    [lo] and [hi]. *)
Lemma weighted_quotient (lo hi a s r : Q) :
  lo * s <= a <= hi * s -> 0 <= s ->
  div (Num a) (Num s) = Num r -> lo <= r <= hi.
Proof.
  intros Ha Hs. cbn [div].
  destruct (Qeq_bool s 0) eqn:E.
  - destruct (Qsign a); discriminate.
  - intros [= <-].
    assert (Hpos : 0 < s).
    { destruct (Qlt_le_dec 0 s) as [|Hle]; [assumption|].
      assert (s == 0) by lra. apply Qeq_bool_iff in H. congruence. }
    split.
    + apply Qle_shift_div_l; [assumption|]. lra.
    + apply Qle_shift_div_r; [assumption|]. lra.
Qed.

(** *** The tricube kernel of the expert *)

Lemma tricubeWeight_unit q :
  exists w, Ultimate.tricubeWeight (Num q) = Num w /\ 0 <= w <= 1.
Proof.
  unfold Ultimate.tricubeWeight. cbn [Math_abs geb leb one].
  destruct (Qle_bool 1 (Qabs q)) eqn:E.
  - exists 0. split; [reflexivity|lra].
  - apply Qle_bool_false in E.
    cbn [Math_pow3 mul sub add neg one zero].
    eexists. split; [reflexivity|].
    pose proof (Qabs_nonneg q) as Ha.
    assert (H2 : Qabs q * Qabs q <= 1) by nra.
    assert (H3 : 0 <= Qabs q * Qabs q * Qabs q <= 1) by nra.
    set (b := 1 + - (Qabs q * Qabs q * Qabs q)) in *.
    assert (Hb : 0 <= b <= 1) by (subst b; lra).
    assert (Hbb : 0 <= b * b <= 1) by nra.
    nra.
Qed.

(** A window of the expert as pairs of a value and a weight. *)
Lemma window_pairs (lo hi : Q) (window : list Ultimate.Weighted) :
  Forall (fun w => within lo hi (Ultimate.value w) /\ nonneg (Ultimate.weight w))
         window ->
  exists ps : list (Q * Q),
    map (fun w => mul (Ultimate.value w) (Ultimate.weight w)) window
    = map (fun p => Num (fst p * snd p)) ps
    /\ map Ultimate.weight window = map (fun p => Num (snd p)) ps
    /\ forall p, In p ps -> lo <= fst p <= hi /\ 0 <= snd p.
Proof.
  induction 1 as [|[v w] window [(qv & Ev & Hv) (qw & Ew & Hw)] _ IH].
  - exists []. split; [reflexivity|]. split; [reflexivity|]. intros p [].
  - destruct IH as (ps & E1 & E2 & Hps). cbn [Ultimate.value Ultimate.weight] in *.
    subst v w. exists ((qv, qw) :: ps). cbn [map fst snd mul].
    rewrite E1, E2. split; [reflexivity|]. split; [reflexivity|].
    intros p [<- | Hp]; [cbn [fst snd]; tauto|now apply Hps].
Qed.

(** The local regression of the expert, when it is a finite number, is
    between the bounds of the values of its window. *)
Lemma weighted_window_within (lo hi : Q) (window : list Ultimate.Weighted) r :
  Forall (fun w => within lo hi (Ultimate.value w) /\ nonneg (Ultimate.weight w))
         window ->
  Ultimate.computeLocalRegression window = Num r -> lo <= r <= hi.
Proof.
  intros Hw. destruct (window_pairs lo hi window Hw) as (ps & E1 & E2 & Hps).
  unfold Ultimate.computeLocalRegression, Lodash.sumBy. rewrite E1, E2.
  destruct ps as [|[v w] ps]; [discriminate|].
  cbn [map Lodash.sum fst snd].
  destruct (Hps (v, w) (or_introl eq_refl)) as [Hv Hw0]. cbn [fst snd] in Hv, Hw0.
  destruct (weighted_fold lo hi ps (v * w) w) as (a' & s' & -> & -> & Hb & Hs).
  - intros p Hp. apply Hps. now right.
  - split; nra.
  - apply weighted_quotient; [assumption|lra].
Qed.

End SmoothingFacts.

Module Smoothing.
Import JS NumberFacts ArrayFacts DecompositionFacts SmoothingFacts Ultimate.
Import Vocabulary.

(** The tricube weight of a number is a finite number between 0 and 1; it
    is 0 as soon as the absolute value of the argument is at least 1, and
    it is the same for a number and its opposite. *)
Theorem tricubeWeight_kernel (x : number) :
  is_number x ->
  (exists w, tricubeWeight x = Num w /\ 0 <= w <= 1)
  /\ (geb (Math_abs x) one = true -> tricubeWeight x = zero)
  /\ same (tricubeWeight (neg x)) (tricubeWeight x).
Proof.
  intros Hx. split; [|split].
  - destruct x as [q| | |]; try discriminate Hx.
    + apply tricubeWeight_unit.
    + exists 0. split; [reflexivity|lra].
    + exists 0. split; [reflexivity|lra].
  - intros H. unfold tricubeWeight. now rewrite H.
  - destruct x as [q| | |]; try discriminate Hx;
      try (vm_compute; reflexivity).
    unfold tricubeWeight. cbn [neg Math_abs geb leb one].
    assert (Ha : Qabs (- q) == Qabs q) by apply Qabs_opp.
    destruct (Qle_bool 1 (Qabs (- q))) eqn:E1, (Qle_bool 1 (Qabs q)) eqn:E2.
    + exact (Qeq_refl 0).
    + apply Qle_bool_iff in E1. apply Qle_bool_false in E2. lra.
    + apply Qle_bool_iff in E2. apply Qle_bool_false in E1. lra.
    + cbn [Math_pow3 mul sub add neg one same]. rewrite Ha. reflexivity.
Qed.

(** The theorem at one half. *)
Lemma tricubeWeight_kernel_witness :
  same (tricubeWeight (neg (Num (1 # 2)))) (tricubeWeight (Num (1 # 2))).
Proof. apply tricubeWeight_kernel. reflexivity. Defined.

(** On a series of at most contextWindow + 1 values the window of every
    index is the whole series, weighted from its first value on, so the
    robust trend has the same value at every index. *)
Theorem computeRobustTrend_flat (this : PatternAnalyzer) (i j : nat) :
  (Z.of_nat (length (data this)) <= contextWindow this + 1)%Z ->
  (i < length (data this))%nat -> (j < length (data this))%nat ->
  Array_get (computeRobustTrend this) i = Array_get (computeRobustTrend this) j.
Proof.
  intros Hn Hi Hj.
  assert (Hw : forall k, (k < length (data this))%nat ->
                 Array_get (computeRobustTrend this) k
                 = computeLocalRegression (getLocalWindow this 0)).
  { intros k Hk. unfold computeRobustTrend.
    destruct (nth_error (data this) k) as [x|] eqn:E;
      [|apply nth_error_None in E; lia].
    rewrite (Array_get_mapi _ _ _ _ E). f_equal. unfold getLocalWindow.
    f_equal. f_equal; lia. }
  now rewrite (Hw i Hi), (Hw j Hj).
Qed.

(** The theorem at the series 1, 2, 3 with the default window of 10. *)
Lemma computeRobustTrend_flat_witness :
  Array_get
    (computeRobustTrend
       (constructor [Num 1; Num 2; Num 3] [Num 1; Num 2; Num 3]
          {| opt_domain := None; opt_contextWindow := None |})) 0
  = Array_get
      (computeRobustTrend
         (constructor [Num 1; Num 2; Num 3] [Num 1; Num 2; Num 3]
            {| opt_domain := None; opt_contextWindow := None |})) 2.
Proof. apply computeRobustTrend_flat; simpl; lia. Defined.



End Smoothing.

(** ** The local regression of analyzers/statistics.ts *)

Module RegressionFacts.
Import JS NumberFacts ArrayFacts DecompositionFacts SmoothingFacts Statistics.
Import Vocabulary.

Lemma length_generateWeights len : length (generateWeights len) = len.
Proof. unfold generateWeights. now rewrite length_map, length_seq. Qed.

Lemma generateWeights_nonneg len : Forall nonneg (generateWeights len).
Proof.
  unfold generateWeights. apply List.Forall_forall. intros w Hw.
  apply in_map_iff in Hw as (i & <- & _).
  unfold of_nat, one. cbn [mul sub add neg div].
  match goal with |- context [Qeq_bool ?b 0] => destruct (Qeq_bool b 0) end.
  - destruct (Qsign (2 * inject_Z (Z.of_nat i))); cbn; exists 0;
      (split; [reflexivity|lra]).
  - unfold sub. cbn [add neg Math_abs leb].
    match goal with |- context [Qle_bool ?b 1] => destruct (Qle_bool b 1) eqn:E end.
    + apply Qle_bool_iff in E. cbn [Math_pow3 mul sub add neg].
      eexists. split; [reflexivity|].
      match type of E with Qabs ?t <= 1 => pose proof (Qabs_nonneg t) as Ha;
        set (x := Qabs t) in * end.
      apply Qcube_nonneg.
      assert (x * x <= 1) by nra. assert (x * x * x <= 1) by nra. lra.
    + exists 0. split; [reflexivity|lra].
Qed.

Lemma mapi_from_shift {A B} (f g : A -> nat -> B) k l :
  (forall x i, f x (S i) = g x i) -> mapi_from f (S k) l = mapi_from g k l.
Proof.
  intros H. revert k. induction l as [|x l IH]; intros k; cbn [mapi_from].
  - reflexivity.
  - now rewrite H, IH.
Qed.

(** The products of the values of a slice and of weights, as pairs. *)
Lemma slice_pairs (lo hi : Q) (slice ws : list number) :
  Forall (within lo hi) slice -> Forall nonneg ws -> length ws = length slice ->
  exists ps : list (Q * Q),
    Array_mapi (fun v i => mul v (Array_get ws i)) slice
    = map (fun p => Num (fst p * snd p)) ps
    /\ ws = map (fun p => Num (snd p)) ps
    /\ forall p, In p ps -> lo <= fst p <= hi /\ 0 <= snd p.
Proof.
  intros Hs. revert ws. induction Hs as [|v slice (qv & -> & Hv) _ IH];
    intros ws Hw Hlen.
  - destruct ws; [|discriminate]. exists [].
    split; [reflexivity|]. split; [reflexivity|]. intros p [].
  - destruct ws as [|w ws]; [discriminate|].
    inversion Hw as [|? ? (qw & -> & Hqw) Hws]; subst.
    destruct (IH ws Hws) as (ps & E1 & E2 & Hps); [simpl in Hlen; lia|].
    exists ((qv, qw) :: ps). unfold Array_mapi in *. cbn [mapi_from map fst snd].
    rewrite (mapi_from_shift _ (fun v i => mul v (Array_get ws i)))
      by reflexivity.
    rewrite E1, <- E2. cbn [Array_get nth mul].
    split; [reflexivity|]. split; [reflexivity|].
    intros p [<- | Hp]; [cbn [fst snd]; tauto|now apply Hps].
Qed.

(** The sum of weights that are not negative is at least each of them. *)
Lemma fold_weights_ge (ps : list (Q * Q)) (s s' : Q) :
  (forall p, In p ps -> 0 <= snd p) -> 0 <= s ->
  fold_left add (map (fun p => Num (snd p)) ps) (Num s) = Num s' ->
  s <= s' /\ forall p, In p ps -> snd p <= s'.
Proof.
  revert s. induction ps as [|[v w] ps IH]; intros s Hps Hs E.
  - cbn in E. injection E as <-. split; [lra|]. intros p [].
  - cbn [map fold_left add snd] in E.
    pose proof (Hps (v, w) (or_introl eq_refl)) as Hw. cbn [snd] in Hw.
    destruct (IH (s + w)) as [H1 H2]; [intros p Hp; apply Hps; now right|lra|exact E|].
    split; [lra|]. intros p [<- | Hp]; [cbn [snd]; lra|now apply H2].
Qed.

(** The two sums of a weighted mean. *)
Lemma weighted_sums (lo hi : Q) (ps : list (Q * Q)) :
  (forall p, In p ps -> lo <= fst p <= hi /\ 0 <= snd p) ->
  exists a s,
    Lodash.sum (map (fun p => Num (fst p * snd p)) ps) = Num a
    /\ Lodash.sum (map (fun p => Num (snd p)) ps) = Num s
    /\ lo * s <= a <= hi * s /\ 0 <= s
    /\ forall p, In p ps -> snd p <= s.
Proof.
  intros Hps. destruct ps as [|[v w] ps].
  - exists 0, 0. cbn. repeat split; try lra. intros p [].
  - cbn [map Lodash.sum fst snd].
    destruct (Hps (v, w) (or_introl eq_refl)) as [Hv Hw]. cbn [fst snd] in Hv, Hw.
    destruct (weighted_fold lo hi ps (v * w) w) as (a & s & E1 & E2 & Hb & Hs).
    { intros p Hp. apply Hps. now right. }
    { split; nra. }
    exists a, s. rewrite E1, E2.
    destruct (fold_weights_ge ps w s) as [_ Hge]; [|assumption|assumption|].
    { intros p Hp. apply Hps. now right. }
    split; [reflexivity|]. split; [reflexivity|]. split; [assumption|].
    split; [lra|]. intros p [<- | Hp]; [cbn [snd]; lra|now apply Hge].
Qed.

Lemma computeLocalRegression_slice d window index :
  computeLocalRegression d window index
  = div (Lodash.sum
           (Array_mapi
              (fun v i => mul v (Array_get (generateWeights
                                              (length (slice_of d window index))) i))
              (slice_of d window index)))
        (Lodash.sum (generateWeights (length (slice_of d window index)))).
Proof. reflexivity. Qed.

Lemma length_slice_of d window index :
  (0 <= window)%Z ->
  length (slice_of d window index)
  = (Z.to_nat (Z.min (Z.of_nat (length d)) (Z.of_nat index + window / 2 + 1))
     - Z.to_nat (Z.max 0 (Z.of_nat index - window / 2)))%nat.
Proof.
  intros Hw. assert (0 <= window / 2)%Z by (apply Z.div_pos; lia).
  unfold slice_of, Array_slice, relative_index.
  destruct (Z.ltb_spec (Z.max 0 (Z.of_nat index - window / 2)) 0); [lia|].
  destruct (Z.ltb_spec (Z.min (Z.of_nat (length d))
                              (Z.of_nat index + window / 2 + 1)) 0); [lia|].
  rewrite length_firstn, length_skipn. lia.
Qed.

Lemma null_add x y : null x -> null y -> null (add x y).
Proof.
  intros [-> | (a & -> & Ha)] [-> | (b & -> & Hb)].
  - now left.
  - now left.
  - left. reflexivity.
  - right. exists (a + b). split; [reflexivity|lra].
Qed.

Lemma null_fold l a : Forall null l -> null a -> null (fold_left add l a).
Proof.
  intros Hl. revert a. induction Hl as [|x l Hx _ IH]; intros a Ha; cbn [fold_left].
  - assumption.
  - apply IH. now apply null_add.
Qed.

Lemma null_sum l : Forall null l -> null (Lodash.sum l).
Proof.
  intros [|x l' Hx Hl]; cbn [Lodash.sum].
  - right. exists 0. split; reflexivity.
  - now apply null_fold.
Qed.

Lemma null_mul_r x w : w == 0 -> null (mul x (Num w)).
Proof.
  intros Hw. destruct x as [q| | |]; cbn [mul].
  - right. exists (q * w). split; [reflexivity|]. rewrite Hw. ring.
  - left. unfold Qsign. now rewrite (proj1 (Qeq_alt _ _) Hw).
  - left. unfold Qsign, flip. now rewrite (proj1 (Qeq_alt _ _) Hw).
  - now left.
Qed.

Lemma null_div x s : null x -> s == 0 -> div x (Num s) = NaN.
Proof.
  intros [-> | (a & -> & Ha)] Hs; [reflexivity|]. cbn [div].
  rewrite (proj2 (Qeq_bool_iff s 0) Hs).
  unfold Qsign. now rewrite (proj1 (Qeq_alt _ _) Ha).
Qed.

(** With weights that are all zero the weighted mean is [NaN], whatever
    the values. *)
Lemma zero_weights_NaN (slice ws : list number) :
  Forall (fun w => exists q, w = Num q /\ q == 0) ws ->
  div (Lodash.sum (Array_mapi (fun v i => mul v (Array_get ws i)) slice))
      (Lodash.sum ws) = NaN.
Proof.
  intros Hw.
  assert (Hs : exists s, Lodash.sum ws = Num s /\ s == 0).
  { destruct (null_sum ws) as [E | H]; [|  |exact H].
    - eapply List.Forall_impl; [|exact Hw]. intros w H. now right.
    - exfalso. destruct (sum_finite ws) as [s Es]; [|congruence].
      eapply List.Forall_impl; [|exact Hw]. intros w (q & -> & _). now exists q. }
  destruct Hs as (s & -> & Hs). apply null_div; [|assumption].
  apply null_sum. apply Forall_mapi_from. intros v i _.
  unfold Array_get.
  destruct (nth_in_or_default i ws NaN) as [Hin | ->].
  - destruct (proj1 (List.Forall_forall _ _) Hw _ Hin) as (q & -> & Hq).
    now apply null_mul_r.
  - left. apply mul_NaN_r.
Qed.

(** Up to two weights are all zero: one weight is [0 / 0] away from the
    fold, two weights are at the two ends of the kernel. *)
Lemma generateWeights_short len :
  (len <= 2)%nat ->
  Forall (fun w => exists q, w = Num q /\ q == 0) (generateWeights len).
Proof.
  intros H. destruct len as [|[|[|len]]]; [| | |lia]; vm_compute;
    repeat constructor; eexists; (split; [reflexivity|reflexivity]).
Qed.

Lemma computeLocalRegression_short d window index :
  (length (slice_of d window index) <= 2)%nat ->
  computeLocalRegression d window index = NaN.
Proof.
  intros H. rewrite computeLocalRegression_slice.
  apply zero_weights_NaN. now apply generateWeights_short.
Qed.

(** From three weights on, the second one is positive. *)
Lemma generateWeights_second len :
  (3 <= len)%nat ->
  exists w, nth_error (generateWeights len) 1 = Some (Num w) /\ 0 < w.
Proof.
  intros H. unfold generateWeights.
  rewrite nth_error_map.
  replace (nth_error (seq 0 len) 1) with (Some 1%nat)
    by (symmetry; destruct len as [|[|len]]; [lia|lia|reflexivity]).
  cbn [option_map]. unfold of_nat, one. cbn [mul sub add neg div].
  set (L := inject_Z (Z.of_nat len) + - (1)).
  assert (HL : 2 <= L).
  { subst L. assert (3 <= inject_Z (Z.of_nat len)); [|lra].
    change 3 with (inject_Z 3). rewrite <- Zle_Qle. lia. }
  rewrite Qeq_bool_false_pos by lra.
  unfold sub. cbn [add neg Math_abs leb].
  set (t := 2 * inject_Z (Z.of_nat 1) / L).
  assert (Ht : 0 < t <= 1).
  { subst t. change (inject_Z (Z.of_nat 1)) with 1. split.
    - apply Qlt_shift_div_l; lra.
    - apply Qle_shift_div_r; lra. }
  assert (Ha : Qabs (t + - (1)) < 1).
  { apply Qabs_Qlt_condition. split; lra. }
  pose proof (Qabs_nonneg (t + - (1))) as Hn.
  set (x := Qabs (t + - (1))) in *.
  destruct (Qle_bool x 1) eqn:E.
  - cbn [Math_pow3 mul sub add neg]. eexists. split; [reflexivity|].
    assert (x * x < 1) by nra. assert (Hc : x * x * x < 1) by nra.
    set (b := 1 + - (x * x * x)) in *. assert (0 < b) by (subst b; lra).
    assert (0 < b * b) by nra. nra.
  - apply Qle_bool_false in E. lra.
Qed.

(** The local regression over a slice of at least three finite values
    between two bounds is a finite number between them. *)
Lemma computeLocalRegression_bounded (lo hi : Q) d window index :
  (3 <= length (slice_of d window index))%nat ->
  Forall (within lo hi) d ->
  within lo hi (computeLocalRegression d window index).
Proof.
  intros Hlen Hd. rewrite computeLocalRegression_slice.
  assert (Hs : Forall (within lo hi) (slice_of d window index))
    by (now apply Forall_Array_slice).
  destruct (generateWeights_second _ Hlen) as (w & Ew & Hw0).
  destruct (slice_pairs lo hi (slice_of d window index)
              (generateWeights (length (slice_of d window index))) Hs
              (generateWeights_nonneg _) (length_generateWeights _))
    as (ps & E1 & E2 & Hps).
  rewrite E1. rewrite E2 in Ew |- *.
  destruct (weighted_sums lo hi ps Hps) as (a & s & -> & -> & Hb & Hs0 & Hge).
  assert (Hpos : 0 < s).
  { rewrite nth_error_map in Ew.
    destruct (nth_error ps 1) as [p|] eqn:Ep; [|discriminate].
    cbn [option_map] in Ew. injection Ew as <-.
    pose proof (Hge p (nth_error_In _ _ Ep)). lra. }
  exists (a / s). split.
  - cbn [div]. now rewrite Qeq_bool_false_pos.
  - apply (weighted_quotient lo hi a s); [assumption|lra|].
    cbn [div]. now rewrite Qeq_bool_false_pos.
Qed.

Lemma length_slice_of_wide d window index :
  (4 <= window)%Z -> (3 <= length d)%nat -> (index < length d)%nat ->
  (3 <= length (slice_of d window index))%nat.
Proof.
  intros Hw Hn Hi. rewrite length_slice_of by lia.
  assert (2 <= window / 2)%Z by (apply Z.div_le_lower_bound; lia). lia.
Qed.

Lemma length_slice_of_narrow d window index :
  (0 <= window < 2)%Z -> (length (slice_of d window index) <= 2)%nat.
Proof.
  intros Hw. rewrite length_slice_of by lia.
  assert (E : (window / 2 = 0)%Z) by (apply Z.div_small; lia).
  rewrite E. lia.
Qed.

End RegressionFacts.

Module Regression.
Import JS NumberFacts ArrayFacts DecompositionFacts SmoothingFacts RegressionFacts.
Import Statistics.
Import Vocabulary.

(** A window of 0 or 1, or a series of at most two values, leaves at
    most two values in the slice of the local regression; their tricube
    weights are all zero (a single weight is [0 / 0] compared with 1), so
    the result is [NaN] whatever the values are. *)
Theorem local_regression_too_narrow (d : list number) (window : Z) (index : nat) :
  (0 <= window)%Z ->
  (window < 2)%Z \/ (length d <= 2)%nat ->
  computeLocalRegression d window index = NaN.
Proof.
  intros Hw H. apply computeLocalRegression_short.
  destruct H as [H | H]; [apply length_slice_of_narrow; lia|].
  rewrite length_slice_of by assumption. lia.
Qed.

(** The theorem at the series 1, 2, 3 with a window of 1. *)
Lemma local_regression_too_narrow_witness :
  computeLocalRegression [Num 1; Num 2; Num 3] 1 1 = NaN.
Proof. apply local_regression_too_narrow; [lia|left; lia]. Defined.

(** With a window of 2 or 3 the local regression is [NaN] at the
    first and at the last position of the series, whatever the values,
    and at a position between them it is the value of a series of finite
    numbers at that position: the two neighbours have weight zero. *)
Theorem local_regression_window_of_three (d : list number) (window : Z) (index : nat) :
  (2 <= window < 4)%Z -> (index < length d)%nat ->
  ((index = 0%nat \/ index + 1 = length d)%nat ->
   computeLocalRegression d window index = NaN)
  /\ ((0 < index)%nat -> (index + 1 < length d)%nat -> Forall finite d ->
      same (computeLocalRegression d window index) (Array_get d index)).
Proof.
  intros Hw Hi.
  assert (E : (window / 2 = 1)%Z).
  { assert (Hc : window = 2%Z \/ window = 3%Z) by lia.
    destruct Hc as [-> | ->]; reflexivity. }
  split.
  - intros H. apply computeLocalRegression_short.
    rewrite length_slice_of by lia. rewrite E. lia.
  - intros H0 Hn Hd. rewrite computeLocalRegression_slice.
    assert (Hs : exists a b c,
               slice_of d window index = [Num a; Num b; Num c]
               /\ Array_get d index = Num b).
    { unfold slice_of. rewrite E.
      replace (Z.max 0 (Z.of_nat index - 1)) with (Z.of_nat (index - 1)) by lia.
      replace (Z.min (Z.of_nat (length d)) (Z.of_nat index + 1 + 1))
        with (Z.of_nat (index + 2)) by lia.
      rewrite Array_slice_nat.
      replace (Nat.min (index + 2) (length d) - Nat.min (index - 1) (length d))%nat
        with 3%nat by lia.
      replace (Nat.min (index - 1) (length d)) with (index - 1)%nat by lia.
      destruct index as [|k]; [lia|]. replace (S k - 1)%nat with k by lia.
      clear H0 Hi E Hw. revert d Hn Hd.
      induction k as [|k IH]; intros d Hn Hd.
      - destruct d as [|x [|y [|z d]]]; try (simpl in Hn; lia).
        inversion Hd as [|? ? [a ->] Hd1]; subst.
        inversion Hd1 as [|? ? [b ->] Hd2]; subst.
        inversion Hd2 as [|? ? [c ->] _]; subst.
        exists a, b, c. split; reflexivity.
      - destruct d as [|x d]; [simpl in Hn; lia|].
        inversion Hd as [|? ? _ Hd1]; subst.
        destruct (IH d) as (a & b & c & E1 & E2); [simpl in Hn; lia|assumption|].
        exists a, b, c. split; [exact E1|exact E2]. }
    destruct Hs as (a & b & c & -> & ->).
    assert (Hg : exists w0 w1 w2,
               generateWeights 3 = [Num w0; Num w1; Num w2]
               /\ w0 == 0 /\ w1 == 1 /\ w2 == 0).
    { vm_compute. do 3 eexists. split; [reflexivity|].
      repeat split; vm_compute; reflexivity. }
    destruct Hg as (w0 & w1 & w2 & Eg & H0' & H1' & H2').
    cbn [length]. rewrite Eg. unfold Array_mapi.
    cbn [mapi_from Array_get nth mul Lodash.sum fold_left add div].
    rewrite Qeq_bool_false_pos by lra.
    cbn [same]. rewrite H0', H1', H2'. field.
Qed.

(** The theorem at the series 1, 2, 3, 4 with a window of 3. *)
Lemma local_regression_window_of_three_witness :
  computeLocalRegression [Num 1; Num 2; Num 3; Num 4] 3 0 = NaN
  /\ same (computeLocalRegression [Num 1; Num 2; Num 3; Num 4] 3 2) (Num 3).
Proof.
  split.
  - apply (local_regression_window_of_three [Num 1; Num 2; Num 3; Num 4] 3 0);
      [lia|simpl; lia|left; reflexivity].
  - apply (local_regression_window_of_three [Num 1; Num 2; Num 3; Num 4] 3 2);
      [lia|simpl; lia|lia|simpl; lia|].
    repeat constructor; eexists; reflexivity.
Defined.



End Regression.

(** ** The peaks of analyzers/statistics.ts and their prominence *)

Module PeakFacts.
Import JS NumberFacts ArrayFacts DecompositionFacts SmoothingFacts Statistics.
Import Vocabulary.

Lemma gtb_asym x y : gtb x y = true -> gtb y x = false.
Proof.
  unfold gtb. destruct x as [a| | |], y as [b| | |]; cbn; try congruence.
  intros H. apply Bool.negb_true_iff in H. apply Qle_bool_false in H.
  apply Bool.negb_false_iff. apply Qle_bool_iff. lra.
Qed.

(** One loop of [calculateProminence] over finite values: the minimum kept
    is a finite number, at most the minimum it started from and at least
    any lower bound of the values. *)
Lemma scan_min_within (lo hi p : Q) (l : list number) (a : Q) :
  Forall (within lo hi) l -> lo <= a ->
  exists m, scan_min (Num p) (Num a) l = Num m /\ lo <= m <= a.
Proof.
  intros Hl. revert a. induction Hl as [|x l (q & -> & Hq) _ IH]; intros a Ha.
  - exists a. split; [reflexivity|lra].
  - cbn [scan_min]. destruct (gtb (Num q) (Num p)).
    + exists a. split; [reflexivity|lra].
    + cbn [Math_min leb]. destruct (Qle_bool a q) eqn:E.
      * apply IH. assumption.
      * apply Qle_bool_false in E. destruct (IH q) as (m & -> & Hm); [lra|].
        exists m. split; [reflexivity|lra].
Qed.

(** When the first value visited is below the peak, the minimum kept is
    below the peak. *)
Lemma scan_min_below (lo hi p q : Q) (l : list number) :
  Forall (within lo hi) l -> lo <= q -> q < p ->
  exists m, scan_min (Num p) (Num p) (Num q :: l) = Num m /\ lo <= m < p.
Proof.
  intros Hl Hq Hp. cbn [scan_min gtb ltb].
  replace (Qle_bool q p) with true
    by (symmetry; apply Qle_bool_iff; lra).
  cbn [negb Math_min leb].
  destruct (Qle_bool p q) eqn:E; [apply Qle_bool_iff in E; lra|].
  destruct (scan_min_within lo hi p l q Hl Hq) as (m & -> & Hm).
  exists m. split; [reflexivity|lra].
Qed.

Lemma firstn_snoc {A} (l : list A) (k : nat) (x : A) :
  nth_error l k = Some x -> firstn (S k) l = firstn k l ++ [x].
Proof.
  revert k. induction l as [|y l IH]; intros [|k]; cbn; try discriminate.
  - now intros [= ->].
  - intros H. now rewrite <- (IH k H).
Qed.

Lemma skipn_cons {A} (l : list A) (k : nat) (x : A) :
  nth_error l k = Some x -> skipn k l = x :: skipn (S k) l.
Proof.
  revert k. induction l as [|y l IH]; intros [|k]; cbn; try discriminate.
  - now intros [= ->].
  - intros H. now rewrite (IH k H).
Qed.

Lemma within_nth (lo hi : Q) (d : list number) (i : nat) :
  Forall (within lo hi) d -> (i < length d)%nat ->
  exists q, nth_error d i = Some (Num q) /\ Array_get d i = Num q /\ lo <= q <= hi.
Proof.
  intros Hd Hi. destruct (nth_error d i) as [x|] eqn:E;
    [|apply nth_error_None in E; lia].
  destruct (proj1 (List.Forall_forall _ _) Hd x (nth_error_In _ _ E))
    as (q & -> & Hq).
  exists q. split; [reflexivity|]. split; [|assumption].
  unfold Array_get. now apply nth_error_nth.
Qed.

Lemma calculateProminence_bounds (lo hi : Q) (d : list number) (i : nat) :
  Forall (within lo hi) d -> (i < length d)%nat ->
  exists p l r,
    Array_get d i = Num p /\ lo <= p <= hi
    /\ scan_min (Num p) (Num p) (rev (firstn i d)) = Num l /\ lo <= l <= p
    /\ scan_min (Num p) (Num p) (skipn (i + 1) d) = Num r /\ lo <= r <= p.
Proof.
  intros Hd Hi. destruct (within_nth lo hi d i Hd Hi) as (p & _ & Ep & Hp).
  destruct (scan_min_within lo hi p (rev (firstn i d)) p) as (l & El & Hl).
  { apply List.Forall_rev. now apply Forall_take. }
  { lra. }
  destruct (scan_min_within lo hi p (skipn (i + 1) d) p) as (r & Er & Hr).
  { now apply Forall_drop. }
  { lra. }
  exists p, l, r. tauto.
Qed.

(** At a strict local maximum of a series of finite numbers the prominence
    is positive. *)
Lemma calculateProminence_positive (lo hi : Q) (d : list number) (i : nat) :
  Forall (within lo hi) d -> (1 <= i)%nat -> (i + 1 < length d)%nat ->
  gtb (Array_get d i) (Array_get d (i - 1)) = true ->
  gtb (Array_get d i) (Array_get d (i + 1)) = true ->
  positive (calculateProminence d i).
Proof.
  intros Hd H1 Hn Hl Hr.
  destruct (within_nth lo hi d i Hd) as (p & _ & Ep & Hp); [lia|].
  destruct (within_nth lo hi d (i - 1) Hd) as (a & Ea & Ea' & Ha); [lia|].
  destruct (within_nth lo hi d (i + 1) Hd) as (b & Eb & Eb' & Hb); [lia|].
  rewrite Ep, Ea' in Hl. rewrite Ep, Eb' in Hr.
  cbn [gtb ltb] in Hl, Hr.
  apply Bool.negb_true_iff, Qle_bool_false in Hl.
  apply Bool.negb_true_iff, Qle_bool_false in Hr.
  unfold calculateProminence. rewrite Ep.
  replace i with (S (i - 1)) at 1 by lia.
  rewrite (firstn_snoc _ _ _ Ea), rev_app_distr. cbn [rev app].
  rewrite (skipn_cons _ _ _ Eb).
  destruct (scan_min_below lo hi p a (rev (firstn (i - 1) d))) as (l & -> & Hl');
    [apply List.Forall_rev; now apply Forall_take|lra|lra|].
  destruct (scan_min_below lo hi p b (skipn (S (i + 1)) d)) as (r & -> & Hr');
    [now apply Forall_drop|lra|lra|].
  cbn [Math_max leb]. destruct (Qle_bool l r); cbn [sub neg add];
    eexists; (split; [reflexivity|lra]).
Qed.

Lemma findPeaks_rounds d m :
  findPeaks d m = flat_map (peak_at d m) (seq 1 (length d - 2)).
Proof. reflexivity. Qed.

Lemma peak_at_cases d m i :
  peak_at d m i = []
  \/ (peak_at d m i
      = [ {| p_index := i; p_value := Array_get d i;
             p_prominence := calculateProminence d i |} ]
      /\ gtb (Array_get d i) (Array_get d (i - 1)) = true
      /\ gtb (Array_get d i) (Array_get d (i + 1)) = true
      /\ geb (calculateProminence d i) m = true).
Proof.
  unfold peak_at.
  destruct (gtb (Array_get d i) (Array_get d (i - 1))); [|now left].
  destruct (gtb (Array_get d i) (Array_get d (i + 1))); [|now left].
  cbn [andb]. destruct (geb (calculateProminence d i) m); [|now left].
  right. tauto.
Qed.

Lemma peak_at_next d m i :
  peak_at d m i <> [] -> peak_at d m (S i) = [].
Proof.
  intros H. destruct (peak_at_cases d m i) as [E | (_ & _ & Hr & _)]; [congruence|].
  unfold peak_at. replace (S i - 1)%nat with i by lia.
  replace (i + 1)%nat with (S i) in Hr by lia.
  now rewrite (gtb_asym _ _ Hr).
Qed.

Lemma peaks_in_range d m s k :
  Forall (fun i => (s <= i < s + k)%nat)
         (map p_index (flat_map (peak_at d m) (seq s k))).
Proof.
  revert s. induction k as [|k IH]; intros s; cbn [seq flat_map].
  - constructor.
  - rewrite map_app. apply Forall_app. split.
    + destruct (peak_at_cases d m s) as [-> | (-> & _)]; repeat constructor; cbn; lia.
    + eapply List.Forall_impl; [|apply IH]. cbn. intros; lia.
Qed.

Lemma peaks_spaced d m s k :
  Sorted (fun a b => (a + 2 <= b)%nat)
         (map p_index (flat_map (peak_at d m) (seq s k))).
Proof.
  revert s. induction k as [|k IH]; intros s; cbn [seq flat_map].
  - constructor.
  - destruct (peak_at_cases d m s) as [-> | (E & _)]; [apply IH|].
    rewrite E. cbn [map app p_index]. constructor; [apply IH|].
    destruct k as [|k]; [constructor|].
    cbn [seq flat_map]. rewrite (peak_at_next d m s) by (rewrite E; discriminate).
    cbn [app].
    pose proof (peaks_in_range d m (S (S s)) k) as Hr.
    destruct (map p_index (flat_map (peak_at d m) (seq (S (S s)) k)));
      constructor.
    inversion Hr; subst. lia.
Qed.

Lemma peaks_filter (lo hi : Q) d m s k :
  Forall (within lo hi) d -> leb m zero = true ->
  (1 <= s)%nat -> (s + k + 1 <= length d)%nat ->
  map p_index (flat_map (peak_at d m) (seq s k))
  = List.filter (fun i => gtb (Array_get d i) (Array_get d (i - 1))
                     && gtb (Array_get d i) (Array_get d (i + 1)))
           (seq s k).
Proof.
  intros Hd Hm. revert s. induction k as [|k IH]; intros s Hs Hk;
    cbn [seq flat_map List.filter].
  - reflexivity.
  - rewrite map_app, IH by lia. unfold peak_at at 1.
    destruct (gtb (Array_get d s) (Array_get d (s - 1))) eqn:E1; [|reflexivity].
    destruct (gtb (Array_get d s) (Array_get d (s + 1))) eqn:E2; [|reflexivity].
    cbn [andb]. cbv zeta.
    destruct (calculateProminence_positive lo hi d s Hd) as (q & -> & Hq);
      try assumption; try lia.
    replace (geb (Num q) m) with true; [reflexivity|].
    symmetry. unfold geb. destruct m as [b| | |]; cbn in Hm |- *; try congruence.
    apply Qle_bool_iff. apply Qle_bool_iff in Hm. lra.
Qed.

End PeakFacts.

Module Peaks.
Import JS NumberFacts ArrayFacts DecompositionFacts SmoothingFacts PeakFacts.
Import Statistics.
Import Vocabulary.

(** The peaks that [findPeaks] returns are in the order of the
    series, at positions that have a neighbour on both sides, and no two
    of them are at neighbouring positions: the index of a peak is at least
    the index of the peak before it plus 2.  This holds for every series
    and every threshold. *)
Theorem findPeaks_spaced (d : list number) (minProminence : number) :
  Forall (fun i => (1 <= i)%nat /\ (i + 1 < length d)%nat)
         (map p_index (findPeaks d minProminence))
  /\ Sorted (fun a b => (a + 2 <= b)%nat)
            (map p_index (findPeaks d minProminence)).
Proof.
  rewrite findPeaks_rounds. split.
  - eapply List.Forall_impl; [|apply peaks_in_range]. cbn. intros; lia.
  - apply peaks_spaced.
Qed.



(** On a series of finite numbers a threshold that is not positive
    filters nothing: the peaks are exactly the positions, in order, whose
    value is above both neighbours, because the prominence of such a
    position is positive. *)
Theorem findPeaks_all_local_maxima
    (d : list number) (lo hi : Q) (minProminence : number) :
  Forall (within lo hi) d -> leb minProminence zero = true ->
  map p_index (findPeaks d minProminence)
  = List.filter (fun i => gtb (Array_get d i) (Array_get d (i - 1))
                     && gtb (Array_get d i) (Array_get d (i + 1)))
           (seq 1 (length d - 2)).
Proof.
  intros Hd Hm. rewrite findPeaks_rounds.
  destruct (Nat.le_gt_cases (length d) 2) as [H | H].
  - replace (length d - 2)%nat with 0%nat by lia. reflexivity.
  - apply (peaks_filter lo hi); [assumption|assumption|lia|lia].
Qed.

(** The theorem at the series 1, 3, 2, 5, 4 with the threshold 0. *)
Lemma findPeaks_all_local_maxima_witness :
  map p_index (findPeaks [Num 1; Num 3; Num 2; Num 5; Num 4] zero) = [1; 3]%nat.
Proof.
  rewrite (findPeaks_all_local_maxima _ 1 5).
  - reflexivity.
  - repeat constructor; eexists; (split; [reflexivity|lra]).
  - reflexivity.
Defined.

End Peaks.

(** ** The facade: windows, quality, confidence, outcome *)

Module QualityFacts.
Import JS NumberFacts ArrayFacts DecompositionFacts SmoothingFacts Types Analyzer.
Import Vocabulary.

Lemma nth_error_seq_lt (s m k : nat) :
  (k < m)%nat -> nth_error (seq s m) k = Some (s + k)%nat.
Proof.
  revert s k. induction m as [|m IH]; intros s k H; [lia|].
  destruct k as [|k]; cbn [seq nth_error].
  - f_equal. lia.
  - rewrite IH by lia. f_equal. lia.
Qed.

Lemma filter_none {A} (l : list A) : List.filter (fun _ => false) l = [].
Proof. induction l; [reflexivity|assumption]. Qed.

(** Sums and means of finite numbers between two bounds. *)
Lemma fold_add_within (lo hi : Q) (l : list number) (a : Q) :
  Forall (within lo hi) l ->
  exists a', fold_left add l (Num a) = Num a'
             /\ a + lo * inject_Z (Z.of_nat (length l)) <= a'
             /\ a' <= a + hi * inject_Z (Z.of_nat (length l)).
Proof.
  intros Hl. revert a. induction Hl as [|x l (q & -> & Hq) _ IH]; intros a.
  - exists a. split; [reflexivity|]. cbn [length].
    change (inject_Z (Z.of_nat 0)) with 0. lra.
  - cbn [fold_left add]. destruct (IH (a + q)) as (a' & -> & H1 & H2).
    exists a'. split; [reflexivity|].
    assert (E : inject_Z (Z.of_nat (length (Num q :: l)))
                == inject_Z (Z.of_nat (length l)) + 1).
    { cbn [length]. rewrite Nat2Z.inj_succ, <- Z.add_1_r, inject_Z_plus.
      reflexivity. }
    rewrite E. split; nra.
Qed.

Lemma mean_within (lo hi : Q) (l : list number) :
  l <> [] -> Forall (within lo hi) l -> within lo hi (Lodash.mean l).
Proof.
  intros Hne Hl. destruct l as [|x l]; [congruence|].
  unfold Lodash.mean. cbn [Lodash.sum].
  inversion Hl as [|? ? (q & -> & Hq) Hl']; subst.
  destruct (fold_add_within lo hi l q Hl') as (a & -> & H1 & H2).
  unfold of_nat. cbn [div].
  assert (E : inject_Z (Z.of_nat (length (Num q :: l)))
              == inject_Z (Z.of_nat (length l)) + 1).
  { cbn [length]. rewrite Nat2Z.inj_succ, <- Z.add_1_r, inject_Z_plus.
    reflexivity. }
  assert (Hn : 0 <= inject_Z (Z.of_nat (length l))).
  { change 0 with (inject_Z 0). rewrite <- Zle_Qle. lia. }
  set (n := inject_Z (Z.of_nat (length (Num q :: l)))) in *.
  rewrite Qeq_bool_false_pos by lra.
  exists (a / n). split; [reflexivity|].
  split.
  - apply Qle_shift_div_l; [lra|]. nra.
  - apply Qle_shift_div_r; [lra|]. nra.
Qed.

Lemma third_within (a b c : Q) :
  0 <= a <= 1 -> 0 <= b <= 1 -> 0 <= c <= 1 ->
  exists r, div (add (add (Num a) (Num b)) (Num c)) (Num 3) = Num r
            /\ r == (a + b + c) / 3 /\ 0 <= r <= 1.
Proof.
  intros Ha Hb Hc. exists ((a + b + c) / 3). split; [reflexivity|].
  split; [reflexivity|].
  split; [apply Qle_shift_div_l; lra|apply Qle_shift_div_r; lra].
Qed.

Section QualityOfData.
Context {ChangePoint Stats Insights : Type}.
Variable parts : Parts ChangePoint Stats Insights.

Lemma assessDataQuality_value this t :
  data this <> [] ->
  assessTimeliness parts this = Return (Num t) -> 0 <= t <= 1 ->
  exists q,
    assessDataQuality parts this = Return (Num q)
    /\ q == ((if forallb (fun x => negb (isNaN x)) (data this) then 2 else 1) + t) / 3
    /\ 1 # 3 <= q <= 1.
Proof.
  intros Hne Ht Hb. unfold assessDataQuality. rewrite Ht, filter_none.
  unfold of_nat, one, zero. cbn [length div sub neg add mbind completion_bind].
  assert (Hn : 0 < inject_Z (Z.of_nat (length (data this)))).
  { change 0 with (inject_Z 0). rewrite <- Zlt_Qlt.
    destruct (data this); [congruence|cbn [length]; lia]. }
  rewrite Qeq_bool_false_pos by assumption.
  cbn [neg add].
  set (z := inject_Z (Z.of_nat 0) / inject_Z (Z.of_nat (length (data this)))).
  assert (Hz : z == 0) by (subst z; unfold Qdiv; apply Qmult_0_l).
  destruct (forallb (fun x => negb (isNaN x)) (data this)); cbn [add div].
  - change (Qeq_bool 3 0) with false. cbv iota.
    eexists. split; [reflexivity|].
    match goal with |- ?q == ?r /\ _ =>
      assert (E : q == r) by (rewrite Hz; field) end.
    split; [exact E|]. rewrite E.
    split; [apply Qle_shift_div_l; lra|apply Qle_shift_div_r; lra].
  - change (Qeq_bool 3 0) with false. cbv iota.
    eexists. split; [reflexivity|].
    match goal with |- ?q == ?r /\ _ =>
      assert (E : q == r) by (rewrite Hz; field) end.
    split; [exact E|]. rewrite E.
    split; [apply Qle_shift_div_l; lra|apply Qle_shift_div_r; lra].
Qed.

End QualityOfData.

End QualityFacts.

Module Quality.
Import JS NumberFacts ArrayFacts DecompositionFacts SmoothingFacts Types Analyzer.
Import QualityFacts.
Import Vocabulary.

(** With a positive context window of [c] values on a series of [n]
    values, [generateWindows] yields [n - c] windows, none when
    [c >= n]; the window at position [k] holds the [c] values
    [data[k] .. data[k + c - 1]], starts at [timestamps[k]] and ends at
    [timestamps[k + c]].  Since [k + c < n], the last value of the series
    is in no window. *)
Theorem generateWindows_spec (this : PatternAnalyzer) :
  (0 < contextWindow this)%Z ->
  length (generateWindows this)
  = (length (data this) - Z.to_nat (contextWindow this))%nat
  /\ forall k : nat,
       (k + Z.to_nat (contextWindow this) < length (data this))%nat ->
       exists w,
         nth_error (generateWindows this) k = Some w
         /\ w_start w = Array_get (timestamps this) k
         /\ w_end w
            = Array_get (timestamps this) (k + Z.to_nat (contextWindow this))
         /\ w_data w
            = firstn (Z.to_nat (contextWindow this)) (skipn k (data this))
         /\ length (w_data w) = Z.to_nat (contextWindow this).
Proof.
  intros Hcw. unfold generateWindows. split.
  - rewrite length_map, length_seq. lia.
  - intros k Hk. rewrite nth_error_map, nth_error_seq_lt by lia.
    cbn [option_map Nat.add]. eexists. split; [reflexivity|].
    cbn [w_start w_end w_data]. split; [reflexivity|].
    assert (Es : Array_slice (data this) (Z.of_nat k)
                             (Z.of_nat k + contextWindow this)
                 = firstn (Z.to_nat (contextWindow this)) (skipn k (data this))).
    { replace (Z.of_nat k + contextWindow this)%Z
        with (Z.of_nat (k + Z.to_nat (contextWindow this))) by lia.
      rewrite Array_slice_nat. f_equal; [lia|f_equal; lia]. }
    split; [|split].
    + unfold Array_getZ.
      destruct (Z.ltb_spec (Z.of_nat k + contextWindow this) 0); [lia|].
      f_equal. lia.
    + exact Es.
    + rewrite Es, length_firstn, length_skipn. lia.
Qed.

(** The theorem at five values with a window of 2. *)
Lemma generateWindows_spec_witness :
  length
    (generateWindows
       {| data := [Num 1; Num 2; Num 3; Num 4; Num 5];
          timestamps := [Num 10; Num 20; Num 30; Num 40; Num 50];
          domain := None; contextWindow := 2 |}) = 3%nat.
Proof.
  apply (generateWindows_spec
           {| data := [Num 1; Num 2; Num 3; Num 4; Num 5];
              timestamps := [Num 10; Num 20; Num 30; Num 40; Num 50];
              domain := None; contextWindow := 2 |}).
  reflexivity.
Defined.





End Quality.

Module Outcome.
Import JS NumberFacts Types Analyzer.
Import Vocabulary.

(** Whatever [analyzeHolistically] throws is the [AnalysisError]
    "Analysis failed" with the code [ANALYSIS_FAILED], carrying as its
    context the error of the step that failed; no other error leaves
    it. *)
Theorem analyzeHolistically_throws_ANALYSIS_FAILED
    {ChangePoint Stats Insights : Type}
    (parts : Parts ChangePoint Stats Insights) (this : PatternAnalyzer)
    (e : Thrown) :
  analyzeHolistically parts this = Throw e ->
  kind_of e = Some AnalysisFailed
  /\ exists cause,
       e = AnalysisError "Analysis failed" ANALYSIS_FAILED (ErrorContext cause)
       /\ (analyzeTimeSeries parts this = Throw cause
           \/ computeStatistics parts this = Throw cause
           \/ analyzeDomainSpecific parts this = Throw cause
           \/ assessDataQuality parts this = Throw cause
           \/ exists ts st,
                calculateOverallConfidence parts this ts st = Throw cause).
Proof.
  unfold analyzeHolistically.
  destruct (analyzeTimeSeries parts this) as [ts|e1] eqn:E1;
    cbn [mbind completion_bind try_catch].
  2:{ intros [= <-]. split; [reflexivity|]. exists e1. split; [reflexivity|tauto]. }
  destruct (computeStatistics parts this) as [st|e2] eqn:E2;
    cbn [mbind completion_bind try_catch].
  2:{ intros [= <-]. split; [reflexivity|]. exists e2. split; [reflexivity|tauto]. }
  destruct (analyzeDomainSpecific parts this) as [di|e3] eqn:E3;
    cbn [mbind completion_bind try_catch].
  2:{ intros [= <-]. split; [reflexivity|]. exists e3. split; [reflexivity|tauto]. }
  destruct (calculateOverallConfidence parts this ts st) as [conf|e4] eqn:E4;
    cbn [mbind completion_bind try_catch].
  2:{ intros [= <-]. split; [reflexivity|]. exists e4. split; [reflexivity|].
      do 4 right. now exists ts, st. }
  destruct (assessDataQuality parts this) as [qual|e5] eqn:E5;
    cbn [mbind completion_bind try_catch].
  2:{ intros [= <-]. split; [reflexivity|]. exists e5. split; [reflexivity|tauto]. }
  discriminate.
Qed.

(** The theorem at the constant series with the tag "crypto". *)
Lemma analyzeHolistically_throws_ANALYSIS_FAILED_witness :
  kind_of
    (AnalysisError "Analysis failed" ANALYSIS_FAILED
       (ErrorContext
          (AnalysisError "Invalid domain specified" INVALID_DOMAIN NoContext)))
  = Some AnalysisFailed.
Proof.
  apply (analyzeHolistically_throws_ANALYSIS_FAILED StandIns.quietParts
           (StandIns.constantSeries (Some "crypto"%string))).
  reflexivity.
Defined.

(** What [analyzeHolistically] returns has the time series and the
    statistics that its steps returned, no correlation at all, at most
    three recommendations, and domain insights exactly when a domain tag
    other than the empty one was given, which is then one of
    "financial", "medical" and "environmental". *)
Theorem analyzeHolistically_returns
    {ChangePoint Stats Insights : Type}
    (parts : Parts ChangePoint Stats Insights) (this : PatternAnalyzer)
    (r : HolisticAnalysis ChangePoint Stats Insights) :
  analyzeHolistically parts this = Return r ->
  analyzeTimeSeries parts this = Return (timeSeries r)
  /\ computeStatistics parts this = Return (statistics r)
  /\ correlations r = []
  /\ assessDataQuality parts this = Return (m_quality (metadata r))
  /\ (length (m_recommendations (metadata r)) <= 3)%nat
  /\ (domainInsights r = None <-> domain this = None \/ domain this = Some ""%string)
  /\ (domainInsights r <> None ->
      domain this = Some "financial"%string
      \/ domain this = Some "medical"%string
      \/ domain this = Some "environmental"%string).
Proof.
  unfold analyzeHolistically.
  destruct (analyzeTimeSeries parts this) as [ts|e1] eqn:E1;
    cbn [mbind completion_bind try_catch]; [|discriminate].
  destruct (computeStatistics parts this) as [st|e2] eqn:E2;
    cbn [mbind completion_bind try_catch]; [|discriminate].
  destruct (analyzeDomainSpecific parts this) as [di|e3] eqn:E3;
    cbn [mbind completion_bind try_catch]; [|discriminate].
  destruct (calculateOverallConfidence parts this ts st) as [conf|e4] eqn:E4;
    cbn [mbind completion_bind try_catch]; [|discriminate].
  destruct (assessDataQuality parts this) as [qual|e5] eqn:E5;
    cbn [mbind completion_bind try_catch]; [|discriminate].
  intros [= <-]. cbn [timeSeries statistics correlations metadata m_quality
                      m_recommendations domainInsights].
  split; [reflexivity|]. split; [reflexivity|].
  split.
  { unfold analyzeCorrelations.
    induction (generateWindows this) as [|w ws IH]; [reflexivity|].
    cbn [flat_map]. rewrite IH. reflexivity. }
  split; [reflexivity|].
  split.
  { unfold generateRecommendations. rewrite !length_app.
    destruct (existsb _ _); destruct (gtb (skewness parts st) one);
      destruct di as [ins|];
      try destruct (financialDailyVolatility parts ins) as [v|];
      try destruct (gtb v (Num (2 # 10))); cbn [length]; lia. }
  unfold analyzeDomainSpecific in E3.
  destruct (domain this) as [d|].
  2:{ injection E3 as <-. split; [tauto|congruence]. }
  destruct (String.eqb_spec d "") as [Hd | H0].
  { subst d. injection E3 as <-. split; [tauto|congruence]. }
  destruct (String.eqb_spec d "financial") as [Hd | H1].
  { subst d. destruct (analyzeFinancialData parts _ _); [|discriminate].
    injection E3 as <-. split; [|tauto].
    split; [discriminate|]. intros [H | H]; congruence. }
  destruct (String.eqb_spec d "medical") as [Hd | H2].
  { subst d. destruct (analyzeMedicalData parts _ _); [|discriminate].
    injection E3 as <-. split; [|tauto].
    split; [discriminate|]. intros [H | H]; congruence. }
  destruct (String.eqb_spec d "environmental") as [Hd | H3].
  { subst d. destruct (analyzeEnvironmentalData parts _ _); [|discriminate].
    injection E3 as <-. split; [|tauto].
    split; [discriminate|]. intros [H | H]; congruence. }
  discriminate.
Qed.

(** The theorem at the constant series without a domain. *)
Lemma analyzeHolistically_returns_witness :
  exists r,
    analyzeHolistically StandIns.quietParts (StandIns.constantSeries None)
    = Return r
    /\ correlations r = [] /\ domainInsights r = None.
Proof.
  eexists. split; [reflexivity|].
  pose proof (analyzeHolistically_returns StandIns.quietParts
                (StandIns.constantSeries None) _ eq_refl)
    as (_ & _ & Hc & _ & _ & Hd & _).
  split; [exact Hc|]. apply Hd. now left.
Defined.

End Outcome.

(** ** The robust trend looks back *)

Module TrendShapeFacts.
Import JS NumberFacts ArrayFacts DecompositionFacts SmoothingFacts Ultimate.
Import Vocabulary.

Lemma mapi_from_app {A B} (f : A -> nat -> B) k l1 l2 :
  mapi_from f k (l1 ++ l2)
  = mapi_from f k l1 ++ mapi_from f (k + length l1) l2.
Proof.
  revert k. induction l1 as [|x l1 IH]; intros k; cbn [app mapi_from length].
  - now rewrite Nat.add_0_r.
  - rewrite IH. do 3 f_equal. lia.
Qed.

Lemma Forall_mapi_from_ge {A B} (f : A -> nat -> B) (P : B -> Prop) k l :
  (forall x j, In x l -> (k <= j)%nat -> P (f x j)) -> Forall P (mapi_from f k l).
Proof.
  revert k. induction l as [|x l IH]; intros k H; cbn [mapi_from]; constructor.
  - apply H; [now left|lia].
  - apply IH. intros y j Hy Hj. apply H; [now right|lia].
Qed.

Lemma firstn_plus {A} (c m : nat) (l : list A) :
  firstn (c + m) l = firstn c l ++ firstn m (skipn c l).
Proof.
  revert l. induction c as [|c IH]; intros l; [reflexivity|].
  destruct l as [|x l]; cbn [Nat.add firstn skipn app].
  - now destruct m.
  - now rewrite IH.
Qed.

Lemma sum_app l1 l2 :
  l1 <> [] -> Lodash.sum (l1 ++ l2) = fold_left add l2 (Lodash.sum l1).
Proof.
  destruct l1 as [|x l1]; [congruence|]. intros _.
  cbn [app Lodash.sum]. apply fold_left_app.
Qed.

Lemma fold_add_zeros l a :
  Forall (fun x => exists z, x = Num z /\ z == 0) l ->
  exists a', fold_left add l (Num a) = Num a' /\ a' == a.
Proof.
  intros Hl. revert a. induction Hl as [|x l (z & -> & Hz) _ IH]; intros a.
  - exists a. split; reflexivity.
  - cbn [fold_left add]. destruct (IH (a + z)) as (a' & -> & Ha).
    exists a'. split; [reflexivity|]. rewrite Ha, Hz. ring.
Qed.

(** At and after the position [contextWindow] of a window the tricube
    weight is zero. *)
Lemma tricubeWeight_beyond (cw : Z) (j : nat) :
  (0 < cw)%Z -> (cw <= Z.of_nat j)%Z ->
  tricubeWeight (div (of_nat j) (of_Z cw)) = zero.
Proof.
  intros Hcw Hj. unfold of_nat, of_Z. cbn [div].
  assert (Hpos : 0 < inject_Z cw).
  { change 0 with (inject_Z 0). rewrite <- Zlt_Qlt. lia. }
  rewrite Qeq_bool_false_pos by assumption.
  unfold tricubeWeight. cbn [Math_abs geb leb one].
  replace (Qle_bool 1 (Qabs (inject_Z (Z.of_nat j) / inject_Z cw))) with true;
    [reflexivity|].
  symmetry. apply Qle_bool_iff.
  eapply Qle_trans; [|apply Qle_Qabs].
  apply Qle_shift_div_l; [assumption|].
  rewrite Qmult_1_l. rewrite <- Zle_Qle. lia.
Qed.

Section Windows.
Variable cw : Z.
Hypothesis Hcw : (0 < cw)%Z.

Let g : number -> nat -> Weighted :=
  fun v j => {| value := v; weight := tricubeWeight (div (of_nat j) (of_Z cw)) |}.

(** The weighted mean of a window whose first [contextWindow] values are
    [P] and whose other values are [R] is the weighted mean of [P]. *)
Lemma regression_of_prefix (P R : list number) :
  length P = Z.to_nat cw -> Forall finite P -> Forall finite R ->
  exists a s,
    Lodash.sum (map (fun w => mul (value w) (weight w)) (mapi_from g 0 P)) = Num a
    /\ Lodash.sum (map weight (mapi_from g 0 P)) = Num s
    /\ 0 < s
    /\ exists a' s',
         computeLocalRegression (mapi_from g 0 (P ++ R)) = Num (a' / s')
         /\ a' == a /\ s' == s.
Proof.
  intros Hlen HP HR.
  destruct (weights_of_window cw Hcw _ eq_refl) as (Hw & w0 & Hw0 & Hw01).
  assert (Hne : mapi_from g 0 P <> []).
  { destruct P; [simpl in Hlen; lia|discriminate]. }
  destruct (sum_finite
              (map (fun w => mul (value w) (weight w)) (mapi_from g 0 P)))
    as [a Ea].
  { apply Forall_map. apply Forall_mapi_from. intros x j Hx.
    destruct (proj1 (List.Forall_forall finite P) HP x Hx) as [q ->].
    unfold g. cbn [value weight]. destruct (Hw j) as (w & -> & _).
    eexists; reflexivity. }
  assert (Es : exists s, Lodash.sum (map weight (mapi_from g 0 P)) = Num s
                         /\ 0 < s).
  { destruct P as [|p0 P']; [simpl in Hlen; lia|].
    cbn [mapi_from map Lodash.sum].
    change (weight (g p0 0%nat))
      with (tricubeWeight (div (of_nat 0) (of_Z cw))).
    cbv beta in Hw0. rewrite Hw0.
    destruct (fold_add_nonneg (map weight (mapi_from g 1 P')) w0) as (s & -> & Hs).
    { apply Forall_map. apply Forall_mapi_from. intros x j _. apply Hw. }
    exists s. split; [reflexivity|lra]. }
  destruct Es as (s & Es & Hs).
  exists a, s. split; [assumption|]. split; [assumption|]. split; [assumption|].
  unfold computeLocalRegression, Lodash.sumBy.
  rewrite mapi_from_app, !map_app, !sum_app
    by (intros E; apply map_eq_nil in E; contradiction).
  rewrite Ea, Es. cbn [Nat.add].
  destruct (fold_add_zeros
              (map (fun w => mul (value w) (weight w))
                   (mapi_from g (length P) R)) a) as (a' & -> & Ha).
  { apply Forall_map. apply Forall_mapi_from_ge. intros x j Hx Hj.
    destruct (proj1 (List.Forall_forall finite R) HR x Hx) as [q ->].
    unfold g. cbn [value weight]. rewrite tricubeWeight_beyond by lia.
    exists (q * 0). split; [reflexivity|ring]. }
  destruct (fold_add_zeros (map weight (mapi_from g (length P) R)) s)
    as (s' & -> & Hs').
  { apply Forall_map. apply Forall_mapi_from_ge. intros x j Hx Hj.
    unfold g. cbn [weight]. rewrite tricubeWeight_beyond by lia.
    exists 0. split; reflexivity. }
  exists a', s'. cbn [div]. rewrite Qeq_bool_false_pos by lra.
  repeat split; assumption.
Qed.

End Windows.

(** From the position [contextWindow] on, the window of a position is
    made of the [contextWindow] values before it, then of the value at
    the position and of those after it. *)
Lemma getLocalWindow_split this i :
  (0 < contextWindow this)%Z -> (contextWindow this <= Z.of_nat i)%Z ->
  (i < length (data this))%nat ->
  getLocalWindow this i
  = mapi_from
      (fun v j =>
         {| value := v;
            weight := tricubeWeight (div (of_nat j) (of_Z (contextWindow this))) |})
      0
      (skipn (i - Z.to_nat (contextWindow this)) (firstn i (data this))
       ++ firstn (Nat.min (length (data this))
                          (i + Z.to_nat (contextWindow this) + 1) - i)
                 (skipn i (data this))).
Proof.
  intros Hcw Hi Hn. unfold getLocalWindow, Array_mapi. f_equal.
  set (c := Z.to_nat (contextWindow this)).
  replace (Z.max 0 (Z.of_nat i - contextWindow this))
    with (Z.of_nat (i - c)) by lia.
  replace (Z.min (Z.of_nat (length (data this)))
                 (Z.of_nat i + contextWindow this + 1))
    with (Z.of_nat (Nat.min (length (data this)) (i + c + 1))) by lia.
  rewrite Array_slice_nat.
  replace (Nat.min (i - c) (length (data this))) with (i - c)%nat by lia.
  replace (Nat.min (Nat.min (length (data this)) (i + c + 1))
                   (length (data this)) - (i - c))%nat
    with (c + (Nat.min (length (data this)) (i + c + 1) - i))%nat by lia.
  rewrite firstn_plus. f_equal.
  - rewrite firstn_skipn_comm. do 2 f_equal. lia.
  - rewrite skipn_skipn. do 2 f_equal. lia.
Qed.

End TrendShapeFacts.

Module TrendShape.
Import JS NumberFacts ArrayFacts DecompositionFacts SmoothingFacts TrendShapeFacts.
Import Ultimate.
Import Vocabulary.

(** With a positive context window [c], the robust trend at a position
    [i >= c] of a series of finite numbers is the weighted mean of the
    [c] values before the position: the value at the position and the
    values after it have weight zero.  So two series that agree before
    the position have the same trend there, whatever they are from the
    position on. *)
Theorem computeRobustTrend_looks_back (this1 this2 : PatternAnalyzer) (i : nat) :
  contextWindow this1 = contextWindow this2 ->
  (0 < contextWindow this1)%Z -> (contextWindow this1 <= Z.of_nat i)%Z ->
  (i < length (data this1))%nat -> (i < length (data this2))%nat ->
  Forall finite (data this1) -> Forall finite (data this2) ->
  firstn i (data this1) = firstn i (data this2) ->
  same (Array_get (computeRobustTrend this1) i)
       (Array_get (computeRobustTrend this2) i).
Proof.
  intros Hcw H0 Hi H1 H2 Hf1 Hf2 Hp.
  assert (Hv : forall this, (i < length (data this))%nat ->
                 Array_get (computeRobustTrend this) i
                 = computeLocalRegression (getLocalWindow this i)).
  { intros this Hlt. unfold computeRobustTrend.
    destruct (nth_error (data this) i) as [x|] eqn:E;
      [|apply nth_error_None in E; lia].
    now rewrite (Array_get_mapi _ _ _ _ E). }
  rewrite (Hv this1 H1), (Hv this2 H2).
  rewrite (getLocalWindow_split this1 i H0 Hi H1).
  rewrite (getLocalWindow_split this2 i) by (try rewrite <- Hcw; assumption).
  rewrite <- Hcw, <- Hp.
  set (P := skipn (i - Z.to_nat (contextWindow this1)) (firstn i (data this1))).
  assert (HlenP : length P = Z.to_nat (contextWindow this1)).
  { subst P. rewrite length_skipn, length_firstn. lia. }
  assert (HfP : Forall finite P).
  { subst P. now apply Forall_drop, Forall_take. }
  destruct (regression_of_prefix (contextWindow this1) H0 P
              (firstn (Nat.min (length (data this1))
                               (i + Z.to_nat (contextWindow this1) + 1) - i)
                      (skipn i (data this1))) HlenP HfP)
    as (a1 & s1 & Ea1 & Es1 & Hs1 & a1' & s1' & -> & Ha1 & Hs1').
  { now apply Forall_take, Forall_drop. }
  destruct (regression_of_prefix (contextWindow this1) H0 P
              (firstn (Nat.min (length (data this2))
                               (i + Z.to_nat (contextWindow this1) + 1) - i)
                      (skipn i (data this2))) HlenP HfP)
    as (a2 & s2 & Ea2 & Es2 & Hs2 & a2' & s2' & -> & Ha2 & Hs2').
  { now apply Forall_take, Forall_drop. }
  rewrite Ea1 in Ea2. rewrite Es1 in Es2.
  injection Ea2 as <-. injection Es2 as <-.
  cbn [same]. rewrite Ha1, Ha2, Hs1', Hs2'. reflexivity.
Qed.

(** The theorem at two series that agree on their first two values, with
    a context window of 2, at the position 2. *)
Lemma computeRobustTrend_looks_back_witness :
  same
    (Array_get
       (computeRobustTrend
          (constructor [Num 1; Num 2; Num 3; Num 4] [Num 1; Num 2; Num 3; Num 4]
             {| opt_domain := None; opt_contextWindow := Some 2%Z |})) 2)
    (Array_get
       (computeRobustTrend
          (constructor [Num 1; Num 2; Num 30; Num 40; Num 50]
             [Num 1; Num 2; Num 3; Num 4; Num 5]
             {| opt_domain := None; opt_contextWindow := Some 2%Z |})) 2).
Proof.
  apply computeRobustTrend_looks_back;
    try reflexivity; try (simpl; lia);
    repeat constructor; eexists; reflexivity.
Defined.

End TrendShape.

(** ** Cycles and the seasonal component *)

Module CycleFacts.
Import JS NumberFacts ArrayFacts DecompositionFacts PeriodicityFacts Ultimate.
Import Vocabulary.

Lemma map_mapi_from {A B C} (h : B -> C) (f : A -> nat -> B) k l :
  map h (mapi_from f k l) = mapi_from (fun x i => h (f x i)) k l.
Proof.
  revert k. induction l as [|x l IH]; intros k; cbn [mapi_from map];
    [reflexivity|now rewrite IH].
Qed.

Lemma mapi_from_positions {A} (l : list A) k :
  mapi_from (fun _ i => (i + 1)%nat) k l = seq (k + 1) (length l).
Proof.
  revert k. induction l as [|x l IH]; intros k; cbn [mapi_from length seq];
    [reflexivity|]. now rewrite IH.
Qed.

Lemma NoDup_map_filter {A B} (f : A -> B) (p : A -> bool) l :
  List.NoDup (map f l) -> List.NoDup (map f (List.filter p l)).
Proof.
  induction l as [|x l IH]; cbn [map List.filter]; intros H; [constructor|].
  inversion H as [|? ? Hx Hl]; subst.
  destruct (p x); [|now apply IH].
  cbn [map]. constructor; [|now apply IH].
  intros Hin. apply Hx. apply in_map_iff in Hin as (y & Ey & Hy).
  apply filter_In in Hy as [Hy _]. apply in_map_iff. now exists y.
Qed.

Lemma findPeaks_distinct d : List.NoDup (map index (findPeaks d)).
Proof.
  unfold findPeaks. apply NoDup_map_filter.
  unfold Array_mapi. rewrite map_mapi_from. cbn [index].
  rewrite mapi_from_positions. apply List.seq_NoDup.
Qed.

End CycleFacts.

Module Cycles.
Import JS NumberFacts ArrayFacts DecompositionFacts PeriodicityFacts CycleFacts.
Import Ultimate.
Import Vocabulary.

(** No two cycles that [detectPeriodicity] reports have the same
    period. *)
Theorem detectPeriodicity_distinct_periods (this : PatternAnalyzer) :
  List.NoDup (map period (detectPeriodicity this)).
Proof.
  unfold detectPeriodicity.
  eapply Permutation.Permutation_NoDup.
  - apply Permutation_map. apply Array_sort_perm.
  - rewrite map_map. cbn [period]. apply findPeaks_distinct.
Qed.



End Cycles.

(** ** The autocorrelation of analyzers/statistics.ts beyond the series *)

Module Lags.
Import JS NumberFacts ArrayFacts AutocorrelationFacts Statistics.
Import Vocabulary.

(** The entry of [calculateAutocorrelation] at a position [k] below
    [maxLag] has the lag [k + 1]; when the series has at most [k + 1]
    values no product is summed, and its coefficient and its significance
    are [NaN].  With the default of 20 lags a series of fewer than 21
    values always has such entries. *)
Theorem calculateAutocorrelation_beyond_series
    (Math_sqrt Math_exp : number -> number)
    (d : list number) (maxLag k : nat) :
  (k < maxLag)%nat -> (length d <= k + 1)%nat ->
  nth_error (calculateAutocorrelation Math_sqrt Math_exp d maxLag) k
  = Some {| lag := k + 1; coefficient := NaN; significance := NaN |}.
Proof.
  intros Hk Hn. unfold calculateAutocorrelation.
  rewrite range_from_1, nth_error_map.
  replace (nth_error (seq 1 maxLag) k) with (Some (1 + k)%nat).
  2:{ symmetry. clear Hn. revert k Hk. generalize 1%nat.
      induction maxLag as [|m IH]; intros s k Hk; [lia|].
      destruct k as [|k]; cbn [seq nth_error].
      - f_equal. lia.
      - rewrite IH by lia. f_equal. lia. }
  cbn [option_map]. unfold lagged_products.
  replace (length d - (1 + k))%nat with 0%nat by lia.
  cbn [seq fold_left].
  assert (E : div zero (mul zero (Lodash.variance d)) = NaN).
  { destruct (Lodash.variance d) as [q| | |]; reflexivity. }
  rewrite E, calculateSignificance_NaN. do 2 f_equal. lia.
Qed.

(** The theorem at a series of two values and the default of 20 lags, at
    the lag 5. *)
Lemma calculateAutocorrelation_beyond_series_witness :
  nth_error (calculateAutocorrelation (fun x => x) (fun x => x)
               [Num 1; Num 2] 20) 4
  = Some {| lag := 4 + 1; coefficient := NaN; significance := NaN |}.
Proof.
  apply calculateAutocorrelation_beyond_series; simpl; lia.
Defined.

End Lags.

(** ** The smoothed series of the trend analysis *)

Module Smoothed.
Import JS NumberFacts ArrayFacts DecompositionFacts SmoothingFacts RegressionFacts.
Import Detectors.
Import Vocabulary.


End Smoothed.

(** ** The value at risk at any level *)

Module RiskLevelFacts.
Import JS NumberFacts ArrayFacts DecompositionFacts ValueAtRiskFacts Ultimate.
Import Vocabulary.

Lemma inject_nat_nonneg (n : nat) : 0 <= inject_Z (Z.of_nat n).
Proof. change 0 with (inject_Z 0). rewrite <- Zle_Qle. lia. Qed.

Lemma floor_nonneg (q : Q) : 0 <= q -> (0 <= Qfloor q)%Z.
Proof. intros H. change 0%Z with (Qfloor 0). now apply Qfloor_resp_le. Qed.

(** The index that [calculateValueAtRisk] reads at a level between 0
    and 1. *)
Lemma quantile_index (returns : list number) (c : Q) :
  0 <= c <= 1 ->
  Array_at (Lodash.sortBy returns)
           (Math_floor (mul (sub one (Num c)) (of_nat (length returns))))
  = nth_error (Lodash.sortBy returns)
      (Z.to_nat (Qfloor ((1 + - c) * inject_Z (Z.of_nat (length returns))))).
Proof.
  intros Hc. unfold of_nat. cbn [sub add neg mul one].
  apply Array_at_floor.
  pose proof (inject_nat_nonneg (length returns)). nra.
Qed.

Lemma length_sortBy l : length (Lodash.sortBy l) = length l.
Proof. symmetry. apply Permutation_length. apply Array_sort_perm. Qed.

Lemma Array_at_nil {A} (i : number) : Array_at (@nil A) i = None.
Proof.
  destruct i as [q| | |]; cbn [Array_at]; try reflexivity.
  destruct (_ && _); [|reflexivity]. now destruct (Z.to_nat (Qfloor q)).
Qed.

End RiskLevelFacts.

Module RiskLevels.
Import JS NumberFacts ArrayFacts DecompositionFacts ValueAtRiskFacts RiskLevelFacts.
Import Ultimate.
Import Vocabulary.



(** At the confidence level 1 the value at risk of a series with at least
    one return and no return that is NaN is the smallest return; at the
    level 0 the index read is the number of returns, and nothing is there
    ([undefined]), as for every level when the series has fewer than two
    prices. *)
Theorem calculateValueAtRisk_extremes (ln : Q -> Q) (this : PatternAnalyzer) :
  calculateValueAtRisk ln this (Num 0) = None
  /\ ((length (data this) <= 1)%nat ->
      forall conf, calculateValueAtRisk ln this conf = None)
  /\ (calculateReturns ln this <> [] ->
      Forall is_number (calculateReturns ln this) ->
      exists m,
        calculateValueAtRisk ln this (Num 1) = Some m
        /\ In m (calculateReturns ln this)
        /\ forall r, In r (calculateReturns ln this) -> leb m r = true).
Proof.
  unfold calculateValueAtRisk.
  set (returns := calculateReturns ln this).
  split; [|split].
  - rewrite quantile_index by lra.
    apply nth_error_None. rewrite length_sortBy.
    assert (E : (1 + - 0) * inject_Z (Z.of_nat (length returns))
                == inject_Z (Z.of_nat (length returns))) by ring.
    rewrite (Qfloor_comp _ _ E), Qfloor_Z. lia.
  - intros Hn conf.
    assert (E : returns = []).
    { apply length_zero_iff_nil. subst returns.
      rewrite length_calculateReturns. lia. }
    rewrite E. apply Array_at_nil.
  - intros Hne Hnum. rewrite quantile_index by lra.
    assert (E : (1 + - (1)) * inject_Z (Z.of_nat (length returns)) == inject_Z 0)
      by (change (inject_Z 0) with 0; ring).
    rewrite (Qfloor_comp _ _ E), Qfloor_Z. change (Z.to_nat 0) with 0%nat.
    assert (Hperm : Permutation returns (Lodash.sortBy returns))
      by apply Array_sort_perm.
    assert (Hsnum : Forall is_number (Lodash.sortBy returns))
      by (eapply Permutation_Forall; eassumption).
    destruct (nth_error (Lodash.sortBy returns) 0) as [m|] eqn:Em.
    2:{ apply nth_error_None in Em. rewrite length_sortBy in Em.
        destruct returns; [congruence|simpl in Em; lia]. }
    exists m. split; [reflexivity|]. split.
    + eapply Permutation_in; [symmetry; exact Hperm|].
      eapply nth_error_In; exact Em.
    + intros r Hr. eapply Permutation_in in Hr; [|exact Hperm].
      apply In_nth_error in Hr as [j Hj].
      apply (sorted_nth_error (Lodash.sortBy returns) 0 j);
        auto using sortBy_sorted. lia.
Qed.

End RiskLevels.

(** ** The handler under any schedule *)

Module ScheduleFacts.
Import Types Handler HandlerFacts.
Import Vocabulary.

Lemma length_filter_insert {A} (p : A -> bool) (l : list A) (i : nat) (x y : A) :
  l !! i = Some x ->
  (length (List.filter p (<[i := y]> l)) + (if p x then 1 else 0)
   = length (List.filter p l) + (if p y then 1 else 0))%nat.
Proof.
  intros H. pose proof (lookup_lt_Some _ _ _ H) as Hi.
  rewrite insert_take_drop by assumption.
  rewrite <- (take_drop_middle l i x H) at 3.
  rewrite !List.filter_app, !length_app. cbn [List.filter].
  destruct (p x), (p y); cbn [length]; lia.
Qed.

Lemma lookup_In_fst {A B} (l : list (A * B)) i a b :
  l !! i = Some (a, b) -> In a (map fst l).
Proof.
  intros H. apply in_map_iff. exists (a, b). split; [reflexivity|].
  apply list_elem_of_In. eapply list_elem_of_lookup_2. exact H.
Qed.

Lemma map_fst_insert {A B} (l : list (A * B)) i a b b' :
  l !! i = Some (a, b) -> map fst (<[i := (a, b')]> l) = map fst l.
Proof.
  intros H. change (fst <$> <[i := (a, b')]> l = fst <$> l).
  rewrite list_fmap_insert. apply list_insert_id.
  rewrite list_lookup_fmap, H. reflexivity.
Qed.

Section Schedules.
Context {Call Result : Type}.
Variable cacheKey : Call -> string.
Variable analyze : Call -> Completion Result.

Lemma step_measure (k : string) (i : nat) (s : Agent Call Result) :
  (computations k (step cacheKey analyze i s)
   + waiting cacheKey k (calls (step cacheKey analyze i s))
   <= computations k s + waiting cacheKey k (calls s))%nat.
Proof.
  unfold step. destruct (calls s !! i) as [[c ph]|] eqn:Hc; [|lia].
  destruct ph as [| |o]; [| |lia].
  - destruct (cache s !! cacheKey c) as [cached|];
      unfold computations, waiting; cbn [calls started List.filter].
    + pose proof (length_filter_insert
                    (fun cp => String.eqb k (cacheKey (fst cp))
                               && match snd cp with NotStarted => true | _ => false end)
                    (calls s) i (c, NotStarted) (c, Finished (Return cached)) Hc) as H.
      cbn [fst snd] in H. rewrite Bool.andb_false_r in H.
      destruct (String.eqb k (cacheKey c)); cbn [andb] in H; lia.
    + pose proof (length_filter_insert
                    (fun cp => String.eqb k (cacheKey (fst cp))
                               && match snd cp with NotStarted => true | _ => false end)
                    (calls s) i (c, NotStarted) (c, Awaiting) Hc) as H.
      cbn [fst snd] in H. rewrite Bool.andb_false_r in H.
      destruct (String.eqb k (cacheKey c)); cbn [andb length] in H |- *; lia.
  - destruct (analyze c) as [result|error];
      unfold computations, waiting; cbn [calls started].
    + pose proof (length_filter_insert
                    (fun cp => String.eqb k (cacheKey (fst cp))
                               && match snd cp with NotStarted => true | _ => false end)
                    (calls s) i (c, Awaiting) (c, Finished (Return result)) Hc) as H.
      cbn [fst snd] in H. rewrite !Bool.andb_false_r in H. lia.
    + pose proof (length_filter_insert
                    (fun cp => String.eqb k (cacheKey (fst cp))
                               && match snd cp with NotStarted => true | _ => false end)
                    (calls s) i (c, Awaiting) (c, Finished (Throw error)) Hc) as H.
      cbn [fst snd] in H. rewrite !Bool.andb_false_r in H. lia.
Qed.

Lemma run_measure (k : string) (schedule : list nat) (s : Agent Call Result) :
  (computations k (run cacheKey analyze schedule s)
   + waiting cacheKey k (calls (run cacheKey analyze schedule s))
   <= computations k s + waiting cacheKey k (calls s))%nat.
Proof.
  revert s. induction schedule as [|i schedule IH]; intros s; cbn [run fold_left].
  - lia.
  - etransitivity; [apply IH|apply step_measure].
Qed.

Lemma waiting_initial (k : string) (cs : list Call) :
  waiting cacheKey k (calls (@initial Call Result cs))
  = length (List.filter (fun c => String.eqb k (cacheKey c)) cs).
Proof.
  unfold waiting, initial. cbn [calls].
  induction cs as [|c cs IH]; [reflexivity|].
  cbn [map List.filter fst snd]. rewrite Bool.andb_true_r.
  destruct (String.eqb k (cacheKey c)); cbn [length]; now rewrite IH.
Qed.

Lemma sound_initial cs : sound cacheKey analyze cs (initial cs).
Proof.
  unfold sound, initial. cbn [calls cache]. split; [|split; [|split]].
  - rewrite map_map. cbn [fst]. apply map_id.
  - intros k r H. rewrite lookup_empty in H. discriminate.
  - intros i c r H. change (map (fun c => (c, NotStarted)) cs)
      with ((fun c => (c, @NotStarted Result)) <$> cs) in H.
    rewrite list_lookup_fmap in H. destruct (cs !! i); discriminate.
  - intros i c e H. change (map (fun c => (c, NotStarted)) cs)
      with ((fun c => (c, @NotStarted Result)) <$> cs) in H.
    rewrite list_lookup_fmap in H. destruct (cs !! i); discriminate.
Qed.

Lemma sound_step cs i s : sound cacheKey analyze cs s -> sound cacheKey analyze cs (step cacheKey analyze i s).
Proof.
  intros (Hcs & Hcache & Hret & Hthrow). unfold step.
  destruct (calls s !! i) as [[c ph]|] eqn:Hc; [|repeat split; assumption].
  assert (Hin : In c cs) by (rewrite <- Hcs; eapply lookup_In_fst; exact Hc).
  destruct ph as [| |o]; [| |repeat split; assumption].
  - destruct (cache s !! cacheKey c) as [cached|] eqn:Hk;
      unfold sound; cbn [calls cache].
    + split; [rewrite (map_fst_insert _ _ _ _ _ Hc); assumption|].
      split; [assumption|]. split.
      * intros j c0 r H. apply list_lookup_insert_Some in H
          as [(-> & [= <- <-] & _) | (_ & H)].
        -- destruct (Hcache _ _ Hk) as (c' & H1 & H2 & H3). now exists c'.
        -- now apply (Hret j).
      * intros j c0 e H. apply list_lookup_insert_Some in H
          as [(-> & [=] & _) | (_ & H)].
        now apply (Hthrow j).
    + split; [rewrite (map_fst_insert _ _ _ _ _ Hc); assumption|].
      split; [assumption|]. split.
      * intros j c0 r H. apply list_lookup_insert_Some in H
          as [(-> & [=] & _) | (_ & H)].
        now apply (Hret j).
      * intros j c0 e H. apply list_lookup_insert_Some in H
          as [(-> & [=] & _) | (_ & H)].
        now apply (Hthrow j).
  - destruct (analyze c) as [result|error] eqn:Ha;
      unfold sound; cbn [calls cache].
    + split; [rewrite (map_fst_insert _ _ _ _ _ Hc); assumption|].
      split; [|split].
      * intros k r H. apply lookup_insert_Some in H as [(<- & <-) | (_ & H)].
        -- now exists c.
        -- now apply Hcache.
      * intros j c0 r H. apply list_lookup_insert_Some in H
          as [(-> & [= <- <-] & _) | (_ & H)].
        -- now exists c.
        -- now apply (Hret j).
      * intros j c0 e H. apply list_lookup_insert_Some in H
          as [(-> & [=] & _) | (_ & H)].
        now apply (Hthrow j).
    + split; [rewrite (map_fst_insert _ _ _ _ _ Hc); assumption|].
      split; [assumption|]. split.
      * intros j c0 r H. apply list_lookup_insert_Some in H
          as [(-> & [=] & _) | (_ & H)].
        now apply (Hret j).
      * intros j c0 e H. apply list_lookup_insert_Some in H
          as [(-> & [= <- <-] & _) | (_ & H)].
        -- assumption.
        -- now apply (Hthrow j).
Qed.

Lemma sound_run cs schedule s :
  sound cacheKey analyze cs s -> sound cacheKey analyze cs (run cacheKey analyze schedule s).
Proof.
  revert s. induction schedule as [|i schedule IH]; intros s H; cbn [run fold_left].
  - assumption.
  - apply IH. now apply sound_step.
Qed.

End Schedules.

End ScheduleFacts.

Module Schedules.
Import Types Handler HandlerFacts ScheduleFacts.
Import Vocabulary.

(** Whatever the order in which the event loop runs the calls, the
    analyses started for a key are at most the calls with that key. *)
Theorem analyses_bounded_by_calls
    {Call Result : Type} (cacheKey : Call -> string)
    (analyze : Call -> Completion Result)
    (cs : list Call) (schedule : list nat) (k : string) :
  (computations k (run cacheKey analyze schedule (initial cs))
   <= length (List.filter (fun c => String.eqb k (cacheKey c)) cs))%nat.
Proof.
  pose proof (run_measure cacheKey analyze k schedule (initial cs)) as H.
  rewrite (waiting_initial (Result := Result) cacheKey k cs) in H.
  unfold computations at 2 in H. cbn [started initial length List.filter] in H.
  lia.
Qed.

(** Whatever the order in which the event loop runs the calls: what is
    cached under a key is the result of the analysis of one of the calls
    with that key; a call that returns a result returns the result of
    the analysis of a call with its key, its own or another one's; and a
    call that throws throws what its own analysis threw. *)
Theorem cache_is_sound
    {Call Result : Type} (cacheKey : Call -> string)
    (analyze : Call -> Completion Result)
    (cs : list Call) (schedule : list nat) :
  map fst (calls (run cacheKey analyze schedule (initial cs))) = cs
  /\ (forall k r,
        cache (run cacheKey analyze schedule (initial cs)) !! k = Some r ->
        exists c, In c cs /\ cacheKey c = k /\ analyze c = Return r)
  /\ (forall i c r,
        calls (run cacheKey analyze schedule (initial cs)) !! i
        = Some (c, Finished (Return r)) ->
        exists c', In c' cs /\ cacheKey c' = cacheKey c /\ analyze c' = Return r)
  /\ (forall i c e,
        calls (run cacheKey analyze schedule (initial cs)) !! i
        = Some (c, Finished (Throw e)) ->
        analyze c = Throw e).
Proof.
  exact (sound_run cacheKey analyze cs schedule (initial cs)
           (sound_initial cacheKey analyze cs)).
Qed.



End Schedules.
